(** * P&L flex card generator: numeric pipeline, validation and card composition

    A shallow embedding of the TypeScript sources

      - [src/utils/pnlCalculator.ts]  (calculatePnL, roundPrecision, formatPct,
                                       formatTokenPrice)
      - [src/utils/errorHandler.ts]   (sanitizeString, sanitizeTicker)
      - [src/routes/cardRoutes.ts]    (extractBody, validate, POST /generate-card)
      - [src/services/cardRenderer.ts] (getColors, roundedRect, drawDegenEffects,
                                       renderCard)

    JavaScript numbers are IEEE-754 binary64 values.  They are modelled by the
    Standard Library's [spec_float] at precision 53 and maximal exponent 1024,
    whose operations are executable and correctly rounded (round to nearest,
    ties to even).  The number-to-string conversions ([toFixed],
    [toExponential], [Number::toString]) follow ECMA-262 and are computed on
    the exact rational value of the double.

    JavaScript strings are sequences of UTF-16 code units ([jsstring]); the
    ASCII strings the formatters build are kept as [string]. *)

From Stdlib Require Import ZArith NArith List String Ascii Bool Lia.
From Stdlib Require Import Floats.SpecFloat.
Import ListNotations.

Local Open Scope string_scope.
Local Open Scope Z_scope.

(* ================================================================== *)
(** ** IEEE-754 binary64 numbers *)
(* ================================================================== *)

Definition number := spec_float.

Module Num.

Definition prec : Z := 53.
Definition emax : Z := 1024.

(** A value a JavaScript engine can hold: canonical mantissa and exponent. *)
Definition valid (x : number) : bool := valid_binary prec emax x.

Definition add (x y : number) : number := SFadd prec emax x y.
Definition sub (x y : number) : number := SFsub prec emax x y.
Definition mul (x y : number) : number := SFmul prec emax x y.
Definition div (x y : number) : number := SFdiv prec emax x y.

(** [x < y], [x <= y], [x > y], [x >= y]; all false when an operand is NaN. *)
Definition lt (x y : number) : bool := SFltb x y.
Definition le (x y : number) : bool := SFleb x y.
Definition gt (x y : number) : bool := SFltb y x.
Definition ge (x y : number) : bool := SFleb y x.

(** The double nearest to an integer (exact below 2^53). *)
Definition ofZ (z : Z) : number := binary_normalize prec emax z 0 false.

(** The decimal literal [n / d], for [n] and [d] exactly representable:
    the correctly rounded quotient is the double the literal denotes. *)
Definition lit (n d : Z) : number := div (ofZ n) (ofZ d).

Definition zero : number := S754_zero false.
Definition negzero : number := S754_zero true.

Definition isFinite (x : number) : bool :=
  match x with
  | S754_zero _ | S754_finite _ _ _ => true
  | S754_infinity _ | S754_nan => false
  end.

(** The magnitude of a finite non-zero double [m * 2^e] is the fraction
    [numer m e / denom e]. *)
Definition numer (m : positive) (e : Z) : Z := Zpos m * 2 ^ Z.max e 0.
Definition denom (e : Z) : Z := 2 ^ Z.max (- e) 0.

(** The integer nearest to [p / q] (for [q > 0]), the larger one on a tie. *)
Definition nearestTiesUp (p q : Z) : Z := (2 * p + q) / (2 * q).

End Num.

Module Math.

Definition abs (x : number) : number := SFabs x.

(** [Math.round]: the nearest integer, ties towards +infinity; the sign of
    the argument is kept when the result is zero. *)
Definition round (x : number) : number :=
  match x with
  | S754_finite s m e =>
      if 0 <=? e then x
      else
        let r := Num.nearestTiesUp
                   (if s then - Num.numer m e else Num.numer m e) (Num.denom e) in
        if r =? 0 then S754_zero s else Num.ofZ r
  | _ => x
  end.

End Math.

(* ================================================================== *)
(** ** Decimal digit strings *)
(* ================================================================== *)

Definition digitChar (d : Z) : ascii :=
  ascii_of_N (48 + Z.to_N (d mod 10)).

(** The [k] low decimal digits of [n], most significant first. *)
Fixpoint fixedDigits (k : nat) (n : Z) : string :=
  match k with
  | O => ""
  | S k' => fixedDigits k' (n / 10) ++ String (digitChar n) ""
  end.

Fixpoint countDigits (fuel : nat) (n : Z) : nat :=
  match fuel with
  | O => 1
  | S f => if n <? 10 then 1%nat else S (countDigits f (n / 10))
  end.

(** Number of decimal digits of [n >= 0] (1 for 0). *)
Definition numDigits (n : Z) : nat := countDigits (Z.to_nat (Z.log2 n)) n.

(** Decimal representation of [n >= 0] with no leading zero. *)
Definition decimal (n : Z) : string := fixedDigits (numDigits n) n.

(** [n / 10^f] written with exactly [f] fractional digits. *)
Definition fixedPoint (f : nat) (n : Z) : string :=
  decimal (n / 10 ^ Z.of_nat f) ++
  match f with
  | O => ""
  | _ => "." ++ fixedDigits f n
  end.

(* ================================================================== *)
(** ** Number to string conversions (ECMA-262) *)
(* ================================================================== *)

(** [10^k <= p / q], for [q > 0]. *)
Definition pow10le (k p q : Z) : bool :=
  10 ^ Z.max k 0 * q <=? p * 10 ^ Z.max (- k) 0.

Fixpoint findLog10 (fuel : nat) (k p q : Z) : Z :=
  match fuel with
  | O => k
  | S f => if pow10le k p q then k else findLog10 f (k - 1) p q
  end.

(** The decimal exponent of [p / q]: the largest [k] with [10^k <= p / q]
    (doubles lie between 10^-324 and 10^309). *)
Definition floorLog10 (p q : Z) : Z := findLog10 640 310 p q.

(** Comparison of [a * 2^e] with [s * 10^t]. *)
Definition cmpScaled (a e s t : Z) : comparison :=
  (a * 2 ^ Z.max e 0 * 10 ^ Z.max (- t) 0 ?= s * 10 ^ Z.max t 0 * 2 ^ Z.max (- e) 0).

(** Does the decimal [s * 10^t] round to the double [m * 2^e]?  The
    rounding interval reaches half a gap on each side (the gap below a power
    of two is half as wide) and contains its end points when [m] is even. *)
Definition roundsTo (m : positive) (e s t : Z) : bool :=
  let below := if (Zpos m =? 2 ^ 52) && (-1074 <? e) then 1 else 2 in
  let lo := cmpScaled (4 * Zpos m - below) (e - 2) s t in
  let hi := cmpScaled (4 * Zpos m + 2) (e - 2) s t in
  match lo, hi with
  | Lt, Gt => true
  | Eq, _ | _, Eq => Z.even (Zpos m)
  | _, _ => false
  end.

(** The candidate with [k] digits for [m * 2^e], whose decimal exponent is
    [n0 - 1]: the neighbour of [x / 10^(n0 - k)] that rounds back to [x] and
    is closest to it (the even one on a tie). *)
Definition candidate (m : positive) (e n0 : Z) (k : nat) : option Z :=
  let t := n0 - Z.of_nat k in
  let p := Num.numer m e * 10 ^ Z.max (- t) 0 in
  let q := Num.denom e * 10 ^ Z.max t 0 in
  let s := p / q in
  let okLo := roundsTo m e s t in
  let okHi := roundsTo m e (s + 1) t in
  match okLo, okHi with
  | true, false => Some s
  | false, true => Some (s + 1)
  | false, false => None
  | true, true =>
      match (2 * (p mod q) ?= q) with
      | Lt => Some s
      | Gt => Some (s + 1)
      | Eq => Some (if Z.even s then s else s + 1)
      end
  end.

Fixpoint shortest (fuel : nat) (m : positive) (e n0 : Z) (k : nat) : Z * nat :=
  match candidate m e n0 k with
  | Some s => (s, k)
  | None =>
      match fuel with
      | O => (Num.numer m e * 10 ^ Z.max (Z.of_nat k - n0) 0
                / (Num.denom e * 10 ^ Z.max (n0 - Z.of_nat k) 0), k)
      | S f => shortest f m e n0 (S k)
      end
  end.

Definition zeros (k : nat) : string := fixedDigits k 0.

Definition signedExponent (e : Z) : string :=
  (if e <? 0 then "-" else "+") ++ decimal (Z.abs e).

(** [Number::toString] of the positive double [m * 2^e]: the shortest digit
    string [s] (with [k] digits) and exponent [n] with [s * 10^(n-k)]
    rounding to the double, laid out by the size of [n]. *)
Definition positiveToString (m : positive) (e : Z) : string :=
  let n0 := floorLog10 (Num.numer m e) (Num.denom e) + 1 in
  let '(s0, k) := shortest 16 m e n0 1 in
  let '(s, n) := if s0 =? 10 ^ Z.of_nat k then (s0 / 10, n0 + 1) else (s0, n0) in
  let digits := fixedDigits k s in
  let kz := Z.of_nat k in
  if (kz <=? n) && (n <=? 21) then digits ++ zeros (Z.to_nat (n - kz))
  else if (0 <? n) && (n <=? 21) then
    substring 0 (Z.to_nat n) digits ++ "." ++ substring (Z.to_nat n) (k - Z.to_nat n) digits
  else if (-6 <? n) && (n <=? 0) then "0." ++ zeros (Z.to_nat (- n)) ++ digits
  else if (k =? 1)%nat then digits ++ "e" ++ signedExponent (n - 1)
  else substring 0 1 digits ++ "." ++ substring 1 (k - 1) digits
       ++ "e" ++ signedExponent (n - 1).

Definition numberToString (x : number) : string :=
  match x with
  | S754_nan => "NaN"
  | S754_zero _ => "0"
  | S754_infinity s => if s then "-Infinity" else "Infinity"
  | S754_finite s m e => (if s then "-" else "") ++ positiveToString m e
  end.

(** [Number.prototype.toFixed(f)]. *)
Definition toFixed (f : nat) (x : number) : string :=
  match x with
  | S754_finite s m e =>
      (if s then "-" else "") ++
      (if 10 ^ 21 * Num.denom e <=? Num.numer m e then positiveToString m e
       else fixedPoint f
              (Num.nearestTiesUp (Num.numer m e * 10 ^ Z.of_nat f) (Num.denom e)))
  | S754_zero _ => fixedPoint f 0
  | _ => numberToString x
  end.

(** [Number.prototype.toExponential(f)]. *)
Definition toExponential (f : nat) (x : number) : string :=
  let mantissa n :=
    fixedDigits 1 (n / 10 ^ Z.of_nat f) ++
    match f with O => "" | _ => "." ++ fixedDigits f n end in
  match x with
  | S754_finite s m e =>
      let p := Num.numer m e in
      let q := Num.denom e in
      let e0 := floorLog10 p q in
      let fz := Z.of_nat f in
      let n0 := Num.nearestTiesUp (p * 10 ^ Z.max (fz - e0) 0)
                                  (q * 10 ^ Z.max (e0 - fz) 0) in
      let '(n, ex) := if n0 =? 10 ^ (fz + 1) then (10 ^ fz, e0 + 1) else (n0, e0) in
      (if s then "-" else "") ++ mantissa n ++ "e" ++ signedExponent ex
  | S754_zero _ => mantissa 0 ++ "e+0"
  | _ => numberToString x
  end.

(* ================================================================== *)
(** ** Host-defined number formatting *)
(* ================================================================== *)

(** [Number.prototype.toLocaleString] is defined by the host and its default
    locale.  The program is parameterised by it: the argument is the number
    and the [maximumFractionDigits] option when one is passed.

    [enUS_toLocaleString] is the behaviour of Node.js (V8 with ICU) for the
    locale en-US, decimal style: the shortest decimal that reads back as
    the number (the digits of [Number::toString]) is rounded half-expand to
    at most 3 fractional digits unless told otherwise, trailing zeros are
    dropped and the integer digits are put in groups of three separated by
    commas.  (1000.005 is the double 1000.00499999999999545...; its
    shortest decimal is 1000.005, printed as 1,000.01 with two fractional
    digits, where [toFixed(2)] gives 1000.00.) *)

(** The shortest decimal [d * 10^t] that reads back as the double
    [m * 2^e], as [Number::toString] finds it. *)
Definition shortestDecimal (m : positive) (e : Z) : Z * Z :=
  let n0 := floorLog10 (Num.numer m e) (Num.denom e) + 1 in
  let '(d, k) := shortest 16 m e n0 1 in
  (d, n0 - Z.of_nat k).

Fixpoint grouped (fuel : nat) (n : Z) : string :=
  match fuel with
  | O => decimal n
  | S f => if n <? 1000 then decimal n
           else grouped f (n / 1000) ++ "," ++ fixedDigits 3 n
  end.

(** The [f] fractional digits of [n / 10^f] without trailing zeros. *)
Fixpoint fractionDigits (f : nat) (n : Z) : string :=
  match f with
  | O => ""
  | S f' => if n mod 10 =? 0 then fractionDigits f' (n / 10) else fixedDigits f n
  end.

Definition enUS_magnitude (f : nat) (p q : Z) : string :=
  let n := Num.nearestTiesUp (p * 10 ^ Z.of_nat f) q in
  let whole := n / 10 ^ Z.of_nat f in
  let frac := fractionDigits f (n mod 10 ^ Z.of_nat f) in
  grouped (Z.to_nat (Z.log2 whole)) whole ++
  match frac with
  | "" => ""
  | _ => "." ++ frac
  end.

Definition infinitySign : string :=
  String (ascii_of_N 226) (String (ascii_of_N 136) (String (ascii_of_N 158) "")).

Definition enUS_toLocaleString (x : number) (maximumFractionDigits : option nat) : string :=
  let f := match maximumFractionDigits with Some k => k | None => 3%nat end in
  match x with
  | S754_nan => "NaN"
  | S754_infinity s => (if s then "-" else "") ++ infinitySign
  | S754_zero s => (if s then "-" else "") ++ "0"
  | S754_finite s m e =>
      let '(d, t) := shortestDecimal m e in
      (if s then "-" else "") ++
      enUS_magnitude f (d * 10 ^ Z.max t 0) (10 ^ Z.max (- t) 0)
  end.

(* ================================================================== *)
(** ** src/utils/pnlCalculator.ts *)
(* ================================================================== *)

Record PnLResult := {
  percentageGain : number;
  isProfit : bool;
  formattedGain : string
}.

(** [PnLCalculation = PnLResult | PnLError]; a [PnLError] is
    [{ error: true, message }]. *)
Inductive PnLCalculation :=
| Result (r : PnLResult)
| Error (message : string).

Definition c100 : number := Num.ofZ 100.
Definition c1000 : number := Num.ofZ 1000.
Definition c10000 : number := Num.ofZ 10000.
Definition c1000000 : number := Num.ofZ 1000000.

Definition roundPrecision (v : number) : number :=
  let abs := Math.abs v in
  if Num.ge abs c1000 then Math.round v
  else if Num.ge abs (Num.ofZ 1) then Num.div (Math.round (Num.mul v c100)) c100
  else Num.div (Math.round (Num.mul v c10000)) c10000.

(** The regular expression of [formatTokenPrice]: the characters 0 and dot,
    a first group of any number of zeros, and a second group made of one
    digit from 1 to 9 followed by at most three digits. *)

Definition isDigit (c : ascii) : bool :=
  let n := N_of_ascii c in ((48 <=? n) && (n <=? 57))%N.

Definition isZeroDigit (c : ascii) : bool := (N_of_ascii c =? 48)%N.

Definition isNonZeroDigit (c : ascii) : bool :=
  let n := N_of_ascii c in ((49 <=? n) && (n <=? 57))%N.

(** The longest prefix made of characters satisfying [p], and the rest. *)
Fixpoint span (p : ascii -> bool) (s : string) : string * string :=
  match s with
  | String c s' =>
      if p c then let '(a, b) := span p s' in (String c a, b) else ("", s)
  | "" => ("", "")
  end.

(** The longest prefix of at most [n] characters satisfying [p]. *)
Fixpoint takeUpTo (n : nat) (p : ascii -> bool) (s : string) : string :=
  match n, s with
  | S n', String c s' => if p c then String c (takeUpTo n' p s') else ""
  | _, _ => ""
  end.

(** A match starting at the head of [s]: the two capture groups.  Both
    quantifiers are greedy and never need to give a character back: after
    the longest run of zeros, a shorter run would be followed by a zero,
    which [[1-9]] refuses. *)
Definition matchHere (s : string) : option (string * string) :=
  match s with
  | String c0 (String c1 rest) =>
      if (c0 =? "0")%char && (c1 =? ".")%char then
        let '(zs, r) := span isZeroDigit rest in
        match r with
        | String c r' =>
            if isNonZeroDigit c then Some (zs, String c (takeUpTo 3 isDigit r'))
            else None
        | "" => None
        end
      else None
  | _ => None
  end.

(** [String.prototype.match]: the leftmost match. *)
Fixpoint regexMatch (s : string) : option (string * string) :=
  match matchHere s with
  | Some r => Some r
  | None =>
      match s with
      | String _ s' => regexMatch s'
      | "" => None
      end
  end.

Section Calculator.

Variable toLocaleString : number -> option nat -> string.

Definition formatPct (pct : number) : string :=
  let prefix := if Num.ge pct Num.zero then "+" else "" in
  let abs := Math.abs pct in
  if Num.ge abs c1000000 then prefix ++ toFixed 1 (Num.div pct c1000000) ++ "M%"
  else if Num.ge abs c10000 then prefix ++ toFixed 1 (Num.div pct c1000) ++ "K%"
  else if Num.ge abs c1000 then prefix ++ toLocaleString (Math.round pct) None ++ "%"
  else if Num.ge abs (Num.ofZ 10) then prefix ++ toFixed 1 pct ++ "%"
  else if Num.ge abs (Num.ofZ 1) then prefix ++ toFixed 2 pct ++ "%"
  else prefix ++ toFixed 4 pct ++ "%".

Definition calculatePnL (entryPrice currentPrice : number) : PnLCalculation :=
  if Num.le entryPrice Num.zero then Error "Entry price must be > 0"
  else if Num.lt currentPrice Num.zero then Error "Current price cannot be negative"
  else
    let pct := Num.mul (Num.div (Num.sub currentPrice entryPrice) entryPrice) c100 in
    Result {| percentageGain := roundPrecision pct;
              isProfit := Num.ge pct Num.zero;
              formattedGain := formatPct pct |}.

Definition formatTokenPrice (price : number) : string :=
  if Num.le price Num.zero then "$0"
  else
    match (if Num.lt price (Num.lit 1 100000)
           then regexMatch (toFixed 20 price) else None) with
    | Some (g1, g2) => "$0.0{" ++ decimal (Z.of_nat (String.length g1)) ++ "}" ++ g2
    | None =>
        if Num.ge price c1000000 then "$" ++ toFixed 2 (Num.div price c1000000) ++ "M"
        else if Num.ge price c1000 then "$" ++ toLocaleString price (Some 2%nat)
        else if Num.ge price (Num.ofZ 1) then "$" ++ toFixed 2 price
        else if Num.ge price (Num.lit 1 100) then "$" ++ toFixed 4 price
        else if Num.ge price (Num.lit 1 100000) then "$" ++ toFixed 6 price
        else "$" ++ toExponential 2 price
    end.

End Calculator.

(* ================================================================== *)
(** ** JavaScript strings and values *)
(* ================================================================== *)

(** A string is a sequence of UTF-16 code units. *)
Definition jsstring := list N.

(** An ASCII literal as a JavaScript string. *)
Fixpoint str (s : string) : jsstring :=
  match s with
  | "" => []
  | String c s' => N_of_ascii c :: str s'
  end.

Definition jsstring_eqb (a b : jsstring) : bool :=
  if list_eq_dec N.eq_dec a b then true else false.

(** White space and line terminators removed by [String.prototype.trim]. *)
Definition isWhiteSpace (c : N) : bool :=
  (((9 <=? c) && (c <=? 13)) || (c =? 32) || (c =? 160) || (c =? 5760)
   || ((8192 <=? c) && (c <=? 8202)) || (c =? 8232) || (c =? 8233)
   || (c =? 8239) || (c =? 8287) || (c =? 12288) || (c =? 65279))%N.

Fixpoint dropWhile {A} (p : A -> bool) (l : list A) : list A :=
  match l with
  | x :: l' => if p x then dropWhile p l' else l
  | [] => []
  end.

Definition trim (s : jsstring) : jsstring :=
  rev (dropWhile isWhiteSpace (rev (dropWhile isWhiteSpace s))).

(** [s.slice(0, n)] for [n >= 0]. *)
Definition slice0 (n : nat) (s : jsstring) : jsstring := firstn n s.

(** The code points other than a-z whose Unicode upper-case mapping
    (UnicodeData and SpecialCasing) contains an ASCII character. *)
Definition specialUpper : list (N * jsstring) :=
  [ (223, str "SS");            (* sharp s *)
    (305, str "I");             (* dotless i *)
    (383, str "S");             (* long s *)
    (329, [700; 78]);           (* n preceded by apostrophe *)
    (496, [74; 780]);           (* j with caron *)
    (7830, [72; 817]);          (* h with line below *)
    (7831, [84; 776]);          (* t with diaeresis *)
    (7832, [87; 778]);          (* w with ring above *)
    (7833, [89; 778]);          (* y with ring above *)
    (7834, [65; 702]);          (* a with right half ring *)
    (64256, str "FF"); (64257, str "FI"); (64258, str "FL");
    (64259, str "FFI"); (64260, str "FFL");
    (64261, str "ST"); (64262, str "ST") ]%N.

Fixpoint lookupUpper (c : N) (table : list (N * jsstring)) : option jsstring :=
  match table with
  | (k, v) :: rest => if (c =? k)%N then Some v else lookupUpper c rest
  | [] => None
  end.

Definition upperCodeUnit (c : N) : jsstring :=
  if ((97 <=? c) && (c <=? 122))%N then [(c - 32)%N]
  else match lookupUpper c specialUpper with
       | Some u => u
       | None => [c]
       end.

(** [String.prototype.toUpperCase].  ASCII letters and the code points of
    [specialUpper] are mapped as Unicode prescribes.  Every other code unit
    is left in place: its upper-case image holds no ASCII character, and in
    this program the result is either filtered down to [A-Z0-9$]
    ([sanitizeTicker]) or was so filtered before ([renderCard]). *)
Definition toUpperCase (s : jsstring) : jsstring := flat_map upperCodeUnit s.

#[warnings="-register-all"]
Inductive JsVal :=
| JUndefined
| JNull
| JBool (b : bool)
| JNum (x : number)
| JStr (s : jsstring)
| JObj (fields : list (jsstring * JsVal)).

(** ToBoolean. *)
Definition truthy (v : JsVal) : bool :=
  match v with
  | JUndefined | JNull => false
  | JBool b => b
  | JNum (S754_zero _) | JNum S754_nan => false
  | JNum _ => true
  | JStr [] => false
  | JStr _ => true
  | JObj _ => true
  end.

Definition typeof (v : JsVal) : string :=
  match v with
  | JUndefined => "undefined"
  | JNull | JObj _ => "object"
  | JBool _ => "boolean"
  | JNum _ => "number"
  | JStr _ => "string"
  end.

(** [v == null]. *)
Definition isNullish (v : JsVal) : bool :=
  match v with
  | JUndefined | JNull => true
  | _ => false
  end.

Fixpoint lookupField (k : jsstring) (fields : list (jsstring * JsVal)) : JsVal :=
  match fields with
  | (k', v) :: rest => if jsstring_eqb k k' then v else lookupField k rest
  | [] => JUndefined
  end.

(** Property read [v.k] for the data properties of a decoded JSON value;
    [None] is the TypeError raised on [undefined] and [null]. *)
Definition getProp (v : JsVal) (k : string) : option JsVal :=
  match v with
  | JUndefined | JNull => None
  | JObj fields => Some (lookupField (str k) fields)
  | _ => Some JUndefined
  end.

(* ================================================================== *)
(** ** src/utils/errorHandler.ts *)
(* ================================================================== *)

(** The class [[\x00-\x1F\x7F<>]]. *)
Definition isControlOrAngle (c : N) : bool :=
  ((c <=? 31) || (c =? 127) || (c =? 60) || (c =? 62))%N.

(** The class [[A-Z0-9$]]. *)
Definition isTickerChar (c : N) : bool :=
  (((65 <=? c) && (c <=? 90)) || ((48 <=? c) && (c <=? 57)) || (c =? 36))%N.

Definition sanitizeString (input : JsVal) (maxLength : nat) : jsstring :=
  match input with
  | JStr s => slice0 maxLength (trim (filter (fun c => negb (isControlOrAngle c)) s))
  | _ => []
  end.

Definition sanitizeTicker (ticker : JsVal) : jsstring :=
  match ticker with
  | JStr s => slice0 20 (filter isTickerChar (toUpperCase s))
  | _ => []
  end.

(* ================================================================== *)
(** ** src/services/cardRenderer.ts *)
(* ================================================================== *)

Definition CARD_WIDTH : Z := 1200.
Definition CARD_HEIGHT : Z := 630.

Inductive Theme := dark | light | degen.

Record CardData := {
  tokenSymbol : jsstring;
  entryPrice : number;
  currentPrice : number;
  pnl : PnLResult;
  walletTag : option jsstring;
  timestamp : option jsstring
}.

(** The 2-D drawing surface.  Coordinates are small integers, on which double
    arithmetic is exact, and are kept in [Z]; opacities and gradient offsets
    are doubles.  A fill style is a CSS colour or a linear gradient with its
    colour stops. *)
Inductive Style :=
| Color (css : string)
| LinearGradient (x0 y0 x1 y1 : Z) (stops : list (number * string)).

(** What the program asks of the rendering context, in order. *)
Inductive Call :=
| SetFillStyle (s : Style)
| SetStrokeStyle (s : Style)
| SetLineWidth (w : Z)
| SetFont (font : string)
| SetTextAlign (a : string)
| SetTextBaseline (b : string)
| SetGlobalAlpha (a : number)
| SetShadowColor (css : string)
| SetShadowBlur (b : Z)
| FillRect (x y w h : Z)
| StrokeRect (x y w h : Z)
| FillText (text : jsstring) (x y : Z)
| BeginPath
| MoveTo (x y : Z)
| LineTo (x y : Z)
| ArcTo (x1 y1 x2 y2 r : Z)
| ClosePath
| Fill
| Stroke.

(** A canvas is created with its size and records the calls made on its
    context. *)
Record Canvas := {
  width : Z;
  height : Z;
  calls : list Call
}.

Definition createCanvas (w h : Z) : Canvas :=
  {| width := w; height := h; calls := [] |}.

(** Drawing code threads the canvas: a state monad. *)
Definition Draw (A : Type) : Type := Canvas -> A * Canvas.

Definition ret {A} (a : A) : Draw A := fun c => (a, c).

Definition bind {A B} (m : Draw A) (k : A -> Draw B) : Draw B :=
  fun c => let '(a, c') := m c in k a c'.

Definition ctx (call : Call) : Draw unit :=
  fun c => (tt, {| width := width c; height := height c;
                   calls := (calls c ++ [call])%list |}).

Definition when (b : bool) (m : Draw unit) : Draw unit :=
  if b then m else ret tt.

Declare Scope draw_scope.
Delimit Scope draw_scope with draw.
Notation "m1 ;; m2" := (bind m1 (fun _ => m2))
  (at level 61, right associativity) : draw_scope.
Notation "x <- m1 ;; m2" := (bind m1 (fun x => m2))
  (at level 61, m1 at next level, right associativity) : draw_scope.

Record Colors := {
  bg : Style;
  bgBox : string;
  text : string;
  textDim : string;
  profit : string;
  loss : string;
  border : option string
}.

Definition grad (y : bool) : Z * Z * Z * Z :=
  (0, 0, if y then 0 else CARD_WIDTH, CARD_HEIGHT).

Definition gradient (g : Z * Z * Z * Z) (stops : list (number * string)) : Style :=
  let '(x0, y0, x1, y1) := g in LinearGradient x0 y0 x1 y1 stops.

Definition getColors (theme : Theme) : Colors :=
  match theme with
  | light =>
      {| bg := gradient (grad true) [(Num.ofZ 0, "#fff"); (Num.ofZ 1, "#f0f0f5")];
         bgBox := "#e8e8f0"; text := "#1a1a2e"; textDim := "#666680";
         profit := "#00aa55"; loss := "#dd3355"; border := Some "#d0d0e0" |}
  | degen =>
      {| bg := gradient (grad false)
                 [(Num.ofZ 0, "#0a0015"); (Num.lit 5 10, "#1a0030"); (Num.ofZ 1, "#0f1a00")];
         bgBox := "#2a1050"; text := "#fff"; textDim := "#aa88ff";
         profit := "#0f0"; loss := "#f06"; border := None |}
  | dark =>
      {| bg := gradient (grad true) [(Num.ofZ 0, "#0d0d0d"); (Num.ofZ 1, "#1a1a2e")];
         bgBox := "#252540"; text := "#fff"; textDim := "#888899";
         profit := "#00ff88"; loss := "#f46"; border := None |}
  end.

Local Open Scope draw_scope.

Definition roundedRect (x y w h r : Z) : Draw unit :=
  ctx BeginPath ;;
  ctx (MoveTo (x + r) y) ;;
  ctx (ArcTo (x + w) y (x + w) (y + h) r) ;;
  ctx (ArcTo (x + w) (y + h) x (y + h) r) ;;
  ctx (ArcTo x (y + h) x y r) ;;
  ctx (ArcTo x y (x + w) y r) ;;
  ctx ClosePath.

(** [for (let y = y0; y < limit; y += step) body(y)], for [step >= 1]; the
    loop leaves through its condition within [limit - y0] rounds. *)
Fixpoint forLoop (fuel : nat) (y limit step : Z) (body : Z -> Draw unit) : Draw unit :=
  match fuel with
  | O => ret tt
  | S f => if y <? limit then body y ;; forLoop f (y + step) limit step body
           else ret tt
  end.

Fixpoint forEach {A} (l : list A) (body : A -> Draw unit) : Draw unit :=
  match l with
  | [] => ret tt
  | a :: l' => body a ;; forEach l' body
  end.

Definition drawDegenEffects : Draw unit :=
  (* Scanlines *)
  ctx (SetGlobalAlpha (Num.lit 3 100)) ;;
  ctx (SetFillStyle (Color "#fff")) ;;
  forLoop (Z.to_nat CARD_HEIGHT) 0 CARD_HEIGHT 4 (fun y => ctx (FillRect 0 y CARD_WIDTH 1)) ;;
  (* Corner accents *)
  ctx (SetGlobalAlpha (Num.lit 5 10)) ;;
  ctx (SetStrokeStyle (Color "#f0f")) ;;
  ctx (SetLineWidth 3) ;;
  let s := 100 in
  forEach
    [ (0, s, 0, 0, s, 0);
      (CARD_WIDTH - s, 0, CARD_WIDTH, 0, CARD_WIDTH, s);
      (0, CARD_HEIGHT - s, 0, CARD_HEIGHT, s, CARD_HEIGHT);
      (CARD_WIDTH - s, CARD_HEIGHT, CARD_WIDTH, CARD_HEIGHT, CARD_WIDTH, CARD_HEIGHT - s) ]
    (fun '(x1, y1, x2, y2, x3, y3) =>
       ctx BeginPath ;; ctx (MoveTo x1 y1) ;; ctx (LineTo x2 y2) ;;
       ctx (LineTo x3 y3) ;; ctx Stroke) ;;
  ctx (SetGlobalAlpha (Num.ofZ 1)).

(** A string is truthy when it is present and not empty. *)
Definition present (s : option jsstring) : option jsstring :=
  match s with
  | Some (c :: r) => Some (c :: r)
  | _ => None
  end.

Definition isDegen (theme : Theme) : bool :=
  match theme with degen => true | _ => false end.

(** The encoded image bytes. *)
Definition Buffer := list N.

Section Renderer.

Variable toLocaleString : number -> option nat -> string.

(** The drawing calls of [renderCard], between [getContext] and [toBuffer]. *)
Definition drawCard (data : CardData) (theme : Theme) : Draw unit :=
  let colors := getColors theme in
  let pnlColor := if isProfit (pnl data) then profit colors else loss colors in

  ctx (SetFillStyle (bg colors)) ;;
  ctx (FillRect 0 0 CARD_WIDTH CARD_HEIGHT) ;;

  when (isDegen theme) drawDegenEffects ;;
  match border colors with
  | Some b => ctx (SetStrokeStyle (Color b)) ;; ctx (SetLineWidth 2) ;;
              ctx (StrokeRect 1 1 (CARD_WIDTH - 2) (CARD_HEIGHT - 2))
  | None => ret tt
  end ;;

  let pad := 60 in
  let cx := CARD_WIDTH / 2 in

  (* Header *)
  ctx (SetFillStyle (Color (text colors))) ;; ctx (SetFont "bold 72px Roboto") ;;
  ctx (SetTextAlign "left") ;; ctx (SetTextBaseline "top") ;;
  ctx (FillText (str "$" ++ toUpperCase (tokenSymbol data))%list pad pad) ;;
  ctx (SetFillStyle (Color (textDim colors))) ;; ctx (SetFont "bold 28px Roboto") ;;
  ctx (SetTextAlign "right") ;;
  ctx (FillText (str "P&L CARD") (CARD_WIDTH - pad) (pad + 10)) ;;

  (* Main percentage *)
  ctx (SetFillStyle (Color pnlColor)) ;; ctx (SetFont "bold 140px Roboto") ;;
  ctx (SetTextAlign "center") ;; ctx (SetTextBaseline "middle") ;;
  ctx (FillText (str (formattedGain (pnl data))) cx 270) ;;
  when (isDegen theme)
    (ctx (SetShadowColor pnlColor) ;; ctx (SetShadowBlur 30) ;;
     ctx (FillText (str (formattedGain (pnl data))) cx 270) ;;
     ctx (SetShadowBlur 0)) ;;

  (* Price boxes *)
  let boxW := 480 in
  let boxH := 100 in
  let boxY := 380 in
  let gap := 40 in
  let entryX := cx - boxW - gap / 2 in
  let currX := cx + gap / 2 in

  roundedRect entryX boxY boxW boxH 16 ;;
  ctx (SetFillStyle (Color (bgBox colors))) ;; ctx Fill ;;
  ctx (SetFillStyle (Color (textDim colors))) ;; ctx (SetFont "bold 24px Roboto") ;;
  ctx (SetTextBaseline "top") ;;
  ctx (FillText (str "ENTRY") (entryX + boxW / 2) (boxY + 15)) ;;
  ctx (SetFillStyle (Color (text colors))) ;; ctx (SetFont "bold 36px Roboto") ;;
  ctx (FillText (str (formatTokenPrice toLocaleString (entryPrice data)))
         (entryX + boxW / 2) (boxY + 50)) ;;

  roundedRect currX boxY boxW boxH 16 ;;
  ctx (SetFillStyle (Color (bgBox colors))) ;; ctx Fill ;;
  ctx (SetFillStyle (Color (textDim colors))) ;; ctx (SetFont "bold 24px Roboto") ;;
  ctx (FillText (str "CURRENT") (currX + boxW / 2) (boxY + 15)) ;;
  ctx (SetFillStyle (Color pnlColor)) ;; ctx (SetFont "bold 36px Roboto") ;;
  ctx (FillText (str (formatTokenPrice toLocaleString (currentPrice data)))
         (currX + boxW / 2) (boxY + 50)) ;;

  ctx (SetFillStyle (Color (textDim colors))) ;; ctx (SetFont "bold 40px Roboto") ;;
  ctx (SetTextBaseline "middle") ;;
  ctx (FillText [226; 8224; 8217]%N cx (boxY + boxH / 2)) ;;

  (* Footer *)
  let footerY := CARD_HEIGHT - pad - 10 in
  ctx (SetFont "bold 24px Roboto") ;; ctx (SetTextBaseline "bottom") ;;
  match present (walletTag data) with
  | Some tag => ctx (SetFillStyle (Color (textDim colors))) ;; ctx (SetTextAlign "left") ;;
                ctx (FillText tag pad footerY)
  | None => ret tt
  end ;;
  match present (timestamp data) with
  | Some ts => ctx (SetFillStyle (Color (textDim colors))) ;; ctx (SetFont "22px Roboto") ;;
               ctx (SetTextAlign "center") ;; ctx (FillText ts cx footerY)
  | None => ret tt
  end ;;
  ctx (SetFillStyle (Color (textDim colors))) ;; ctx (SetFont "bold 20px Roboto") ;;
  ctx (SetTextAlign "right") ;; ctx (SetGlobalAlpha (Num.lit 6 10)) ;;
  ctx (FillText (str "FLEX CARD") (CARD_WIDTH - pad) footerY) ;;
  ctx (SetGlobalAlpha (Num.ofZ 1)).

(** The process-wide state a rendering can see: the fonts registered at
    start-up ([loadFonts]) and the canvases allocated so far. *)
Record World := {
  fonts : list string;
  allocated : nat
}.

(** The drawing backend: the PNG encoding of a canvas (at compression
    level 6), given the registered fonts. *)
Variable toBuffer : list string -> Canvas -> Buffer.

Definition renderCard (data : CardData) (theme : Theme) (w : World) : Buffer * World :=
  let canvas := createCanvas CARD_WIDTH CARD_HEIGHT in
  let '(_, canvas) := drawCard data theme canvas in
  (toBuffer (fonts w) canvas,
   {| fonts := fonts w; allocated := S (allocated w) |}).

End Renderer.

(* ================================================================== *)
(** ** src/routes/cardRoutes.ts *)
(* ================================================================== *)

Definition THEMES : list jsstring := [str "dark"; str "light"; str "degen"].
Definition MAX_PRICE : number := Num.ofZ (10 ^ 15).
Definition MIN_PRICE : number := Num.lit 1 (10 ^ 20).

(** The request fields as they arrive: untyped. *)
Record CardRequest := {
  ticker : JsVal;
  entry_price : JsVal;
  current_price : JsVal;
  theme : JsVal;
  wallet_tag : JsVal;
  timestamp_ : JsVal
}.

(** [None] is the TypeError of reading a property of [undefined] or [null]. *)
Definition extractBody (body : JsVal) : option CardRequest :=
  let inner := match getProp body "body" with
               | Some v => v
               | None => JUndefined    (* body?.body *)
               end in
  let d := if truthy inner && (typeof inner =? "object")%string then inner else body in
  match getProp d "ticker", getProp d "entry_price", getProp d "current_price",
        getProp d "theme", getProp d "wallet_tag", getProp d "timestamp" with
  | Some t, Some e, Some c, Some th, Some w, Some ts =>
      Some {| ticker := t; entry_price := e; current_price := c;
              theme := th; wallet_tag := w; timestamp_ := ts |}
  | _, _, _, _, _, _ => None
  end.

Definition push (e : list string) (m : string) : list string := (e ++ [m])%list.

(** [typeof v !== 'string']. *)
Definition notString (v : JsVal) : bool :=
  match v with
  | JStr _ => false
  | _ => true
  end.

(** [v.length > n], read on a string. *)
Definition longerThan (v : JsVal) (n : nat) : bool :=
  match v with
  | JStr s => (n <? List.length s)%nat
  | _ => false
  end.

(** [!v || typeof v !== 'string' || !v.trim()]. *)
Definition blank (v : JsVal) : bool :=
  negb (truthy v) || notString v ||
  match v with
  | JStr s => negb (truthy (JStr (trim s)))
  | _ => true
  end.

(** [typeof v !== 'number' || !isFinite(v)]. *)
Definition notFiniteNumber (v : JsVal) : bool :=
  match v with
  | JNum x => negb (Num.isFinite x)
  | _ => true
  end.

(** The number held by a field that passed [notFiniteNumber]. *)
Definition numberOf (v : JsVal) : number :=
  match v with
  | JNum x => x
  | _ => S754_nan
  end.

(** [THEMES.includes(v)]. *)
Definition includesTheme (v : JsVal) : bool :=
  match v with
  | JStr s => existsb (jsstring_eqb s) THEMES
  | _ => false
  end.

Definition validateTicker (b : CardRequest) (e : list string) : list string :=
  if blank (ticker b) then push e "ticker is required"
  else if longerThan (ticker b) 20 then push e "ticker must be 20 characters or less"
  else e.

Definition validateEntryPrice (b : CardRequest) (e : list string) : list string :=
  if isNullish (entry_price b) then push e "entry_price is required"
  else if notFiniteNumber (entry_price b) then push e "entry_price must be a valid number"
  else if Num.le (numberOf (entry_price b)) Num.zero
       then push e "entry_price must be greater than zero"
  else if Num.lt (numberOf (entry_price b)) MIN_PRICE
          || Num.gt (numberOf (entry_price b)) MAX_PRICE
       then push e "entry_price out of range"
  else e.

Definition validateCurrentPrice (b : CardRequest) (e : list string) : list string :=
  if isNullish (current_price b) then push e "current_price is required"
  else if notFiniteNumber (current_price b) then push e "current_price must be a valid number"
  else if Num.lt (numberOf (current_price b)) Num.zero
       then push e "current_price cannot be negative"
  else if Num.gt (numberOf (current_price b)) MAX_PRICE
       then push e "current_price out of range"
  else e.

Definition validateTheme (b : CardRequest) (e : list string) : list string :=
  if negb (isNullish (theme b)) && negb (includesTheme (theme b))
  then push e "theme must be: dark, light, degen" else e.

Definition validateWalletTag (b : CardRequest) (e : list string) : list string :=
  if negb (isNullish (wallet_tag b)) && (notString (wallet_tag b) || longerThan (wallet_tag b) 50)
  then push e "wallet_tag invalid" else e.

Definition validateTimestamp (b : CardRequest) (e : list string) : list string :=
  if negb (isNullish (timestamp_ b)) && (notString (timestamp_ b) || longerThan (timestamp_ b) 100)
  then push e "timestamp invalid" else e.

(** [validate]: the six statements of the source, each pushing at most one
    message onto the array [e]. *)
Definition validate (b : CardRequest) : list string :=
  let e := [] in
  let e := validateTicker b e in
  let e := validateEntryPrice b e in
  let e := validateCurrentPrice b e in
  let e := validateTheme b e in
  let e := validateWalletTag b e in
  let e := validateTimestamp b e in
  e.

(** The JSON bodies the handler answers with. *)
Record Metadata := {
  meta_ticker : jsstring;
  gain_percentage : number;
  formatted_gain : string;
  is_profit : bool;
  meta_theme : Theme
}.

Inductive Response :=
| ValidationFailed (details : list string)        (* 400 *)
| PnlFailed (message : string)                    (* 400 *)
| Success (image : Buffer) (metadata : Metadata)  (* 200 *)
| ServerError.                                    (* 500 *)

(** [body.theme || 'dark'] for a validated theme. *)
Definition themeOf (v : JsVal) : Theme :=
  match v with
  | JStr s => if jsstring_eqb s (str "light") then light
              else if jsstring_eqb s (str "degen") then degen
              else dark
  | _ => dark
  end.

Section Routes.

Variable toLocaleString : number -> option nat -> string.
Variable toBuffer : list string -> Canvas -> Buffer.

(** The card data assembled by the handler once validation has passed;
    [now] is the current date as the host formats it. *)
Definition cardDataOf (now : jsstring) (body : CardRequest) (p : PnLResult) : CardData :=
  {| tokenSymbol := sanitizeTicker (ticker body);
     entryPrice := numberOf (entry_price body);
     currentPrice := numberOf (current_price body);
     pnl := p;
     walletTag := if truthy (wallet_tag body)
                  then Some (sanitizeString (wallet_tag body) 50) else None;
     timestamp := Some (if truthy (timestamp_ body)
                        then sanitizeString (timestamp_ body) 100 else now) |}.

(** The handler of [POST /generate-card].  Logging is left out. *)
Definition generateCard (now : jsstring) (reqBody : JsVal) (w : World) : Response * World :=
  match extractBody reqBody with
  | None => (ServerError, w)
  | Some body =>
      let errors := validate body in
      match errors with
      | _ :: _ => (ValidationFailed errors, w)
      | [] =>
          match calculatePnL toLocaleString
                  (numberOf (entry_price body)) (numberOf (current_price body)) with
          | Error message => (PnlFailed message, w)
          | Result p =>
              let theme := themeOf (theme body) in
              let cardData := cardDataOf now body p in
              let '(buffer, w') := renderCard toLocaleString toBuffer cardData theme w in
              (Success buffer
                 {| meta_ticker := tokenSymbol cardData;
                    gain_percentage := percentageGain p;
                    formatted_gain := formattedGain p;
                    is_profit := isProfit p;
                    meta_theme := theme |}, w')
          end
      end
  end.

End Routes.

(* ================================================================== *)
(** ** The other revision of the routes (unnamed/part_003) *)
(* ================================================================== *)

(** The repository holds a second revision of the routes file.  Its
    [validate] tests the sanitized ticker instead of the raw length, treats
    the optional fields by truthiness, and words its messages differently. *)
Module Variant.

Definition validateTicker (b : CardRequest) (e : list string) : list string :=
  if blank (ticker b) then push e "ticker required"
  else if negb (truthy (JStr (sanitizeTicker (ticker b))))
       then push e "ticker must contain A-Z, 0-9, or $"
  else e.

Definition validateEntryPrice (b : CardRequest) (e : list string) : list string :=
  if isNullish (entry_price b) then push e "entry_price required"
  else if notFiniteNumber (entry_price b) then push e "entry_price must be number"
  else if Num.le (numberOf (entry_price b)) Num.zero
       then push e "entry_price must be > 0"
  else if Num.lt (numberOf (entry_price b)) MIN_PRICE
          || Num.gt (numberOf (entry_price b)) MAX_PRICE
       then push e "entry_price out of range"
  else e.

Definition validateCurrentPrice (b : CardRequest) (e : list string) : list string :=
  if isNullish (current_price b) then push e "current_price required"
  else if notFiniteNumber (current_price b) then push e "current_price must be number"
  else if Num.lt (numberOf (current_price b)) Num.zero
       then push e "current_price cannot be negative"
  else if Num.gt (numberOf (current_price b)) MAX_PRICE
       then push e "current_price out of range"
  else e.

Definition validateTheme (b : CardRequest) (e : list string) : list string :=
  if truthy (theme b) && negb (includesTheme (theme b))
  then push e "theme must be: dark, light, degen" else e.

Definition validateWalletTag (b : CardRequest) (e : list string) : list string :=
  if truthy (wallet_tag b) && (notString (wallet_tag b) || longerThan (wallet_tag b) 50)
  then push e "wallet_tag invalid" else e.

Definition validateTimestamp (b : CardRequest) (e : list string) : list string :=
  if truthy (timestamp_ b) && (notString (timestamp_ b) || longerThan (timestamp_ b) 100)
  then push e "timestamp invalid" else e.

Definition validate (b : CardRequest) : list string :=
  let e := [] in
  let e := validateTicker b e in
  let e := validateEntryPrice b e in
  let e := validateCurrentPrice b e in
  let e := validateTheme b e in
  let e := validateWalletTag b e in
  let e := validateTimestamp b e in
  e.

End Variant.

(* ================================================================== *)
(** ** src/utils/errorHandler.ts: the error middleware *)
(* ================================================================== *)








(* ================================================================== *)
(** ** src/utils/fontLoader.ts *)
(* ================================================================== *)

Record Font := { file : string; family : string; weight : string }.

Definition FONTS : list Font :=
  [ {| file := "Roboto-Bold.ttf"; family := "Roboto"; weight := "bold" |} ].

Record FontResult := {
  success : bool;
  loaded : list string;
  failed : list string
}.

Section FontLoader.

(** The surroundings of the loader: [path.join], [__dirname] and
    [process.cwd()], the file system as [fs.existsSync] sees it during the
    call, and [registerFont], which registers the font or throws
    ([false]).  The console output is left out. *)
Variable join : string -> string -> string.
Variable dirname cwd : string.
Variable existsSync : string -> bool.
Variable registerFont : string -> Font -> bool.

(** [paths.find(p => fs.existsSync(p)) || paths[0]]: an empty string is
    falsy. *)
Definition findFontsDir : string :=
  let paths := [ join dirname "../assets/fonts";
                 join dirname "../../src/assets/fonts";
                 join cwd "src/assets/fonts" ] in
  match List.find existsSync paths with
  | Some p => if (p =? "")%string then nth 0 paths "" else p
  | None => nth 0 paths ""
  end.

(** The [for (const font of ...)] loop: the result so far and the families
    registered with the canvas library so far are threaded through. *)
Fixpoint loadEach (fontsDir : string) (fonts : list Font)
    (result : FontResult) (registered : list string)
    : FontResult * list string :=
  match fonts with
  | [] => (result, registered)
  | font :: rest =>
      let fontPath := join fontsDir (file font) in
      if existsSync fontPath then
        if registerFont fontPath font then
          loadEach fontsDir rest
            {| success := success result;
               loaded := (loaded result ++ [file font])%list;
               failed := failed result |}
            (registered ++ [family font])%list
        else
          loadEach fontsDir rest
            {| success := false;
               loaded := loaded result;
               failed := (failed result ++ [file font])%list |}
            registered
      else
        loadEach fontsDir rest
          {| success := false;
             loaded := loaded result;
             failed := (failed result ++ [file font])%list |}
          registered
  end.

Definition loadFonts (registered : list string) : FontResult * list string :=
  let result := {| success := true; loaded := []; failed := [] |} in
  let fontsDir := findFontsDir in
  if negb (existsSync fontsDir) then
    ({| success := false; loaded := loaded result; failed := failed result |},
     registered)
  else loadEach fontsDir FONTS result registered.

End FontLoader.

(* ================================================================== *)
(** ** Vocabulary of the specification *)
(* ================================================================== *)

(** The raw percentage of section 4.1: [(current - entry) / entry * 100] in
    double arithmetic, written from the specification's formula. *)
Definition rawPercentage (entry current : number) : number :=
  Num.mul (Num.div (Num.sub current entry) entry) (Num.ofZ 100).

(** The finite doubles of magnitude below 10^21, for which [toFixed] writes
    plain decimal digits. *)
Definition below1e21 (x : number) : bool :=
  match x with
  | S754_finite _ m e => negb (10 ^ 21 * Num.denom e <=? Num.numer m e)
  | S754_zero _ => true
  | _ => false
  end.

Fixpoint allDigits (s : string) : bool :=
  match s with
  | "" => true
  | String c s' => isDigit c && allDigits s'
  end.

(** [s] is an optional minus sign, at least one digit and, when [f > 0], a
    point followed by exactly [f] digits. *)
Definition isFixedNotation (f : nat) (s : string) : bool :=
  let body := match s with
              | String "-" r => r
              | _ => s
              end in
  let '(whole, rest) := span isDigit body in
  negb (whole =? "")%string &&
  match rest with
  | "" => (f =? 0)%nat
  | String "." frac => negb (f =? 0)%nat && (String.length frac =? f)%nat && allDigits frac
  | _ => false
  end.

Fixpoint hasPoint (s : string) : bool :=
  match s with
  | "" => false
  | String c s' => (c =? ".")%char || hasPoint s'
  end.

Fixpoint startsWith (p s : string) : bool :=
  match p with
  | "" => true
  | String a p' =>
      match s with
      | String b s' => (a =? b)%char && startsWith p' s'
      | "" => false
      end
  end.

Fixpoint repeatChar (c : ascii) (k : nat) : string :=
  match k with
  | O => ""
  | S k' => String c (repeatChar c k')
  end.

(** 2^69, the largest power of two below 10^21. *)
Definition two69 : number := S754_finite false 4503599627370496 17.

(** The double denoted by the literal 0.00001. *)
Definition compactLimit : number := S754_finite false 5902958103587057 (-69).

(** The tiers above the compact notation, as the source tests them. *)
Definition plainTiers (toLocaleString : number -> option nat -> string)
    (price : number) : string :=
  if Num.ge price c1000000 then "$" ++ toFixed 2 (Num.div price c1000000) ++ "M"
  else if Num.ge price c1000 then "$" ++ toLocaleString price (Some 2%nat)
  else if Num.ge price (Num.ofZ 1) then "$" ++ toFixed 2 price
  else if Num.ge price (Num.lit 1 100) then "$" ++ toFixed 4 price
  else if Num.ge price (Num.lit 1 100000) then "$" ++ toFixed 6 price
  else "$" ++ toExponential 2 price.


(** ASCII case folding: a-z to A-Z, everything else unchanged. *)
Definition asciiUpper (c : N) : N :=
  if ((97 <=? c) && (c <=? 122))%N then (c - 32)%N else c.

(** The class [[A-Za-z0-9$]]. *)
Definition isAlnumDollar (c : N) : bool :=
  (((65 <=? c) && (c <=? 90)) || ((97 <=? c) && (c <=? 122))
   || ((48 <=? c) && (c <=? 57)) || (c =? 36))%N.

(** A code point outside a-z whose upper-case form contains ASCII letters. *)
Definition hasSpecialUpper (c : N) : bool :=
  existsb (fun kv => (c =? fst kv)%N) specialUpper.

(** The request in which every field is missing. *)
Definition emptyRequest : CardRequest :=
  {| ticker := JUndefined; entry_price := JUndefined; current_price := JUndefined;
     theme := JUndefined; wallet_tag := JUndefined; timestamp_ := JUndefined |}.


(** A drawing that leaves the size of the canvas alone. *)
Definition keepsSize {A} (m : Draw A) : Prop :=
  forall c, width (snd (m c)) = width c /\ height (snd (m c)) = height c.

(** A request body with the three required fields. *)
Definition requestOf (t : jsstring) (entry current : number) : JsVal :=
  JObj [ (str "ticker", JStr t); (str "entry_price", JNum entry);
         (str "current_price", JNum current) ].

(** A backend that encodes every canvas as the empty buffer, and a world
    with no font, to run the handler on examples. *)
Definition blankBackend (fonts : list string) (c : Canvas) : Buffer := [].
Definition freshWorld : World := {| fonts := []; allocated := 0 |}.

(** What [validate] asks of each field, in the terms of the API description,
    as propositions. *)
Definition tickerOk (v : JsVal) : Prop :=
  exists t, v = JStr t /\ trim t <> [] /\ (List.length t <= 20)%nat.

Definition entryPriceOk (v : JsVal) : Prop :=
  exists x, v = JNum x /\ Num.isFinite x = true /\ Num.gt x Num.zero = true /\
            Num.ge x MIN_PRICE = true /\ Num.le x MAX_PRICE = true.

Definition currentPriceOk (v : JsVal) : Prop :=
  exists y, v = JNum y /\ Num.isFinite y = true /\ Num.ge y Num.zero = true /\
            Num.le y MAX_PRICE = true.

Definition themeOk (v : JsVal) : Prop :=
  v = JUndefined \/ v = JNull \/
  v = JStr (str "dark") \/ v = JStr (str "light") \/ v = JStr (str "degen").

Definition optionalTextOk (limit : nat) (v : JsVal) : Prop :=
  v = JUndefined \/ v = JNull \/ exists s, v = JStr s /\ (List.length s <= limit)%nat.

(** The rules of the validator for each field, in the words of the API
    description: the ticker is required, a string that is not blank after
    trimming, of at most 20 characters; the entry price is required, a
    finite number above 0 within [1e-20, 1e15]; the current price is
    required, a finite number from 0 to 1e15; the theme is optional, one of
    dark, light and degen; the wallet tag and the timestamp are optional
    strings of at most 50 and 100 characters. *)
Definition tickerRule (v : JsVal) : bool :=
  match v with
  | JStr t => match trim t with
              | [] => false
              | _ => (List.length t <=? 20)%nat
              end
  | _ => false
  end.

Definition entryPriceRule (v : JsVal) : bool :=
  match v with
  | JNum x => Num.isFinite x && Num.gt x Num.zero
              && Num.ge x MIN_PRICE && Num.le x MAX_PRICE
  | _ => false
  end.

Definition currentPriceRule (v : JsVal) : bool :=
  match v with
  | JNum y => Num.isFinite y && Num.ge y Num.zero && Num.le y MAX_PRICE
  | _ => false
  end.

Definition themeRule (v : JsVal) : bool :=
  match v with
  | JUndefined | JNull => true
  | JStr s => jsstring_eqb s (str "dark") || jsstring_eqb s (str "light")
              || jsstring_eqb s (str "degen")
  | _ => false
  end.

Definition optionalTextRule (limit : nat) (v : JsVal) : bool :=
  match v with
  | JUndefined | JNull => true
  | JStr s => (List.length s <=? limit)%nat
  | _ => false
  end.

(** Number of fields of a request that break their rule. *)
Definition failingFields (b : CardRequest) : nat :=
  let failing (ok : bool) := if ok then 0%nat else 1%nat in
  (failing (tickerRule (ticker b)) + failing (entryPriceRule (entry_price b))
   + failing (currentPriceRule (current_price b)) + failing (themeRule (theme b))
   + failing (optionalTextRule 50 (wallet_tag b))
   + failing (optionalTextRule 100 (timestamp_ b)))%nat.

(** A request in which every field breaks its rule. *)
Definition allWrong : CardRequest :=
  {| ticker := JStr (str "ABCDEFGHIJKLMNOPQRSTU");
     entry_price := JNum (Num.ofZ 0);
     current_price := JNum (Num.ofZ (10 ^ 16));
     theme := JStr (str "neon");
     wallet_tag := JNum (Num.ofZ 7);
     timestamp_ := JBool true |}.

(** The messages of each check of [validate]. *)
Definition tickerMessages : list string :=
  ["ticker is required"; "ticker must be 20 characters or less"].
Definition entryMessages : list string :=
  ["entry_price is required"; "entry_price must be a valid number";
   "entry_price must be greater than zero"; "entry_price out of range"].
Definition currentMessages : list string :=
  ["current_price is required"; "current_price must be a valid number";
   "current_price cannot be negative"; "current_price out of range"].
Definition themeMessages : list string := ["theme must be: dark, light, degen"].
Definition tagMessages : list string := ["wallet_tag invalid"].
Definition timestampMessages : list string := ["timestamp invalid"].

(** What one check reports: nothing when the rule holds, one of its own
    messages when it does not. *)
Definition reports (ok : bool) (l messages : list string) : Prop :=
  (ok = true /\ l = []) \/ (ok = false /\ exists m, l = [m] /\ In m messages).

(** The six fields of a JSON object, read without unwrapping. *)
Definition fieldsOf (fields : list (jsstring * JsVal)) : CardRequest :=
  {| ticker := lookupField (str "ticker") fields;
     entry_price := lookupField (str "entry_price") fields;
     current_price := lookupField (str "current_price") fields;
     theme := lookupField (str "theme") fields;
     wallet_tag := lookupField (str "wallet_tag") fields;
     timestamp_ := lookupField (str "timestamp") fields |}.

(** The text of [sanitizeString] before truncation. *)
Definition cleaned (s : jsstring) : jsstring :=
  trim (filter (fun c => negb (isControlOrAngle c)) s).

(** No white space at either end. *)
Definition trimmed (s : jsstring) : Prop :=
  (forall c r, s = c :: r -> isWhiteSpace c = false) /\
  (forall c r, rev s = c :: r -> isWhiteSpace c = false).

(** A number rounded to [k] decimal places, as rule 1 of the percentage
    formatter words it: the multiple of [10^-k] nearest to the exact value
    of the double (the larger one on a tie), as a double. *)
Definition roundedToDecimals (k : nat) (x : number) : number :=
  match x with
  | S754_finite s m e =>
      let n := Num.nearestTiesUp
                 ((if s then - Num.numer m e else Num.numer m e) * 10 ^ Z.of_nat k)
                 (Num.denom e) in
      if n =? 0 then S754_zero s else Num.lit n (10 ^ Z.of_nat k)
  | _ => x
  end.

(** The sanitizers in the words of the specification.  The ticker alphabet
    is A-Z, 0-9 and the dollar sign; the text sanitizer strips the ASCII
    control characters 0x00-0x1F and 0x7F and the two angle brackets. *)
Definition tickerAlphabet : jsstring := str "ABCDEFGHIJKLMNOPQRSTUVWXYZ0123456789$".

Definition inTickerAlphabet (c : N) : bool := existsb (N.eqb c) tickerAlphabet.

Definition strippedFromText (c : N) : bool :=
  ((c <? 32) || (c =? 127) || existsb (N.eqb c) (str "<>"))%N.




(** The calls recorded by [drawCard] on a fresh canvas of the card's size. *)
Definition cardCalls (toLocaleString : number -> option nat -> string)
    (data : CardData) (theme : Theme) : list Call :=
  calls (snd (drawCard toLocaleString data theme (createCanvas CARD_WIDTH CARD_HEIGHT))).

Definition paintsPixels (c : Call) : bool :=
  match c with
  | FillRect _ _ _ _ | StrokeRect _ _ _ _ | FillText _ _ _ | Fill | Stroke => true
  | _ => false
  end.

Definition isText (c : Call) : bool :=
  match c with
  | FillText _ _ _ => true
  | _ => false
  end.

(** The painting calls, each with the opacity ([globalAlpha]) in force when
    it is made; [alpha] is the opacity at the start (1 on a new context). *)
Fixpoint paints (alpha : number) (l : list Call) : list (number * Call) :=
  match l with
  | [] => []
  | SetGlobalAlpha a :: r => paints a r
  | c :: r => if paintsPixels c then (alpha, c) :: paints alpha r else paints alpha r
  end.

(** The opacity and the shadow blur in force after the calls. *)
Fixpoint finalAlpha (alpha : number) (l : list Call) : number :=
  match l with
  | [] => alpha
  | SetGlobalAlpha a :: r => finalAlpha a r
  | _ :: r => finalAlpha alpha r
  end.

Fixpoint finalShadowBlur (blur : Z) (l : list Call) : Z :=
  match l with
  | [] => blur
  | SetShadowBlur b :: r => finalShadowBlur b r
  | _ :: r => finalShadowBlur blur r
  end.

Definition inside (x y : Z) : bool :=
  (0 <=? x) && (x <=? CARD_WIDTH) && (0 <=? y) && (y <=? CARD_HEIGHT).

(** Every point a call names (the corners of a rectangle, the anchor of a
    text, the points of a path segment) lies on the canvas, and no size is
    negative.  This is about the coordinates passed to the calls, not about
    the pixels painted: a stroke is wider than its path, a glow spreads
    beyond its shape and a text extends around its anchor. *)
Definition pointsOnCanvas (c : Call) : bool :=
  match c with
  | FillRect x y w h | StrokeRect x y w h =>
      inside x y && inside (x + w) (y + h) && (0 <=? w) && (0 <=? h)
  | FillText _ x y | MoveTo x y | LineTo x y => inside x y
  | ArcTo x1 y1 x2 y2 r => inside x1 y1 && inside x2 y2 && (0 <=? r)
  | _ => true
  end.

Definition isLight (theme : Theme) : bool :=
  match theme with light => true | _ => false end.

Definition usesShadow (c : Call) : bool :=
  match c with
  | SetShadowColor _ | SetShadowBlur _ => true
  | _ => false
  end.

Definition isStrokeRect (c : Call) : bool :=
  match c with
  | StrokeRect _ _ _ _ => true
  | _ => false
  end.

Definition isFillRect (c : Call) : bool :=
  match c with
  | FillRect _ _ _ _ => true
  | _ => false
  end.

(** The values [y0, y0 + step, ...] a counting loop goes through, and the
    number of them below [limit]. *)
Fixpoint countUp (n : nat) (y step : Z) : list Z :=
  match n with
  | O => []
  | S n' => y :: countUp n' (y + step) step
  end.

Definition rounds (y limit step : Z) : nat :=
  Z.to_nat ((limit - y + step - 1) / step).

(** The rectangles one pixel high that span the card, among painting calls
    paired with their opacity: the opacity and the row of each. *)
Fixpoint scanlines (l : list (number * Call)) : list (number * Z) :=
  match l with
  | [] => []
  | (a, FillRect 0 y w 1) :: r =>
      if w =? CARD_WIDTH then (a, y) :: scanlines r else scanlines r
  | _ :: r => scanlines r
  end.

(** A font loads when its file exists and registers without an exception. *)
Definition fontLoads (join : string -> string -> string)
    (existsSync : string -> bool) (registerFont : string -> Font -> bool)
    (dir : string) (font : Font) : bool :=
  existsSync (join dir (file font)) && registerFont (join dir (file font)) font.

(** Signs and orders of magnitude of numbers, to follow them through the
    arithmetic. *)

(** The sign bit of a number; NaN has none. *)
Definition signBit (x : number) : option bool :=
  match x with
  | S754_zero s | S754_infinity s | S754_finite s _ _ => Some s
  | S754_nan => None
  end.

(** [reaches s k x]: [x] has the sign [s] and is an infinity or a finite
    number [m * 2^e] that is not zero, of at least [k] bits above the binary
    point ([2^(k-1) <= |x|]). *)
Definition reaches (s : bool) (k : Z) (x : number) : Prop :=
  x = S754_infinity s \/
  exists m e, x = S754_finite s m e /\ k <= Zpos (digits2_pos m) + e.

(** [within k x]: [x] is a zero or a finite number [m * 2^e] with at most
    [k] bits above the binary point ([|x| < 2^k]). *)
Definition within (k : Z) (x : number) : Prop :=
  match x with
  | S754_zero _ => True
  | S754_finite _ m e => Zpos (digits2_pos m) + e <= k
  | _ => False
  end.

Module StringFacts.

Lemma length_append (a b : string) :
  String.length (a ++ b) = (String.length a + String.length b)%nat.
Proof. induction a as [|c a IH]; simpl; [reflexivity | now rewrite IH]. Qed.

Lemma append_assoc (a b c : string) : (a ++ b) ++ c = a ++ (b ++ c).
Proof. induction a as [|x a IH]; simpl; [reflexivity | now rewrite IH]. Qed.

Lemma append_nil_r (a : string) : a ++ "" = a.
Proof. induction a as [|x a IH]; simpl; [reflexivity | now rewrite IH]. Qed.

Lemma allDigits_append (a b : string) :
  allDigits (a ++ b) = allDigits a && allDigits b.
Proof.
  induction a as [|c a IH]; simpl; [reflexivity|].
  now rewrite IH, andb_assoc.
Qed.

Lemma digitChar_code (d : Z) : N_of_ascii (digitChar d) = (48 + Z.to_N (d mod 10))%N.
Proof.
  unfold digitChar. apply N_ascii_embedding.
  pose proof (Z.mod_pos_bound d 10 eq_refl). lia.
Qed.

Lemma isDigit_digitChar (d : Z) : isDigit (digitChar d) = true.
Proof.
  unfold isDigit. rewrite digitChar_code.
  pose proof (Z.mod_pos_bound d 10 eq_refl).
  apply andb_true_iff; split; apply N.leb_le; lia.
Qed.

Lemma length_fixedDigits (k : nat) : forall n, String.length (fixedDigits k n) = k.
Proof.
  induction k as [|k IH]; intro n; simpl; [reflexivity|].
  rewrite length_append, IH. simpl. lia.
Qed.

Lemma allDigits_fixedDigits (k : nat) : forall n, allDigits (fixedDigits k n) = true.
Proof.
  induction k as [|k IH]; intro n; simpl; [reflexivity|].
  rewrite allDigits_append, IH. simpl. now rewrite isDigit_digitChar.
Qed.

Lemma countDigits_pos (fuel : nat) : forall n, exists k, countDigits fuel n = S k.
Proof.
  induction fuel as [|f IH]; intro n; simpl; [now exists O|].
  destruct (n <? 10); [now exists O|]. now eexists.
Qed.

Lemma fixedDigits_S_nonempty (k : nat) (n : Z) : fixedDigits (S k) n <> "".
Proof.
  simpl. destruct (fixedDigits k (n / 10)); discriminate.
Qed.

Lemma decimal_nonempty (n : Z) : decimal n <> "".
Proof.
  unfold decimal, numDigits.
  destruct (countDigits_pos (Z.to_nat (Z.log2 n)) n) as [k ->].
  apply fixedDigits_S_nonempty.
Qed.

Lemma allDigits_decimal (n : Z) : allDigits (decimal n) = true.
Proof. apply allDigits_fixedDigits. Qed.

(** A run of digits stops at the point. *)
Lemma span_digits_point (w r : string) :
  allDigits w = true -> span isDigit (w ++ String "." r) = (w, String "." r).
Proof.
  induction w as [|c w IH]; simpl; intro H; [reflexivity|].
  apply andb_true_iff in H as [Hc Hw]. now rewrite Hc, IH.
Qed.

Lemma span_digits_end (w : string) :
  allDigits w = true -> span isDigit w = (w, "").
Proof.
  induction w as [|c w IH]; simpl; intro H; [reflexivity|].
  apply andb_true_iff in H as [Hc Hw]. now rewrite Hc, IH.
Qed.

Lemma fixedPoint_shape (f : nat) (n : Z) :
  exists whole frac,
    fixedPoint f n = whole ++ (match f with O => "" | _ => "." ++ frac end) /\
    whole <> "" /\ allDigits whole = true /\
    String.length frac = f /\ allDigits frac = true.
Proof.
  exists (decimal (n / 10 ^ Z.of_nat f)), (fixedDigits f n).
  split; [|split; [|split; [|split]]].
  - unfold fixedPoint. now destruct f.
  - apply decimal_nonempty.
  - apply allDigits_decimal.
  - apply length_fixedDigits.
  - apply allDigits_fixedDigits.
Qed.

Lemma head_not_minus (w r : string) :
  w <> "" -> allDigits w = true ->
  match w ++ r with String "-" t => t | _ => w ++ r end = w ++ r.
Proof.
  destruct w as [|c w]; [congruence|]. simpl. intros _ H.
  apply andb_true_iff in H as [Hc _].
  destruct c as [[|] [|] [|] [|] [|] [|] [|] [|]]; try reflexivity; discriminate.
Qed.

Lemma isFixedNotation_unsigned (f : nat) (n : Z) :
  isFixedNotation f (fixedPoint f n) = true.
Proof.
  destruct (fixedPoint_shape f n) as (w & fr & -> & Hne & Hw & Hlen & Hfr).
  unfold isFixedNotation. rewrite head_not_minus by assumption.
  destruct f as [|f].
  - rewrite append_nil_r, span_digits_end by assumption.
    destruct w; [congruence | reflexivity].
  - simpl. rewrite span_digits_point by assumption.
    rewrite Hlen, Nat.eqb_refl, Hfr.
    destruct w; [congruence | reflexivity].
Qed.

Lemma isFixedNotation_signed (f : nat) (n : Z) :
  isFixedNotation f ("-" ++ fixedPoint f n) = true.
Proof.
  pose proof (isFixedNotation_unsigned f n) as H.
  destruct (fixedPoint_shape f n) as (w & fr & E & Hne & Hw & _).
  unfold isFixedNotation in *. simpl.
  rewrite E in *. rewrite head_not_minus in H by assumption. exact H.
Qed.

(** Below 10^21, [toFixed f] writes an optional sign, the integer part and
    exactly [f] decimals. *)
Lemma toFixed_fixed_notation (f : nat) (x : number) :
  below1e21 x = true -> isFixedNotation f (toFixed f x) = true.
Proof.
  destruct x as [s|s| |s m e]; unfold below1e21, toFixed; intro H;
    try discriminate H.
  - apply isFixedNotation_unsigned.
  - apply negb_true_iff in H. rewrite H.
    destruct s; [apply isFixedNotation_signed | apply isFixedNotation_unsigned].
Qed.

End StringFacts.

(* ================================================================== *)
(** ** Facts about doubles *)
(* ================================================================== *)

Module NumFacts.

Ltac cmp_cases :=
  repeat match goal with
  | |- context [Z.compare ?a ?b] => destruct (Z.compare_spec a b)
  | H : context [Z.compare ?a ?b] |- _ => destruct (Z.compare_spec a b)
  | |- context [Pos.compare_cont Eq ?a ?b] =>
      change (Pos.compare_cont Eq a b) with (Pos.compare a b);
      destruct (Pos.compare_spec a b)
  | H : context [Pos.compare_cont Eq ?a ?b] |- _ =>
      change (Pos.compare_cont Eq a b) with (Pos.compare a b) in H;
      destruct (Pos.compare_spec a b)
  end.

(** Comparisons are decided by sign, then exponent, then mantissa: every
    order fact below is a case analysis on the operands. *)
Ltac float_cases :=
  unfold Num.lt, Num.le, Num.gt, Num.ge, SFltb, SFleb, SFcompare;
  intros;
  repeat match goal with
  | x : number |- _ => destruct x as [[|]|[|]| |[|] ? ?]
  | x : spec_float |- _ => destruct x as [[|]|[|]| |[|] ? ?]
  end;
  simpl in *; try discriminate; try reflexivity;
  cmp_cases; simpl in *; try discriminate; try reflexivity; try lia.

Lemma lt_not_ge (x y : number) : Num.lt x y = true -> Num.ge x y = false.
Proof. float_cases. Qed.

Lemma gt_not_le (x y : number) : Num.gt x y = true -> Num.le x y = false.
Proof. float_cases. Qed.

Lemma ge_not_lt (x y : number) : Num.ge x y = true -> Num.lt x y = false.
Proof. float_cases. Qed.

Lemma lt_le_trans (x y z : number) :
  Num.lt x y = true -> Num.le y z = true -> Num.lt x z = true.
Proof. float_cases. Qed.

Lemma le_lt_trans (x y z : number) :
  Num.le x y = true -> Num.lt y z = true -> Num.lt x z = true.
Proof. float_cases. Qed.

Lemma le_trans (x y z : number) :
  Num.le x y = true -> Num.le y z = true -> Num.le x z = true.
Proof. float_cases. Qed.

(** [x >= c] with [c] positive puts [|x|] on the same side. *)
Lemma abs_of_ge (x c : number) :
  Num.gt c Num.zero = true -> Num.ge x c = true -> Math.abs x = x.
Proof. unfold Math.abs, Num.zero. float_cases. Qed.

Lemma abs_of_gt_zero (x : number) : Num.gt x Num.zero = true -> Math.abs x = x.
Proof. unfold Math.abs, Num.zero. float_cases. Qed.

Lemma digits2_bound (m : positive) : Zpos m < 2 ^ Zpos (digits2_pos m).
Proof.
  induction m as [m IH|m IH|]; simpl digits2_pos.
  - rewrite Pos2Z.inj_succ, Z.pow_succ_r by lia. lia.
  - rewrite Pos2Z.inj_succ, Z.pow_succ_r by lia. lia.
  - reflexivity.
Qed.

(** A valid double has a mantissa of at most 53 bits and an exponent
    between -1074 and 971. *)
Lemma valid_finite (s : bool) (m : positive) (e : Z) :
  Num.valid (S754_finite s m e) = true ->
  Zpos m < 2 ^ 53 /\ -1074 <= e <= 971.
Proof.
  unfold Num.valid, valid_binary, bounded, canonical_mantissa, fexp, emin,
    Num.prec, Num.emax.
  intro H. apply andb_true_iff in H as [H1 H2].
  apply Z.eqb_eq in H1. apply Z.leb_le in H2.
  pose proof (digits2_bound m) as Hd.
  assert (Zpos (digits2_pos m) <= 53) as Hle by lia.
  split; [|lia].
  eapply Z.lt_le_trans; [exact Hd|].
  apply Z.pow_le_mono_r; lia.
Qed.

Lemma pow2_pos (e : Z) : 0 < 2 ^ Z.max e 0.
Proof. apply Z.pow_pos_nonneg; lia. Qed.

Lemma denom_pos (e : Z) : 0 < Num.denom e.
Proof. apply pow2_pos. Qed.

(** Exact magnitude bound of a valid double with a small exponent. *)
Lemma numer_bound (m : positive) (e k : Z) :
  Zpos m < 2 ^ 53 -> e <= k -> 0 <= k ->
  Num.numer m e < 2 ^ (53 + k).
Proof.
  intros Hm He Hk. unfold Num.numer.
  assert (2 ^ Z.max e 0 <= 2 ^ k) by (apply Z.pow_le_mono_r; lia).
  pose proof (pow2_pos e).
  rewrite Z.pow_add_r by lia. nia.
Qed.

Lemma below1e21_numer (s : bool) (m : positive) (e : Z) :
  Num.numer m e < 2 ^ 69 -> below1e21 (S754_finite s m e) = true.
Proof.
  intros Hn. unfold below1e21. apply negb_true_iff, Z.leb_gt.
  pose proof (denom_pos e) as Hd.
  change (2 ^ 69) with 590295810358705651712 in Hn.
  change (10 ^ 21) with 1000000000000000000000.
  revert Hn Hd. generalize (Num.numer m e) (Num.denom e). intros; lia.
Qed.

(** Comparing positive finite doubles: exponent first, then mantissa. *)
Lemma lt_finite_inv (m mc : positive) (e ec : Z) :
  Num.lt (S754_finite false m e) (S754_finite false mc ec) = true ->
  e < ec \/ (e = ec /\ Zpos m < Zpos mc).
Proof.
  unfold Num.lt, SFltb, SFcompare.
  destruct (Z.compare_spec e ec) as [He|He|He]; try discriminate; [|lia].
  change (Pos.compare_cont Eq m mc) with (Pos.compare m mc).
  destruct (Pos.compare_spec m mc); try discriminate. lia.
Qed.

Lemma le_finite_inv (m mc : positive) (e ec : Z) :
  Num.le (S754_finite false mc ec) (S754_finite false m e) = true ->
  ec < e \/ (ec = e /\ Zpos mc <= Zpos m).
Proof.
  unfold Num.le, SFleb, SFcompare.
  destruct (Z.compare_spec ec e) as [He|He|He]; try discriminate; [|lia].
  change (Pos.compare_cont Eq mc m) with (Pos.compare mc m).
  destruct (Pos.compare_spec mc m); try discriminate; lia.
Qed.

(** Whatever is below a constant that is itself at most 2^69 is below 10^21. *)
Lemma below1e21_of_lt (x c : number) :
  Num.valid x = true ->
  Num.lt (Math.abs x) c = true ->
  Num.le c two69 = true ->
  below1e21 x = true.
Proof.
  intros Hv Hlt Hc.
  pose proof (lt_le_trans _ _ _ Hlt Hc) as H. clear Hlt Hc.
  destruct x as [s|s| |s m e];
    [reflexivity | discriminate H | discriminate H |].
  apply valid_finite in Hv as [Hm He].
  apply below1e21_numer.
  apply lt_finite_inv in H as [H|[-> H]].
  - apply (numer_bound m e 16); [assumption | lia | lia].
  - unfold Num.numer. change (2 ^ Z.max 17 0) with 131072.
    change (2 ^ 69) with 590295810358705651712. clear - H. lia.
Qed.

End NumFacts.

(* ================================================================== *)
(** ** The gain calculator *)
(* ================================================================== *)

(** Splits a conjunction into its parts, leaving equivalences whole. *)
Ltac conjs := repeat match goal with |- _ /\ _ => split end.

Section CalculatorFacts.

Variable toLocaleString : number -> option nat -> string.

Lemma calculatePnL_cases (e c : number) :
  calculatePnL toLocaleString e c =
  if Num.le e Num.zero then Error "Entry price must be > 0"
  else if Num.lt c Num.zero then Error "Current price cannot be negative"
  else Result {| percentageGain := roundPrecision (rawPercentage e c);
                 isProfit := Num.ge (rawPercentage e c) Num.zero;
                 formattedGain := formatPct toLocaleString (rawPercentage e c) |}.
Proof. reflexivity. Qed.

(** C1, as the code has it: for every entry > 0 and current >= 0 the calculation
    succeeds and its numeric field is the raw percentage
    [(current - entry) / entry * 100] after [roundPrecision], not the raw
    value itself. *)
Theorem calculatePnL_percentage_rounded (e c : number) :
  Num.gt e Num.zero = true ->
  Num.ge c Num.zero = true ->
  exists r, calculatePnL toLocaleString e c = Result r /\
            percentageGain r = roundPrecision (rawPercentage e c).
Proof.
  intros He Hc. rewrite calculatePnL_cases.
  rewrite (NumFacts.gt_not_le _ _ He), (NumFacts.ge_not_lt _ _ Hc).
  eexists; split; reflexivity.
Qed.

(** C2: the entry-price error is returned exactly when [entryPrice <= 0];
    otherwise the current-price error exactly when [currentPrice < 0];
    otherwise the call succeeds and [isProfit] is [percentage >= 0] on the
    raw percentage, so that no change counts as profit. *)
Theorem calculatePnL_domain_errors (e c : number) :
  (calculatePnL toLocaleString e c = Error "Entry price must be > 0"
     <-> Num.le e Num.zero = true) /\
  (calculatePnL toLocaleString e c = Error "Current price cannot be negative"
     <-> Num.le e Num.zero = false /\ Num.lt c Num.zero = true) /\
  ((exists r, calculatePnL toLocaleString e c = Result r /\
              isProfit r = Num.ge (rawPercentage e c) Num.zero)
     <-> Num.le e Num.zero = false /\ Num.lt c Num.zero = false) /\
  (exists r, calculatePnL toLocaleString (Num.ofZ 100) (Num.ofZ 100) = Result r /\
             isProfit r = true /\ percentageGain r = Num.zero) /\
  calculatePnL toLocaleString (Num.ofZ 0) (Num.ofZ 100) = Error "Entry price must be > 0" /\
  calculatePnL toLocaleString (Num.ofZ (-1)) (Num.ofZ 100) = Error "Entry price must be > 0" /\
  calculatePnL toLocaleString (Num.ofZ 100) (Num.ofZ (-1))
    = Error "Current price cannot be negative".
Proof.
  rewrite calculatePnL_cases.
  conjs.
  - destruct (Num.le e Num.zero); [tauto|].
    destruct (Num.lt c Num.zero); split; intro H; discriminate H.
  - destruct (Num.le e Num.zero).
    + split; [intro H; discriminate H | intros [H _]; discriminate H].
    + destruct (Num.lt c Num.zero); [tauto|].
      split; [intro H; discriminate H | intros [_ H]; discriminate H].
  - destruct (Num.le e Num.zero).
    + split; [intros (r & H & _); discriminate H | intros [H _]; discriminate H].
    + destruct (Num.lt c Num.zero).
      * split; [intros (r & H & _); discriminate H | intros [_ H]; discriminate H].
      * split; [tauto|]. intros _. eexists; split; reflexivity.
  - eexists; split; [reflexivity|]. split; reflexivity.
  - reflexivity.
  - reflexivity.
  - reflexivity.
Qed.

Lemma roundPrecision_tiers (v : number) :
  (Num.ge (Math.abs v) c1000 = true -> roundPrecision v = Math.round v) /\
  (Num.ge (Math.abs v) (Num.ofZ 1) = true -> Num.lt (Math.abs v) c1000 = true ->
     roundPrecision v = Num.div (Math.round (Num.mul v c100)) c100) /\
  (Num.lt (Math.abs v) (Num.ofZ 1) = true ->
     roundPrecision v = Num.div (Math.round (Num.mul v c10000)) c10000).
Proof.
  unfold roundPrecision. cbv zeta. conjs.
  - intros ->. reflexivity.
  - intros H1 H2. rewrite (NumFacts.lt_not_ge _ _ H2), H1. reflexivity.
  - intros H.
    assert (Num.lt (Math.abs v) c1000 = true) as H2
      by (eapply NumFacts.lt_le_trans; [exact H | reflexivity]).
    rewrite (NumFacts.lt_not_ge _ _ H2), (NumFacts.lt_not_ge _ _ H). reflexivity.
Qed.

(** The display string is the raw percentage formatted by [formatPct] and
    the numeric field is the raw percentage rounded by [roundPrecision]:
    the display is not derived from the rounded number (for entry 100 and
    current 110.049 the display of the rounded field would read +10.1%, the
    card reads +10.0%). *)
Theorem gain_and_display_from_raw (e c : number) (r : PnLResult) :
  calculatePnL toLocaleString e c = Result r ->
  let raw := rawPercentage e c in
  percentageGain r = roundPrecision raw /\
  formattedGain r = formatPct toLocaleString raw /\
  (exists r', calculatePnL toLocaleString (Num.ofZ 100) (Num.lit 110049 1000) = Result r' /\
              formattedGain r' = "+10.0%" /\
              percentageGain r' = Num.lit 1005 100 /\
              formatPct toLocaleString (percentageGain r') = "+10.1%").
Proof.
  rewrite calculatePnL_cases.
  destruct (Num.le e Num.zero); [discriminate|].
  destruct (Num.lt c Num.zero); [discriminate|].
  intros [= <-]. cbv zeta. cbn [percentageGain formattedGain].
  conjs; try reflexivity.
  eexists; split; [reflexivity|]. conjs; vm_compute; reflexivity.
Qed.

(** C10: the profit flag follows the sign of the raw percentage and the
    numeric field is rounded, so the two can disagree: entry 10000000 and
    current 9999999 give [isProfit = false] with [percentageGain] equal to
    negative zero, which is [>= 0]. *)
Theorem isProfit_and_percentageGain_disagree :
  exists e c r,
    Num.valid e = true /\ Num.valid c = true /\
    Num.gt e Num.zero = true /\ Num.ge c Num.zero = true /\
    calculatePnL toLocaleString e c = Result r /\
    Num.lt (rawPercentage e c) Num.zero = true /\
    isProfit r = false /\
    percentageGain r = Num.negzero /\
    Num.ge (percentageGain r) Num.zero = true.
Proof.
  exists (Num.ofZ 10000000), (Num.ofZ 9999999). eexists.
  conjs; try reflexivity; vm_compute; reflexivity.
Qed.

End CalculatorFacts.

(** C1, counterexample: for entry 100 and current 133.333 the numeric field
    is 33.33 while the raw percentage is a different double. *)
Lemma percentage_field_is_not_raw :
  Num.gt (Num.ofZ 100) Num.zero = true /\
  Num.ge (Num.lit 133333 1000) Num.zero = true /\
  exists r, calculatePnL enUS_toLocaleString (Num.ofZ 100) (Num.lit 133333 1000) = Result r /\
            percentageGain r = Num.lit 3333 100 /\
            SFeqb (percentageGain r) (rawPercentage (Num.ofZ 100) (Num.lit 133333 1000)) = false /\
            percentageGain r <> rawPercentage (Num.ofZ 100) (Num.lit 133333 1000).
Proof.
  split; [reflexivity|]. split; [reflexivity|].
  eexists. split; [reflexivity|].
  split; [vm_compute; reflexivity|].
  split; [vm_compute; reflexivity|].
  vm_compute. discriminate.
Qed.

Lemma gain_and_display_from_raw_witness :
  let r := {| percentageGain := Num.lit 3333 100; isProfit := true;
              formattedGain := "+33.3%" |} in
  percentageGain r = roundPrecision (rawPercentage (Num.ofZ 100) (Num.lit 133333 1000)) /\
  formattedGain r
  = formatPct enUS_toLocaleString (rawPercentage (Num.ofZ 100) (Num.lit 133333 1000)).
Proof.
  cbv zeta.
  destruct (gain_and_display_from_raw enUS_toLocaleString
              (Num.ofZ 100) (Num.lit 133333 1000)
              {| percentageGain := Num.lit 3333 100; isProfit := true;
                 formattedGain := "+33.3%" |})
    as (H1 & H2 & _).
  - vm_compute. reflexivity.
  - split; [exact H1 | exact H2].
Defined.

(** C4 at entry 100 and current 105.235, a request [validate] accepts: the
    raw percentage is the double just below 5.235, which rounds to 5.23
    at 2 decimal places, and the card reads +5.23%; [roundPrecision]
    multiplies by 100 first, which rounds up to 523.5 exactly, and the
    numeric field is 5.24. *)
Theorem percentageGain_misses_two_decimals :
  let e := Num.ofZ 100 in
  let c := Num.lit 105235 1000 in
  let raw := rawPercentage e c in
  validate {| ticker := JStr (str "SOL"); entry_price := JNum e; current_price := JNum c;
              theme := JUndefined; wallet_tag := JUndefined; timestamp_ := JUndefined |}
    = []%list /\
  Num.ge (Math.abs raw) (Num.ofZ 1) = true /\ Num.lt (Math.abs raw) c1000 = true /\
  Num.lt raw (Num.lit 5235 1000) = true /\
  roundedToDecimals 2 raw = Num.lit 523 100 /\
  Num.mul raw c100 = Num.lit 5235 10 /\
  exists r, calculatePnL enUS_toLocaleString e c = Result r /\
            percentageGain r = Num.lit 524 100 /\
            formattedGain r = "+5.23%" /\
            percentageGain r <> roundedToDecimals 2 raw.
Proof.
  cbv zeta. conjs; try (vm_compute; reflexivity).
  eexists. split; [reflexivity|].
  split; [vm_compute; reflexivity|]. split; [vm_compute; reflexivity|].
  vm_compute. discriminate.
Qed.

Lemma calculatePnL_percentage_rounded_witness :
  exists r, calculatePnL enUS_toLocaleString (Num.ofZ 100) (Num.ofZ 150) = Result r /\
            percentageGain r = roundPrecision (rawPercentage (Num.ofZ 100) (Num.ofZ 150)).
Proof.
  apply (calculatePnL_percentage_rounded enUS_toLocaleString
           (Num.ofZ 100) (Num.ofZ 150)); reflexivity.
Defined.

(* ================================================================== *)
(** ** The percentage formatter *)
(* ================================================================== *)

Section FormatPctFacts.

Variable toLocaleString : number -> option nat -> string.

(** [a < c0] and [c0 <= c] give [a >= c] false. *)
Lemma under (a c0 c : number) :
  Num.lt a c0 = true -> Num.le c0 c = true -> Num.ge a c = false.
Proof.
  intros H1 H2. apply NumFacts.lt_not_ge. eapply NumFacts.lt_le_trans; eassumption.
Qed.

Lemma formatPct_M (v : number) :
  Num.ge (Math.abs v) c1000000 = true ->
  formatPct toLocaleString v =
  (if Num.ge v Num.zero then "+" else "") ++ toFixed 1 (Num.div v c1000000) ++ "M%".
Proof. unfold formatPct. cbv zeta. intros ->. reflexivity. Qed.

Lemma formatPct_K (v : number) :
  Num.ge (Math.abs v) c10000 = true -> Num.lt (Math.abs v) c1000000 = true ->
  formatPct toLocaleString v =
  (if Num.ge v Num.zero then "+" else "") ++ toFixed 1 (Num.div v c1000) ++ "K%".
Proof.
  unfold formatPct. cbv zeta. intros H1 H2.
  rewrite (under _ _ c1000000 H2 eq_refl), H1. reflexivity.
Qed.

Lemma formatPct_grouped (v : number) :
  Num.ge (Math.abs v) c1000 = true -> Num.lt (Math.abs v) c10000 = true ->
  formatPct toLocaleString v =
  (if Num.ge v Num.zero then "+" else "") ++ toLocaleString (Math.round v) None ++ "%".
Proof.
  unfold formatPct. cbv zeta. intros H1 H2.
  rewrite (under _ _ c1000000 H2 eq_refl), (under _ _ c10000 H2 eq_refl), H1.
  reflexivity.
Qed.

Lemma formatPct_1dp (v : number) :
  Num.ge (Math.abs v) (Num.ofZ 10) = true -> Num.lt (Math.abs v) c1000 = true ->
  formatPct toLocaleString v =
  (if Num.ge v Num.zero then "+" else "") ++ toFixed 1 v ++ "%".
Proof.
  unfold formatPct. cbv zeta. intros H1 H2.
  rewrite (under _ _ c1000000 H2 eq_refl), (under _ _ c10000 H2 eq_refl),
    (under _ _ c1000 H2 eq_refl), H1.
  reflexivity.
Qed.

Lemma formatPct_2dp (v : number) :
  Num.ge (Math.abs v) (Num.ofZ 1) = true -> Num.lt (Math.abs v) (Num.ofZ 10) = true ->
  formatPct toLocaleString v =
  (if Num.ge v Num.zero then "+" else "") ++ toFixed 2 v ++ "%".
Proof.
  unfold formatPct. cbv zeta. intros H1 H2.
  rewrite (under _ _ c1000000 H2 eq_refl), (under _ _ c10000 H2 eq_refl),
    (under _ _ c1000 H2 eq_refl), (under _ _ (Num.ofZ 10) H2 eq_refl), H1.
  reflexivity.
Qed.

Lemma formatPct_4dp (v : number) :
  Num.lt (Math.abs v) (Num.ofZ 1) = true ->
  formatPct toLocaleString v =
  (if Num.ge v Num.zero then "+" else "") ++ toFixed 4 v ++ "%".
Proof.
  unfold formatPct. cbv zeta. intros H2.
  rewrite (under _ _ c1000000 H2 eq_refl), (under _ _ c10000 H2 eq_refl),
    (under _ _ c1000 H2 eq_refl), (under _ _ (Num.ofZ 10) H2 eq_refl),
    (under _ _ (Num.ofZ 1) H2 eq_refl).
  reflexivity.
Qed.

Lemma formatPct_plus (v : number) :
  Num.ge v Num.zero = true -> startsWith "+" (formatPct toLocaleString v) = true.
Proof.
  unfold formatPct. cbv zeta. intros ->.
  repeat match goal with |- context [if ?b then _ else _] => destruct b end;
    reflexivity.
Qed.

Lemma negative_small_is_finite (v : number) :
  Num.lt v Num.zero = true -> Num.lt (Math.abs v) c1000 = true ->
  exists m e, v = S754_finite true m e.
Proof.
  destruct v as [s|s| |s m e]; intros H1 H2.
  - destruct s; discriminate H1.
  - destruct s; discriminate H2.
  - discriminate H1.
  - destruct s; [now exists m, e | discriminate H1].
Qed.

Lemma toFixed_negative (f : nat) (m : positive) (e : Z) :
  startsWith "-" (toFixed f (S754_finite true m e) ++ "%") = true.
Proof. reflexivity. Qed.

Lemma formatPct_minus (v : number) :
  Num.lt v Num.zero = true -> Num.lt (Math.abs v) c1000 = true ->
  startsWith "-" (formatPct toLocaleString v) = true.
Proof.
  intros H1 H2.
  destruct (negative_small_is_finite v H1 H2) as (m & e & ->).
  unfold formatPct. cbv zeta.
  rewrite (NumFacts.lt_not_ge _ _ H1).
  rewrite (under _ _ c1000000 H2 eq_refl), (under _ _ c10000 H2 eq_refl),
    (under _ _ c1000 H2 eq_refl).
  repeat match goal with |- context [if ?b then _ else _] => destruct b end;
    apply toFixed_negative.
Qed.

(** The display string is the sign prefix followed by the
    tier's rendering of the raw value.  [toFixed] gives the stated number of
    decimals for every number below 10^21 in magnitude, which covers the
    tiers below 1000; the M tier prints [v / 1000000] with [toFixed(1)], in
    exponent notation once that quotient reaches 10^21.  A value [>= 0]
    starts with [+]; a negative value below 1000 in magnitude starts with
    [-]. *)
Theorem formatPct_display_tiers (v : number) :
  let a := Math.abs v in
  let sign := if Num.ge v Num.zero then "+" else "" in
  (Num.ge a c1000000 = true ->
     formatPct toLocaleString v = sign ++ toFixed 1 (Num.div v c1000000) ++ "M%") /\
  (Num.ge a c10000 = true -> Num.lt a c1000000 = true ->
     formatPct toLocaleString v = sign ++ toFixed 1 (Num.div v c1000) ++ "K%") /\
  (Num.ge a c1000 = true -> Num.lt a c10000 = true ->
     formatPct toLocaleString v = sign ++ toLocaleString (Math.round v) None ++ "%") /\
  (Num.ge a (Num.ofZ 10) = true -> Num.lt a c1000 = true ->
     formatPct toLocaleString v = sign ++ toFixed 1 v ++ "%") /\
  (Num.ge a (Num.ofZ 1) = true -> Num.lt a (Num.ofZ 10) = true ->
     formatPct toLocaleString v = sign ++ toFixed 2 v ++ "%") /\
  (Num.lt a (Num.ofZ 1) = true ->
     formatPct toLocaleString v = sign ++ toFixed 4 v ++ "%") /\
  (forall f q, below1e21 q = true -> isFixedNotation f (toFixed f q) = true) /\
  (Num.valid v = true -> Num.lt a c1000 = true -> below1e21 v = true) /\
  (Num.ge v Num.zero = true -> startsWith "+" (formatPct toLocaleString v) = true) /\
  (Num.lt v Num.zero = true -> Num.lt a c1000 = true ->
     startsWith "-" (formatPct toLocaleString v) = true) /\
  formatPct toLocaleString (Num.ofZ 50) = "+50.0%" /\
  formatPct toLocaleString (Num.ofZ (-50)) = "-50.0%" /\
  formatPct toLocaleString (Num.ofZ 999900) = "+999.9K%" /\
  formatPct toLocaleString (Num.lit 5 10) = "+0.5000%".
Proof.
  cbv zeta. conjs.
  - apply formatPct_M.
  - apply formatPct_K.
  - apply formatPct_grouped.
  - apply formatPct_1dp.
  - apply formatPct_2dp.
  - apply formatPct_4dp.
  - intros f q. apply StringFacts.toFixed_fixed_notation.
  - intros Hv Hlt. eapply NumFacts.below1e21_of_lt; [exact Hv | exact Hlt | reflexivity].
  - apply formatPct_plus.
  - apply formatPct_minus.
  - vm_compute; reflexivity.
  - vm_compute; reflexivity.
  - vm_compute; reflexivity.
  - vm_compute; reflexivity.
Qed.

End FormatPctFacts.

(* ================================================================== *)
(** ** The token price formatter *)
(* ================================================================== *)

Module RegexFacts.

Lemma digit_not_point (c : ascii) : isDigit c = true -> (c =? ".")%char = false.
Proof.
  intro H. apply Ascii.eqb_neq. intros ->. discriminate H.
Qed.

Lemma allDigits_no_point (s : string) : allDigits s = true -> hasPoint s = false.
Proof.
  induction s as [|c s IH]; simpl; [reflexivity|].
  intro H. apply andb_true_iff in H as [Hc Hs].
  now rewrite (digit_not_point c Hc), IH.
Qed.

Lemma matchHere_needs_point (c0 c1 : ascii) (rest : string) :
  (c1 =? ".")%char = false -> matchHere (String c0 (String c1 rest)) = None.
Proof. unfold matchHere. intros ->. now rewrite andb_false_r. Qed.

(** Without a point there is nothing to match. *)
Lemma regexMatch_no_point (s : string) : hasPoint s = false -> regexMatch s = None.
Proof.
  induction s as [|c0 s IH]; [reflexivity|].
  intro H. simpl in H. apply orb_false_iff in H as [_ H].
  specialize (IH H).
  destruct s as [|c1 s'].
  - reflexivity.
  - simpl in H. apply orb_false_iff in H as [H1 _].
    change (regexMatch (String c0 (String c1 s')))
      with (match matchHere (String c0 (String c1 s')) with
            | Some r => Some r
            | None => regexMatch (String c1 s')
            end).
    now rewrite (matchHere_needs_point _ _ _ H1).
Qed.

(** What [span isZeroDigit] returns: the run of zeros and what follows it. *)
Lemma span_zeros (ds : string) :
  exists k r, span isZeroDigit ds = (repeatChar "0" k, r) /\
              ds = repeatChar "0" k ++ r /\
              match r with
              | String c _ => isZeroDigit c = false
              | "" => True
              end.
Proof.
  induction ds as [|c ds (k & r & E & D & F)].
  - exists O, "". now repeat split.
  - simpl. destruct (isZeroDigit c) eqn:Hc.
    + rewrite E. exists (S k), r.
      assert (c = "0"%char) as ->.
      { unfold isZeroDigit in Hc. apply N.eqb_eq in Hc.
        rewrite <- (ascii_N_embedding c), Hc. reflexivity. }
      repeat split; [simpl; now rewrite <- D | exact F].
    + exists O, (String c ds). now repeat split.
Qed.

Lemma nonzero_digit (c : ascii) :
  isDigit c = true -> isZeroDigit c = false -> isNonZeroDigit c = true.
Proof.
  unfold isDigit, isZeroDigit, isNonZeroDigit.
  intros H1 H2. apply andb_true_iff in H1 as [H1 H3].
  apply N.leb_le in H1, H3. apply N.eqb_neq in H2.
  apply andb_true_iff; split; apply N.leb_le; lia.
Qed.

Lemma takeUpTo_digits (n : nat) : forall r,
  allDigits r = true -> takeUpTo n isDigit r = substring 0 n r.
Proof.
  induction n as [|n IH]; intros [|c r] H; try reflexivity.
  simpl in H. apply andb_true_iff in H as [Hc Hr].
  simpl. now rewrite Hc, IH.
Qed.

(** The outcome of the regular expression on ["0." ++ ds] for a digit
    string [ds]: the run of zeros and the first four digits from the first
    non-zero one, or no match when every digit is zero. *)
Lemma regexMatch_decimal (ds : string) :
  allDigits ds = true ->
  (exists k d rest,
      ds = repeatChar "0" k ++ String d rest /\ isNonZeroDigit d = true /\
      regexMatch ("0." ++ ds) = Some (repeatChar "0" k, substring 0 4 (String d rest)))
  \/ (ds = repeatChar "0" (String.length ds) /\ regexMatch ("0." ++ ds) = None).
Proof.
  intro Hd.
  destruct (span_zeros ds) as (k & r & E & D & F).
  change (regexMatch ("0." ++ ds))
    with (match matchHere (String "0" (String "." ds)) with
          | Some x => Some x
          | None => regexMatch (String "." ds)
          end).
  unfold matchHere. cbn [Ascii.eqb Bool.eqb andb]. rewrite E.
  destruct r as [|c r'].
  - right. rewrite StringFacts.append_nil_r in D. split.
    + rewrite D at 1. f_equal. rewrite D. clear. induction k; simpl; congruence.
    + destruct ds as [|c ds']; [reflexivity|].
      change (regexMatch (String "." (String c ds')))
        with (match matchHere (String "." (String c ds')) with
              | Some x => Some x
              | None => regexMatch (String c ds')
              end).
      unfold matchHere. cbn [Ascii.eqb Bool.eqb andb].
      apply regexMatch_no_point, allDigits_no_point, Hd.
  - left. exists k, c, r'.
    assert (allDigits (String c r') = true) as Hr.
    { rewrite D, StringFacts.allDigits_append in Hd.
      now apply andb_true_iff in Hd as [_ Hd]. }
    simpl in Hr. apply andb_true_iff in Hr as [Hc Hr].
    rewrite (nonzero_digit c Hc F).
    split; [exact D|]. split; [reflexivity|].
    rewrite (takeUpTo_digits 3 r' Hr). reflexivity.
Qed.

Lemma length_repeatChar (c : ascii) (k : nat) : String.length (repeatChar c k) = k.
Proof. induction k; simpl; congruence. Qed.

End RegexFacts.

Section TokenPriceFacts.

Variable toLocaleString : number -> option nat -> string.

Lemma compactLimit_is_literal : Num.lit 1 100000 = compactLimit.
Proof. reflexivity. Qed.

Lemma positive_is_finite (x : number) :
  Num.gt x Num.zero = true -> Num.lt x compactLimit = true ->
  exists m e, x = S754_finite false m e.
Proof.
  destruct x as [s|s| |s m e]; intros H1 H2.
  - destruct s; discriminate H1.
  - destruct s; [discriminate H1 | discriminate H2].
  - discriminate H1.
  - destruct s; [discriminate H1 | now exists m, e].
Qed.

(** Below 0.00001, [toFixed(20)] starts with ["0."] and has twenty digits. *)
Lemma toFixed20_small (m : positive) (e : Z) :
  Num.valid (S754_finite false m e) = true ->
  Num.lt (S754_finite false m e) compactLimit = true ->
  toFixed 20 (S754_finite false m e) =
  "0." ++ fixedDigits 20 (Num.nearestTiesUp (Num.numer m e * 10 ^ 20) (Num.denom e)).
Proof.
  intros Hv Hlt.
  apply NumFacts.valid_finite in Hv as [Hm _].
  assert (e <= -69) as He by (apply NumFacts.lt_finite_inv in Hlt; lia).
  clear Hlt.
  assert (Num.numer m e = Zpos m) as En.
  { unfold Num.numer. rewrite Z.max_r by lia. change (2 ^ 0) with 1. lia. }
  assert (2 ^ 69 <= Num.denom e) as Hd.
  { unfold Num.denom. apply Z.pow_le_mono_r; lia. }
  unfold toFixed.
  assert ((10 ^ 21 * Num.denom e <=? Num.numer m e) = false) as ->.
  { apply negb_true_iff. apply (NumFacts.below1e21_numer false).
    rewrite En. eapply Z.lt_trans; [exact Hm | reflexivity]. }
  unfold fixedPoint. change (Z.of_nat 20) with 20.
  set (n := Num.nearestTiesUp (Num.numer m e * 10 ^ 20) (Num.denom e)).
  assert (n / 10 ^ 20 = 0) as ->.
  { apply Z.div_small. subst n. unfold Num.nearestTiesUp. rewrite En.
    change (2 ^ 53) with 9007199254740992 in Hm.
    change (2 ^ 69) with 590295810358705651712 in Hd.
    change (10 ^ 20) with 100000000000000000000.
    revert Hd. generalize (Num.denom e). intros d Hd.
    split.
    - apply Z.div_pos; lia.
    - apply Z.div_lt_upper_bound; lia. }
  reflexivity.
Qed.

Lemma toExponential2_shape (m : positive) (e : Z) :
  exists d frac ex,
    toExponential 2 (S754_finite false m e) = d ++ "." ++ frac ++ "e" ++ ex /\
    String.length d = 1%nat /\ String.length frac = 2%nat /\
    allDigits d = true /\ allDigits frac = true.
Proof.
  unfold toExponential.
  match goal with
  | |- context [let '(n, ex) := ?c in _] => destruct c as [n ex]
  end.
  exists (fixedDigits 1 (n / 10 ^ Z.of_nat 2)), (fixedDigits 2 n), (signedExponent ex).
  split; [|split; [|split; [|split]]].
  - cbn [append]. now rewrite !StringFacts.append_assoc.
  - apply StringFacts.length_fixedDigits.
  - apply StringFacts.length_fixedDigits.
  - apply StringFacts.allDigits_fixedDigits.
  - apply StringFacts.allDigits_fixedDigits.
Qed.

Lemma positive_not_le_zero (price c : number) :
  Num.le c Num.zero = false -> Num.ge price c = true -> Num.le price Num.zero = false.
Proof.
  intros Hc Hge. destruct (Num.le price Num.zero) eqn:E; [|reflexivity].
  rewrite <- Hc. symmetry. eapply NumFacts.le_trans; eassumption.
Qed.

Lemma not_compact (price c : number) :
  Num.le compactLimit c = true -> Num.ge price c = true ->
  Num.lt price (Num.lit 1 100000) = false.
Proof.
  intros Hc Hge. rewrite compactLimit_is_literal.
  apply NumFacts.ge_not_lt. eapply NumFacts.le_trans; eassumption.
Qed.

Lemma formatTokenPrice_plain (price c : number) :
  Num.le c Num.zero = false -> Num.le compactLimit c = true ->
  Num.ge price c = true ->
  formatTokenPrice toLocaleString price = plainTiers toLocaleString price.
Proof.
  intros H0 H1 H2. unfold formatTokenPrice.
  rewrite (positive_not_le_zero _ _ H0 H2), (not_compact _ _ H1 H2). reflexivity.
Qed.

Lemma formatTokenPrice_compact (price : number) :
  Num.valid price = true ->
  Num.gt price Num.zero = true -> Num.lt price (Num.lit 1 100000) = true ->
  exists ds,
    toFixed 20 price = "0." ++ ds /\ String.length ds = 20%nat /\ allDigits ds = true /\
    ((exists k d rest,
         ds = repeatChar "0" k ++ String d rest /\ isNonZeroDigit d = true /\
         formatTokenPrice toLocaleString price =
         "$0.0{" ++ decimal (Z.of_nat k) ++ "}" ++ substring 0 4 (String d rest))
     \/ (ds = repeatChar "0" 20 /\
         formatTokenPrice toLocaleString price = "$" ++ toExponential 2 price)).
Proof.
  intros Hv Hpos Hlt.
  pose proof Hlt as Hlt'. rewrite compactLimit_is_literal in Hlt'.
  destruct (positive_is_finite price Hpos Hlt') as (m & e & ->).
  pose proof (toFixed20_small m e Hv Hlt') as E.
  set (ds := fixedDigits 20 _) in E.
  assert (String.length ds = 20%nat) as Hlen by apply StringFacts.length_fixedDigits.
  assert (allDigits ds = true) as Hds by apply StringFacts.allDigits_fixedDigits.
  exists ds. split; [exact E|]. split; [exact Hlen|]. split; [exact Hds|].
  unfold formatTokenPrice.
  rewrite (NumFacts.gt_not_le _ _ Hpos), Hlt, E.
  destruct (RegexFacts.regexMatch_decimal ds Hds)
    as [(k & d & rest & D & Hd & R) | [D R]]; rewrite R.
  - left. exists k, d, rest. split; [exact D|]. split; [exact Hd|].
    now rewrite RegexFacts.length_repeatChar.
  - right. rewrite Hlen in D. split; [exact D|].
    rewrite (under _ _ c1000000 Hlt' eq_refl), (under _ _ c1000 Hlt' eq_refl),
      (under _ _ (Num.ofZ 1) Hlt' eq_refl), (under _ _ (Num.lit 1 100) Hlt' eq_refl),
      (under _ _ (Num.lit 1 100000) Hlt' eq_refl).
    reflexivity.
Qed.

End TokenPriceFacts.

Section TokenPriceTiers.

Variable toLocaleString : number -> option nat -> string.

Lemma fixed_in_tier (f : nat) (price lo hi : number) :
  Num.valid price = true ->
  Num.gt lo Num.zero = true -> Num.le hi two69 = true ->
  Num.ge price lo = true -> Num.lt price hi = true ->
  isFixedNotation f (toFixed f price) = true.
Proof.
  intros Hv Hlo Hhi H1 H2.
  apply StringFacts.toFixed_fixed_notation.
  apply (NumFacts.below1e21_of_lt price hi Hv); [|exact Hhi].
  now rewrite (NumFacts.abs_of_ge price lo Hlo H1).
Qed.

(** The tiers of [formatTokenPrice], first match first.
    From 1,000,000 up the price over 1,000,000 is printed by [toFixed(2)]
    with the suffix M, which has two decimals as long as that quotient is
    below 10^21. *)
Theorem formatTokenPrice_tiers (price : number) :
  Num.valid price = true ->
  (Num.le price Num.zero = true -> formatTokenPrice toLocaleString price = "$0") /\
  (Num.gt price Num.zero = true -> Num.lt price (Num.lit 1 100000) = true ->
     exists ds,
       toFixed 20 price = "0." ++ ds /\ String.length ds = 20%nat /\ allDigits ds = true /\
       ((exists k d rest,
            ds = repeatChar "0" k ++ String d rest /\ isNonZeroDigit d = true /\
            formatTokenPrice toLocaleString price =
            "$0.0{" ++ decimal (Z.of_nat k) ++ "}" ++ substring 0 4 (String d rest))
        \/ (ds = repeatChar "0" 20 /\
            formatTokenPrice toLocaleString price = "$" ++ toExponential 2 price /\
            exists d frac ex,
              toExponential 2 price = d ++ "." ++ frac ++ "e" ++ ex /\
              String.length d = 1%nat /\ String.length frac = 2%nat /\
              allDigits d = true /\ allDigits frac = true))) /\
  (Num.ge price c1000000 = true ->
     formatTokenPrice toLocaleString price
     = "$" ++ toFixed 2 (Num.div price c1000000) ++ "M" /\
     (below1e21 (Num.div price c1000000) = true ->
      isFixedNotation 2 (toFixed 2 (Num.div price c1000000)) = true)) /\
  (Num.ge price c1000 = true -> Num.lt price c1000000 = true ->
     formatTokenPrice toLocaleString price = "$" ++ toLocaleString price (Some 2%nat)) /\
  (Num.ge price (Num.ofZ 1) = true -> Num.lt price c1000 = true ->
     formatTokenPrice toLocaleString price = "$" ++ toFixed 2 price /\
     isFixedNotation 2 (toFixed 2 price) = true) /\
  (Num.ge price (Num.lit 1 100) = true -> Num.lt price (Num.ofZ 1) = true ->
     formatTokenPrice toLocaleString price = "$" ++ toFixed 4 price /\
     isFixedNotation 4 (toFixed 4 price) = true) /\
  (Num.ge price (Num.lit 1 100000) = true -> Num.lt price (Num.lit 1 100) = true ->
     formatTokenPrice toLocaleString price = "$" ++ toFixed 6 price /\
     isFixedNotation 6 (toFixed 6 price) = true) /\
  formatTokenPrice toLocaleString (Num.ofZ 0) = "$0" /\
  formatTokenPrice toLocaleString (Num.ofZ (-5)) = "$0" /\
  formatTokenPrice toLocaleString (Num.ofZ 100) = "$100.00" /\
  formatTokenPrice toLocaleString (Num.lit 24 10000000) = "$0.0{5}2400" /\
  formatTokenPrice toLocaleString (Num.ofZ 1000000) = "$1.00M".
Proof.
  intro Hv. conjs.
  - unfold formatTokenPrice. intros ->. reflexivity.
  - intros Hpos Hlt.
    destruct (formatTokenPrice_compact toLocaleString price Hv Hpos Hlt)
      as (ds & E & Hlen & Hds & [C | [D F]]).
    + exists ds. conjs; try assumption. now left.
    + exists ds. conjs; try assumption. right. conjs; try assumption.
      rewrite compactLimit_is_literal in Hlt.
      destruct (positive_is_finite price Hpos Hlt) as (m & e & ->).
      apply toExponential2_shape.
  - intros H. split.
    + rewrite (formatTokenPrice_plain toLocaleString price c1000000 eq_refl eq_refl H).
      unfold plainTiers. now rewrite H.
    + apply StringFacts.toFixed_fixed_notation.
  - intros H1 H2.
    rewrite (formatTokenPrice_plain toLocaleString price c1000 eq_refl eq_refl H1).
    unfold plainTiers. now rewrite (NumFacts.lt_not_ge _ _ H2), H1.
  - intros H1 H2. split.
    + rewrite (formatTokenPrice_plain toLocaleString price (Num.ofZ 1) eq_refl eq_refl H1).
      unfold plainTiers.
      now rewrite (under _ _ c1000000 H2 eq_refl), (NumFacts.lt_not_ge _ _ H2), H1.
    + apply (fixed_in_tier 2 price (Num.ofZ 1) c1000); auto.
  - intros H1 H2. split.
    + rewrite (formatTokenPrice_plain toLocaleString price (Num.lit 1 100) eq_refl eq_refl H1).
      unfold plainTiers.
      now rewrite (under _ _ c1000000 H2 eq_refl), (under _ _ c1000 H2 eq_refl),
        (NumFacts.lt_not_ge _ _ H2), H1.
    + apply (fixed_in_tier 4 price (Num.lit 1 100) (Num.ofZ 1)); auto.
  - intros H1 H2. split.
    + rewrite (formatTokenPrice_plain toLocaleString price (Num.lit 1 100000) eq_refl eq_refl H1).
      unfold plainTiers.
      now rewrite (under _ _ c1000000 H2 eq_refl), (under _ _ c1000 H2 eq_refl),
        (under _ _ (Num.ofZ 1) H2 eq_refl), (NumFacts.lt_not_ge _ _ H2), H1.
    + apply (fixed_in_tier 6 price (Num.lit 1 100000) (Num.lit 1 100)); auto.
  - reflexivity.
  - reflexivity.
  - vm_compute; reflexivity.
  - vm_compute; reflexivity.
  - vm_compute; reflexivity.
Qed.

End TokenPriceTiers.

Lemma formatTokenPrice_tiers_witness :
  formatTokenPrice enUS_toLocaleString (Num.ofZ 100) = "$" ++ toFixed 2 (Num.ofZ 100) /\
  isFixedNotation 2 (toFixed 2 (Num.ofZ 100)) = true.
Proof.
  apply (formatTokenPrice_tiers enUS_toLocaleString (Num.ofZ 100) eq_refl); reflexivity.
Defined.


(** C3 at the request with entry 1e-20 and current 1e15, which passes
    validation: its raw percentage, 10^37, is in the tier "1,000,000 and
    up", where the value over 1,000,000 is printed by [toFixed(1)]; the
    quotient is beyond 10^21, from which [toFixed] answers in exponent
    notation, and the display has no decimal. *)
Lemma formatPct_huge_has_no_decimal :
  let e := Num.lit 1 (10 ^ 20) in
  let c := Num.ofZ (10 ^ 15) in
  validate {| ticker := JStr (str "PEPE"); entry_price := JNum e; current_price := JNum c;
              theme := JUndefined; wallet_tag := JUndefined; timestamp_ := JUndefined |} = []%list /\
  Num.ge (Math.abs (rawPercentage e c)) c1000000 = true /\
  (exists r, calculatePnL enUS_toLocaleString e c = Result r /\
             formattedGain r = "+1e+31M%") /\
  formatPct enUS_toLocaleString (rawPercentage e c) = "+1e+31M%" /\
  hasPoint (formatPct enUS_toLocaleString (rawPercentage e c)) = false /\
  isFixedNotation 1 (toFixed 1 (Num.div (rawPercentage e c) c1000000)) = false.
Proof.
  cbv zeta. conjs; try (vm_compute; reflexivity).
  exists {| percentageGain := roundPrecision (rawPercentage (Num.lit 1 (10 ^ 20)) (Num.ofZ (10 ^ 15)));
            isProfit := true; formattedGain := "+1e+31M%" |}.
  split; vm_compute; reflexivity.
Qed.

(* ================================================================== *)
(** ** The sanitizers *)
(* ================================================================== *)

Module SanitizeFacts.

Lemma Forall_firstn {A} (P : A -> Prop) (n : nat) (l : list A) :
  Forall P l -> Forall P (firstn n l).
Proof.
  intro H. revert n. induction H as [|x l Hx Hl IH]; intros [|n]; simpl;
    constructor; auto.
Qed.

Lemma Forall_filter {A} (p : A -> bool) (l : list A) :
  Forall (fun x => p x = true) (filter p l).
Proof.
  induction l as [|x l IH]; simpl; [constructor|].
  destruct (p x) eqn:E; [constructor|]; assumption.
Qed.

Lemma Forall_filter_keeps {A} (P : A -> Prop) (p : A -> bool) (l : list A) :
  Forall P l -> Forall P (filter p l).
Proof.
  induction 1 as [|x l Hx Hl IH]; simpl; [constructor|].
  destruct (p x); [constructor|]; assumption.
Qed.

Lemma Forall_dropWhile {A} (P : A -> Prop) (p : A -> bool) (l : list A) :
  Forall P l -> Forall P (dropWhile p l).
Proof.
  induction 1 as [|x l Hx Hl IH]; simpl; [constructor|].
  destruct (p x); [assumption | now constructor].
Qed.

Lemma Forall_trim (P : N -> Prop) (s : jsstring) : Forall P s -> Forall P (trim s).
Proof.
  intro H. unfold trim.
  apply Forall_rev, Forall_dropWhile, Forall_rev, Forall_dropWhile, H.
Qed.

Lemma dropWhile_head {A} (p : A -> bool) (l : list A) (x : A) (r : list A) :
  dropWhile p l = x :: r -> p x = false.
Proof.
  induction l as [|y l IH]; simpl; [discriminate|].
  destruct (p y) eqn:E; [exact IH|]. now intros [= <- _].
Qed.

(** Dropping from the end of a list keeps its head. *)
Lemma dropWhile_rev_head {A} (p : A -> bool) (x : A) (l : list A) :
  p x = false -> exists r, rev (dropWhile p (rev (x :: l))) = x :: r.
Proof.
  intro Hx.
  assert (forall a : list A,
             exists a', dropWhile p (a ++ [x])%list = (a' ++ [x])%list) as G.
  { induction a as [|y a IH]; simpl.
    - rewrite Hx. now exists [].
    - destruct (p y); [exact IH | now exists (y :: a)]. }
  destruct (G (rev l)) as [a' E].
  exists (rev a'). simpl rev at 2. rewrite E, rev_app_distr. reflexivity.
Qed.

(** A trimmed string does not start with white space. *)
Lemma trim_head (s : jsstring) (c : N) (r : jsstring) :
  trim s = c :: r -> isWhiteSpace c = false.
Proof.
  unfold trim. destruct (dropWhile isWhiteSpace s) as [|x l] eqn:E.
  - discriminate.
  - pose proof (dropWhile_head _ _ _ _ E) as Hx.
    destruct (dropWhile_rev_head isWhiteSpace x l Hx) as [r' ->].
    now intros [= <- _].
Qed.

Lemma upperCodeUnit_ascii (c : N) : (c < 128)%N -> upperCodeUnit c = [asciiUpper c].
Proof.
  intro H. unfold upperCodeUnit, asciiUpper.
  destruct ((97 <=? c) && (c <=? 122))%N; [reflexivity|].
  assert (lookupUpper c specialUpper = None) as ->; [|reflexivity].
  unfold specialUpper, lookupUpper.
  repeat match goal with
  | |- context [(c =? ?k)%N] =>
      let E := fresh in destruct (N.eqb_spec c k) as [E|E]; [exfalso; lia | clear E]
  end.
  reflexivity.
Qed.

Lemma toUpperCase_ascii (s : jsstring) :
  Forall (fun c => (c < 128)%N) s -> toUpperCase s = map asciiUpper s.
Proof.
  induction 1 as [|c s Hc Hs IH]; [reflexivity|].
  unfold toUpperCase in *. simpl. now rewrite (upperCodeUnit_ascii c Hc), IH.
Qed.

(** A code unit that is neither in [[A-Za-z0-9$]] nor special leaves nothing
    after case folding and filtering. *)
Lemma upperCodeUnit_stripped (c : N) :
  isAlnumDollar c = false -> hasSpecialUpper c = false ->
  filter isTickerChar (upperCodeUnit c) = [].
Proof.
  intros H1 H2. unfold upperCodeUnit.
  assert (((97 <=? c) && (c <=? 122))%N = false) as ->.
  { unfold isAlnumDollar in H1.
    destruct ((97 <=? c) && (c <=? 122))%N; [|reflexivity].
    now rewrite orb_true_r in H1. }
  assert (lookupUpper c specialUpper = None) as ->.
  { revert H2. unfold hasSpecialUpper.
    induction specialUpper as [|[k v] t IH]; [reflexivity|].
    simpl. destruct (c =? k)%N; [discriminate | exact IH]. }
  simpl. unfold isTickerChar, isAlnumDollar in *.
  destruct ((65 <=? c) && (c <=? 90))%N; [discriminate|].
  destruct ((97 <=? c) && (c <=? 122))%N; [discriminate|].
  destruct ((48 <=? c) && (c <=? 57))%N; [discriminate|].
  destruct (c =? 36)%N; [discriminate | reflexivity].
Qed.

Lemma sanitizeTicker_stripped (t : jsstring) :
  Forall (fun c => isAlnumDollar c = false /\ hasSpecialUpper c = false) t ->
  sanitizeTicker (JStr t) = [].
Proof.
  intro H. unfold sanitizeTicker, slice0, toUpperCase.
  assert (filter isTickerChar (flat_map upperCodeUnit t) = []) as ->; [|reflexivity].
  induction H as [|c t [H1 H2] Ht IH]; [reflexivity|].
  simpl. now rewrite filter_app, (upperCodeUnit_stripped c H1 H2), IH.
Qed.

End SanitizeFacts.


(* ================================================================== *)
(** ** Validation *)
(* ================================================================== *)

Module ValidateFacts.

(** Each statement of [validate] appends what it would report on an empty
    array: earlier errors neither hide nor change later ones. *)
Ltac field_cases :=
  repeat match goal with
  | |- context [if ?b then _ else _] => destruct b
  end.

Lemma ticker_appends b e : validateTicker b e = (e ++ validateTicker b [])%list.
Proof. unfold validateTicker, push. field_cases; now rewrite ?app_nil_r. Qed.

Lemma entry_appends b e : validateEntryPrice b e = (e ++ validateEntryPrice b [])%list.
Proof. unfold validateEntryPrice, push. field_cases; now rewrite ?app_nil_r. Qed.

Lemma current_appends b e : validateCurrentPrice b e = (e ++ validateCurrentPrice b [])%list.
Proof. unfold validateCurrentPrice, push. field_cases; now rewrite ?app_nil_r. Qed.

Lemma theme_appends b e : validateTheme b e = (e ++ validateTheme b [])%list.
Proof. unfold validateTheme, push. field_cases; now rewrite ?app_nil_r. Qed.

Lemma tag_appends b e : validateWalletTag b e = (e ++ validateWalletTag b [])%list.
Proof. unfold validateWalletTag, push. field_cases; now rewrite ?app_nil_r. Qed.

Lemma timestamp_appends b e : validateTimestamp b e = (e ++ validateTimestamp b [])%list.
Proof. unfold validateTimestamp, push. field_cases; now rewrite ?app_nil_r. Qed.

Lemma validate_concat (b : CardRequest) :
  validate b =
  (validateTicker b [] ++ validateEntryPrice b [] ++ validateCurrentPrice b []
   ++ validateTheme b [] ++ validateWalletTag b [] ++ validateTimestamp b [])%list.
Proof.
  unfold validate. cbv zeta.
  rewrite timestamp_appends, tag_appends, theme_appends, current_appends, entry_appends.
  now rewrite <- !app_assoc.
Qed.

Lemma one_or_none (l : list string) :
  (List.length l <= 1)%nat ->
  List.length l = match l with [] => 0%nat | _ => 1%nat end.
Proof. destruct l as [|x [|y l]]; simpl; intros; lia. Qed.

Lemma at_most_one (b : CardRequest) :
  (List.length (validateTicker b []) <= 1)%nat /\
  (List.length (validateEntryPrice b []) <= 1)%nat /\
  (List.length (validateCurrentPrice b []) <= 1)%nat /\
  (List.length (validateTheme b []) <= 1)%nat /\
  (List.length (validateWalletTag b []) <= 1)%nat /\
  (List.length (validateTimestamp b []) <= 1)%nat.
Proof.
  unfold validateTicker, validateEntryPrice, validateCurrentPrice, validateTheme,
    validateWalletTag, validateTimestamp, push.
  conjs; field_cases; simpl; lia.
Qed.

Lemma blank_false (v : JsVal) :
  blank v = false -> exists t, v = JStr t /\ trim t <> [].
Proof.
  unfold blank.
  destruct v as [| | | |t|]; cbn [notString]; rewrite ?orb_true_r; try discriminate.
  intro H. apply orb_false_iff in H as [_ H].
  exists t. split; [reflexivity|].
  destruct (trim t); [discriminate H | discriminate].
Qed.

Lemma not_blank (t : jsstring) : trim t <> [] -> blank (JStr t) = false.
Proof.
  intro H. unfold blank. cbn [notString].
  destruct t as [|c t]; [now elim H|].
  destruct (trim (c :: t)); [now elim H | reflexivity].
Qed.

(** A request with no error has a non-blank ticker of at most 20 code
    units and finite prices in range. *)
Lemma validate_nil (b : CardRequest) :
  validate b = [] ->
  (exists t, ticker b = JStr t /\ trim t <> [] /\ (List.length t <= 20)%nat) /\
  (exists x, entry_price b = JNum x /\ Num.isFinite x = true /\
             Num.le x Num.zero = false /\
             Num.lt x MIN_PRICE = false /\ Num.gt x MAX_PRICE = false) /\
  (exists y, current_price b = JNum y /\ Num.isFinite y = true /\
             Num.lt y Num.zero = false /\ Num.gt y MAX_PRICE = false).
Proof.
  rewrite validate_concat. intro H.
  apply app_eq_nil in H as [Ht H]. apply app_eq_nil in H as [He H].
  apply app_eq_nil in H as [Hc _].
  conjs.
  - revert Ht. unfold validateTicker, push.
    destruct (blank (ticker b)) eqn:Hb; [discriminate|].
    destruct (blank_false _ Hb) as (t & -> & Ht).
    unfold longerThan.
    destruct (Nat.ltb_spec 20 (List.length t)); [discriminate|].
    intros _. exists t. repeat split; [exact Ht | lia].
  - revert He. unfold validateEntryPrice, push, notFiniteNumber.
    destruct (entry_price b) as [| | |x| |]; cbn [isNullish numberOf]; try discriminate.
    destruct (Num.isFinite x) eqn:E0; [|discriminate]. cbn [negb].
    destruct (Num.le x Num.zero) eqn:E1; [discriminate|].
    destruct (Num.lt x MIN_PRICE) eqn:E2; [discriminate|].
    destruct (Num.gt x MAX_PRICE) eqn:E3; [discriminate|].
    intros _. exists x. now repeat split.
  - revert Hc. unfold validateCurrentPrice, push, notFiniteNumber.
    destruct (current_price b) as [| | |y| |]; cbn [isNullish numberOf]; try discriminate.
    destruct (Num.isFinite y) eqn:E0; [|discriminate]. cbn [negb].
    destruct (Num.lt y Num.zero) eqn:E1; [discriminate|].
    destruct (Num.gt y MAX_PRICE) eqn:E2; [discriminate|].
    intros _. exists y. now repeat split.
Qed.

End ValidateFacts.


Module MessageFacts.

(** The messages of the five checks after the ticker's. *)
Definition laterMessages : list string :=
  [ "entry_price is required"; "entry_price must be a valid number";
    "entry_price must be greater than zero"; "entry_price out of range";
    "current_price is required"; "current_price must be a valid number";
    "current_price cannot be negative"; "current_price out of range";
    "theme must be: dark, light, degen"; "wallet_tag invalid"; "timestamp invalid" ].

Ltac pick :=
  simpl; intros ? [<-|[]]; unfold laterMessages; simpl; tauto.

Lemma later_fields (b : CardRequest) (m : string) :
  In m (validateEntryPrice b [] ++ validateCurrentPrice b [] ++ validateTheme b []
        ++ validateWalletTag b [] ++ validateTimestamp b [])%list ->
  In m laterMessages.
Proof.
  intro H.
  repeat (apply in_app_or in H as [H|H]); revert m H;
    unfold validateEntryPrice, validateCurrentPrice, validateTheme,
      validateWalletTag, validateTimestamp, push;
    ValidateFacts.field_cases; try pick; simpl; intros ? [].
Qed.

End MessageFacts.

Section HandlerFacts.

Variable toLocaleString : number -> option nat -> string.
Variable toBuffer : list string -> Canvas -> Buffer.

(** A request that passes validation is rendered: the gain calculation
    cannot fail on it, and the response carries the sanitized ticker. *)
Lemma generateCard_success (now : jsstring) (reqBody : JsVal) (b : CardRequest) (w : World) :
  extractBody reqBody = Some b ->
  validate b = [] ->
  exists image meta w',
    generateCard toLocaleString toBuffer now reqBody w = (Success image meta, w') /\
    meta_ticker meta = sanitizeTicker (ticker b) /\
    meta_theme meta = themeOf (theme b).
Proof.
  intros Hb Hv. unfold generateCard. rewrite Hb, Hv.
  destruct (ValidateFacts.validate_nil b Hv)
    as (_ & (x & -> & _ & Hx & _) & (y & -> & _ & Hy & _)).
  cbn [numberOf]. rewrite calculatePnL_cases, Hx, Hy.
  destruct (renderCard _ _ _ _ _) as [buffer w'] eqn:R.
  do 3 eexists. split; [reflexivity|]. split; reflexivity.
Qed.

(** C9, as the code has it: a ticker that is not blank, has at most 20 code units
    and holds no character that survives case folding and filtering (none in
    [[A-Za-z0-9$]] and none whose upper-case form contains ASCII letters) is
    accepted by [validate]; the request goes on with an empty token
    symbol. *)
Theorem stripped_ticker_is_accepted
    (now : jsstring) (reqBody : JsVal) (b : CardRequest) (t : jsstring) (w : World) :
  extractBody reqBody = Some b ->
  ticker b = JStr t ->
  trim t <> [] ->
  (List.length t <= 20)%nat ->
  Forall (fun c => isAlnumDollar c = false /\ hasSpecialUpper c = false) t ->
  validateTicker b [] = [] /\
  (forall m, In m (validate b) ->
     m <> "ticker is required" /\ m <> "ticker must be 20 characters or less") /\
  sanitizeTicker (ticker b) = [] /\
  (validate b = [] ->
   exists image meta w',
     generateCard toLocaleString toBuffer now reqBody w = (Success image meta, w') /\
     meta_ticker meta = []).
Proof.
  intros Hb Ht Hne Hlen Hall.
  assert (validateTicker b [] = []) as Hvt.
  { unfold validateTicker. rewrite Ht, (ValidateFacts.not_blank t Hne).
    unfold longerThan. destruct (Nat.ltb_spec 20 (List.length t)); [lia | reflexivity]. }
  assert (sanitizeTicker (ticker b) = []) as Hs
    by (rewrite Ht; now apply SanitizeFacts.sanitizeTicker_stripped).
  conjs.
  - exact Hvt.
  - intros m Hm. rewrite ValidateFacts.validate_concat, Hvt in Hm.
    apply MessageFacts.later_fields in Hm.
    unfold MessageFacts.laterMessages in Hm. simpl in Hm.
    split; intros ->; repeat (destruct Hm as [Hm|Hm]; [discriminate Hm|]); exact Hm.
  - exact Hs.
  - intro Hv.
    destruct (generateCard_success now reqBody b w Hb Hv) as (image & meta & w' & E & Hm & _).
    exists image, meta, w'. split; [exact E|]. now rewrite Hm.
Qed.

End HandlerFacts.

(** C9, counterexample: the ticker made of the single character U+00DF is
    not blank, is one code unit long and has no character in
    [[A-Za-z0-9$]]; the request is accepted and its token symbol is "SS". *)
Lemma sharp_s_ticker_is_not_emptied :
  let t := [223%N] in
  trim t <> [] /\ (List.length t <= 20)%nat /\
  Forall (fun c => isAlnumDollar c = false) t /\
  (exists b, extractBody (requestOf t (Num.ofZ 100) (Num.ofZ 150)) = Some b /\
             ticker b = JStr t /\ validate b = []) /\
  sanitizeTicker (JStr t) = str "SS" /\
  exists image meta w',
    generateCard enUS_toLocaleString blankBackend [] (requestOf t (Num.ofZ 100) (Num.ofZ 150))
      freshWorld = (Success image meta, w') /\
    meta_ticker meta = str "SS".
Proof.
  cbv zeta. conjs.
  - discriminate.
  - simpl; lia.
  - repeat constructor.
  - eexists. split; [reflexivity|]. split; reflexivity.
  - reflexivity.
  - do 3 eexists. split; [vm_compute; reflexivity | reflexivity].
Qed.

Lemma stripped_ticker_is_accepted_witness :
  validateTicker {| ticker := JStr (str "!!!"); entry_price := JNum (Num.ofZ 100);
                    current_price := JNum (Num.ofZ 150); theme := JUndefined;
                    wallet_tag := JUndefined; timestamp_ := JUndefined |} [] = [] /\
  sanitizeTicker (JStr (str "!!!")) = [] /\
  exists image meta w',
    generateCard enUS_toLocaleString blankBackend []
      (requestOf (str "!!!") (Num.ofZ 100) (Num.ofZ 150)) freshWorld
    = (Success image meta, w') /\
    meta_ticker meta = [].
Proof.
  destruct (stripped_ticker_is_accepted enUS_toLocaleString blankBackend []
              (requestOf (str "!!!") (Num.ofZ 100) (Num.ofZ 150))
              {| ticker := JStr (str "!!!"); entry_price := JNum (Num.ofZ 100);
                 current_price := JNum (Num.ofZ 150); theme := JUndefined;
                 wallet_tag := JUndefined; timestamp_ := JUndefined |}
              (str "!!!") freshWorld)
    as (H1 & _ & H3 & H4).
  - reflexivity.
  - reflexivity.
  - discriminate.
  - simpl; lia.
  - repeat constructor.
  - split; [exact H1|]. split; [exact H3|]. apply H4. reflexivity.
Defined.

(* ================================================================== *)
(** ** Card composition *)
(* ================================================================== *)

Module DrawFacts.

Lemma keeps_ret {A} (a : A) : keepsSize (ret a).
Proof. intro c. now split. Qed.

Lemma keeps_ctx (call : Call) : keepsSize (ctx call).
Proof. intro c. now split. Qed.

Lemma keeps_bind {A B} (m : Draw A) (k : A -> Draw B) :
  keepsSize m -> (forall a, keepsSize (k a)) -> keepsSize (bind m k).
Proof.
  intros Hm Hk c. unfold bind.
  destruct (m c) as [a c'] eqn:E.
  destruct (Hm c) as [W H]. rewrite E in W, H. simpl in W, H.
  destruct (Hk a c') as [W' H']. rewrite W', H'. now split.
Qed.

Lemma keeps_when (b : bool) (m : Draw unit) : keepsSize m -> keepsSize (when b m).
Proof. destruct b; [trivial | intros _; apply keeps_ret]. Qed.

Lemma keeps_forLoop (fuel : nat) (limit step : Z) (body : Z -> Draw unit) :
  (forall y, keepsSize (body y)) -> forall y, keepsSize (forLoop fuel y limit step body).
Proof.
  intro Hb. induction fuel as [|f IH]; intro y; simpl; [apply keeps_ret|].
  destruct (y <? limit); [|apply keeps_ret].
  apply keeps_bind; [apply Hb | intros _; apply IH].
Qed.

Lemma keeps_forEach {A} (l : list A) (body : A -> Draw unit) :
  (forall a, keepsSize (body a)) -> keepsSize (forEach l body).
Proof.
  intro Hb. induction l as [|a l IH]; simpl; [apply keeps_ret|].
  apply keeps_bind; [apply Hb | intros _; exact IH].
Qed.

Lemma keeps_roundedRect (x y w h r : Z) : keepsSize (roundedRect x y w h r).
Proof.
  unfold roundedRect.
  repeat (apply keeps_bind; [apply keeps_ctx | intros _]). apply keeps_ctx.
Qed.

Ltac keeps :=
  repeat match goal with
  | |- keepsSize (ctx _) => apply keeps_ctx
  | |- keepsSize (ret _) => apply keeps_ret
  | |- keepsSize (roundedRect _ _ _ _ _) => apply keeps_roundedRect
  | |- keepsSize (when _ _) => apply keeps_when
  | |- keepsSize (forLoop _ _ _ _ _) => apply keeps_forLoop; intros
  | |- keepsSize (forEach _ _) => apply keeps_forEach; intros
  | |- keepsSize (bind _ _) => apply keeps_bind; [|intros]
  | |- keepsSize (match ?x with _ => _ end) => destruct x
  | |- keepsSize (let '(_, _) := ?x in _) => destruct x
  end.

Lemma keeps_drawDegenEffects : keepsSize drawDegenEffects.
Proof. unfold drawDegenEffects. keeps. Qed.


End DrawFacts.

Section RenderFacts.

Variable toLocaleString : number -> option nat -> string.
Variable toBuffer : list string -> Canvas -> Buffer.

Lemma renderCard_buffer (data : CardData) (theme : Theme) (w : World) :
  renderCard toLocaleString toBuffer data theme w =
  (toBuffer (fonts w) (snd (drawCard toLocaleString data theme
                              (createCanvas CARD_WIDTH CARD_HEIGHT))),
   {| fonts := fonts w; allocated := S (allocated w) |}).
Proof.
  unfold renderCard.
  now destruct (drawCard toLocaleString data theme (createCanvas CARD_WIDTH CARD_HEIGHT)).
Qed.

End RenderFacts.

Section ComposerFacts.

Variable toLocaleString : number -> option nat -> string.
Variable toBuffer : list string -> Canvas -> Buffer.




End ComposerFacts.


(* ================================================================== *)
(** ** Further properties: request handling *)
(* ================================================================== *)

Module OrderFacts.

(** On numbers other than NaN the order is total. *)
Lemma not_lt_iff_ge (x y : number) :
  x <> S754_nan -> y <> S754_nan ->
  (Num.lt x y = false <-> Num.ge x y = true).
Proof.
  unfold Num.lt, Num.ge, Num.le, SFltb, SFleb, SFcompare.
  intros Hx Hy.
  destruct x as [[|]|[|]| |[|] m e], y as [[|]|[|]| |[|] m' e'];
    try (now elim Hx); try (now elim Hy); clear Hx Hy;
    try (split; intro; (reflexivity || discriminate)).
  - rewrite (Z.compare_antisym e e').
    destruct (e ?= e'); simpl; try (split; intro; (reflexivity || discriminate)).
    change (Pos.compare_cont Eq m' m) with (Pos.compare m' m).
    change (Pos.compare_cont Eq m m') with (Pos.compare m m').
    rewrite (Pos.compare_antisym m m').
    destruct (m ?= m')%positive; simpl; split; intro; (reflexivity || discriminate).
  - rewrite (Z.compare_antisym e e').
    destruct (e ?= e'); simpl; try (split; intro; (reflexivity || discriminate)).
    change (Pos.compare_cont Eq m' m) with (Pos.compare m' m).
    change (Pos.compare_cont Eq m m') with (Pos.compare m m').
    rewrite (Pos.compare_antisym m m').
    destruct (m ?= m')%positive; simpl; split; intro; (reflexivity || discriminate).
Qed.

Lemma not_le_iff_gt (x y : number) :
  x <> S754_nan -> y <> S754_nan ->
  (Num.le x y = false <-> Num.gt x y = true).
Proof.
  intros Hx Hy. unfold Num.gt.
  destruct (not_lt_iff_ge y x Hy Hx) as [A B].
  unfold Num.ge, Num.le, Num.lt in *.
  revert A B. destruct (SFleb x y), (SFltb y x); intros A B; split; intro H;
    try reflexivity; try discriminate H;
    try discriminate (A eq_refl); discriminate (B eq_refl).
Qed.

Lemma finite_not_nan (x : number) : Num.isFinite x = true -> x <> S754_nan.
Proof. now destruct x. Qed.

Lemma MIN_PRICE_not_nan : MIN_PRICE <> S754_nan.
Proof. vm_compute. discriminate. Qed.

Lemma MAX_PRICE_not_nan : MAX_PRICE <> S754_nan.
Proof. vm_compute. discriminate. Qed.

Lemma zero_not_nan : Num.zero <> S754_nan.
Proof. discriminate. Qed.

End OrderFacts.

Module AcceptFacts.

Lemma ticker_iff (b : CardRequest) : validateTicker b [] = [] <-> tickerOk (ticker b).
Proof.
  unfold validateTicker, push, tickerOk. split.
  - destruct (blank (ticker b)) eqn:Hb; [discriminate|].
    destruct (ValidateFacts.blank_false _ Hb) as (t & -> & Ht).
    unfold longerThan. destruct (Nat.ltb_spec 20 (List.length t)); [discriminate|].
    intros _. exists t. repeat split; [exact Ht | lia].
  - intros (t & -> & Ht & Hl). rewrite (ValidateFacts.not_blank t Ht).
    unfold longerThan. destruct (Nat.ltb_spec 20 (List.length t)); [lia | reflexivity].
Qed.

Lemma entry_iff (b : CardRequest) :
  validateEntryPrice b [] = [] <-> entryPriceOk (entry_price b).
Proof.
  unfold validateEntryPrice, push, entryPriceOk, notFiniteNumber. split.
  - destruct (entry_price b) as [| | |x| |]; cbn [isNullish numberOf]; try discriminate.
    destruct (Num.isFinite x) eqn:E0; [|discriminate]. cbn [negb].
    pose proof (OrderFacts.finite_not_nan x E0) as Hx.
    destruct (Num.le x Num.zero) eqn:E1; [discriminate|].
    destruct (Num.lt x MIN_PRICE) eqn:E2; [discriminate|].
    destruct (Num.gt x MAX_PRICE) eqn:E3; [discriminate|].
    intros _. exists x. split; [reflexivity|]. split; [exact E0|].
    split; [exact (proj1 (OrderFacts.not_le_iff_gt x Num.zero Hx OrderFacts.zero_not_nan) E1)|].
    split; [exact (proj1 (OrderFacts.not_lt_iff_ge x MIN_PRICE Hx OrderFacts.MIN_PRICE_not_nan) E2)|].
    exact (proj1 (OrderFacts.not_lt_iff_ge MAX_PRICE x OrderFacts.MAX_PRICE_not_nan Hx) E3).
  - intros (x & -> & E0 & E1 & E2 & E3). cbn [isNullish numberOf]. rewrite E0. cbn [negb].
    rewrite (NumFacts.gt_not_le _ _ E1), (NumFacts.ge_not_lt _ _ E2).
    change (Num.gt x MAX_PRICE) with (Num.lt MAX_PRICE x).
    rewrite (NumFacts.ge_not_lt MAX_PRICE x E3). reflexivity.
Qed.

Lemma current_iff (b : CardRequest) :
  validateCurrentPrice b [] = [] <-> currentPriceOk (current_price b).
Proof.
  unfold validateCurrentPrice, push, currentPriceOk, notFiniteNumber. split.
  - destruct (current_price b) as [| | |y| |]; cbn [isNullish numberOf]; try discriminate.
    destruct (Num.isFinite y) eqn:E0; [|discriminate]. cbn [negb].
    pose proof (OrderFacts.finite_not_nan y E0) as Hy.
    destruct (Num.lt y Num.zero) eqn:E1; [discriminate|].
    destruct (Num.gt y MAX_PRICE) eqn:E2; [discriminate|].
    intros _. exists y. split; [reflexivity|]. split; [exact E0|].
    split; [exact (proj1 (OrderFacts.not_lt_iff_ge y Num.zero Hy OrderFacts.zero_not_nan) E1)|].
    exact (proj1 (OrderFacts.not_lt_iff_ge MAX_PRICE y OrderFacts.MAX_PRICE_not_nan Hy) E2).
  - intros (y & -> & E0 & E1 & E2). cbn [isNullish numberOf]. rewrite E0. cbn [negb].
    rewrite (NumFacts.ge_not_lt _ _ E1).
    change (Num.gt y MAX_PRICE) with (Num.lt MAX_PRICE y).
    rewrite (NumFacts.ge_not_lt MAX_PRICE y E2). reflexivity.
Qed.

Lemma jsstring_eqb_eq (a b : jsstring) : jsstring_eqb a b = true <-> a = b.
Proof. unfold jsstring_eqb. destruct (list_eq_dec N.eq_dec a b); split; congruence. Qed.

Lemma theme_iff (b : CardRequest) : validateTheme b [] = [] <-> themeOk (theme b).
Proof.
  unfold validateTheme, push, themeOk, includesTheme, THEMES. split.
  - destruct (theme b) as [| | | |s|]; cbn [isNullish negb andb existsb orb];
      try discriminate; try tauto.
    destruct (jsstring_eqb s (str "dark")) eqn:E1;
      [apply jsstring_eqb_eq in E1; subst; tauto|].
    destruct (jsstring_eqb s (str "light")) eqn:E2;
      [apply jsstring_eqb_eq in E2; subst; tauto|].
    destruct (jsstring_eqb s (str "degen")) eqn:E3;
      [apply jsstring_eqb_eq in E3; subst; tauto|].
    discriminate.
  - intros [->|[->|[->|[->| ->]]]]; reflexivity.
Qed.

Lemma optional_iff (limit : nat) (v : JsVal) :
  (if negb (isNullish v) && (notString v || longerThan v limit)
   then push [] "x" else []) = [] <-> optionalTextOk limit v.
Proof.
  unfold optionalTextOk, push. split.
  - destruct v as [| | | |s|]; cbn [isNullish negb andb notString orb longerThan];
      try discriminate; try tauto.
    destruct (Nat.ltb_spec limit (List.length s)); [discriminate|].
    intros _. right. right. exists s. split; [reflexivity | lia].
  - intros [->|[->|(s & -> & H)]]; try reflexivity.
    cbn [isNullish negb andb notString orb longerThan].
    destruct (Nat.ltb_spec limit (List.length s)); [lia | reflexivity].
Qed.

Lemma tag_iff (b : CardRequest) :
  validateWalletTag b [] = [] <-> optionalTextOk 50 (wallet_tag b).
Proof.
  rewrite <- optional_iff. unfold validateWalletTag, push.
  destruct (negb _ && _); split; intro H; try reflexivity; discriminate H.
Qed.

Lemma timestamp_iff (b : CardRequest) :
  validateTimestamp b [] = [] <-> optionalTextOk 100 (timestamp_ b).
Proof.
  rewrite <- optional_iff. unfold validateTimestamp, push.
  destruct (negb _ && _); split; intro H; try reflexivity; discriminate H.
Qed.

Lemma accepted_fields (b : CardRequest) :
  validate b = [] ->
  tickerOk (ticker b) /\ entryPriceOk (entry_price b) /\
  currentPriceOk (current_price b) /\ themeOk (theme b) /\
  optionalTextOk 50 (wallet_tag b) /\ optionalTextOk 100 (timestamp_ b).
Proof.
  rewrite ValidateFacts.validate_concat.
  rewrite <- ticker_iff, <- entry_iff, <- current_iff,
    <- theme_iff, <- tag_iff, <- timestamp_iff.
  intro H. repeat (apply app_eq_nil in H as [? H]). now repeat split.
Qed.

End AcceptFacts.

Module ReportFacts.

Lemma gt_negb_le (x y : number) :
  x <> S754_nan -> y <> S754_nan -> Num.gt x y = negb (Num.le x y).
Proof.
  intros Hx Hy. destruct (OrderFacts.not_le_iff_gt x y Hx Hy) as [A B].
  destruct (Num.le x y), (Num.gt x y); try reflexivity;
    [discriminate (B eq_refl) | discriminate (A eq_refl)].
Qed.

Lemma ge_negb_lt (x y : number) :
  x <> S754_nan -> y <> S754_nan -> Num.ge x y = negb (Num.lt x y).
Proof.
  intros Hx Hy. destruct (OrderFacts.not_lt_iff_ge x y Hx Hy) as [A B].
  destruct (Num.lt x y), (Num.ge x y); try reflexivity;
    [discriminate (B eq_refl) | discriminate (A eq_refl)].
Qed.

Lemma le_negb_gt (x y : number) :
  x <> S754_nan -> y <> S754_nan -> Num.le x y = negb (Num.gt x y).
Proof. intros Hx Hy. rewrite (gt_negb_le x y Hx Hy). now destruct (Num.le x y). Qed.

Ltac reported := right; split; [reflexivity|]; eexists; split; [reflexivity|]; simpl; tauto.

Lemma ticker_reports (b : CardRequest) :
  (tickerRule (ticker b) = true /\ validateTicker b [] = []) \/
  (tickerRule (ticker b) = false /\
   exists m, validateTicker b [] = [m] /\
     In m ["ticker is required"; "ticker must be 20 characters or less"]).
Proof.
  unfold validateTicker, push, tickerRule.
  destruct (blank (ticker b)) eqn:Hb.
  - right. split; [|eexists; split; [reflexivity|]; simpl; tauto].
    destruct (ticker b) as [| | | |t|]; try reflexivity.
    destruct (trim t) as [|c r] eqn:Et; [reflexivity|].
    rewrite ValidateFacts.not_blank in Hb; [discriminate Hb|].
    rewrite Et. discriminate.
  - destruct (ValidateFacts.blank_false _ Hb) as (t & -> & Ht).
    cbn [longerThan]. destruct (trim t) as [|c r]; [now elim Ht|].
    destruct (Nat.ltb_spec 20 (List.length t)) as [H|H].
    + right. split; [apply Nat.leb_gt; exact H|].
      eexists; split; [reflexivity|]; simpl; tauto.
    + left. split; [apply Nat.leb_le; exact H | reflexivity].
Qed.

Lemma entry_reports (b : CardRequest) :
  (entryPriceRule (entry_price b) = true /\ validateEntryPrice b [] = []) \/
  (entryPriceRule (entry_price b) = false /\
   exists m, validateEntryPrice b [] = [m] /\
     In m ["entry_price is required"; "entry_price must be a valid number";
           "entry_price must be greater than zero"; "entry_price out of range"]).
Proof.
  unfold validateEntryPrice, push, entryPriceRule, notFiniteNumber.
  destruct (entry_price b) as [| | |x| |]; cbn [isNullish numberOf]; try reported.
  destruct (Num.isFinite x) eqn:Fx; cbn [negb andb]; [|reported].
  pose proof (OrderFacts.finite_not_nan x Fx) as Hx.
  rewrite (gt_negb_le x Num.zero Hx OrderFacts.zero_not_nan),
    (ge_negb_lt x MIN_PRICE Hx OrderFacts.MIN_PRICE_not_nan),
    (le_negb_gt x MAX_PRICE Hx OrderFacts.MAX_PRICE_not_nan).
  destruct (Num.le x Num.zero); cbn [negb andb]; [reported|].
  destruct (Num.lt x MIN_PRICE); cbn [negb andb orb]; [reported|].
  destruct (Num.gt x MAX_PRICE); cbn [negb]; [reported|].
  left. split; reflexivity.
Qed.

Lemma current_reports (b : CardRequest) :
  (currentPriceRule (current_price b) = true /\ validateCurrentPrice b [] = []) \/
  (currentPriceRule (current_price b) = false /\
   exists m, validateCurrentPrice b [] = [m] /\
     In m ["current_price is required"; "current_price must be a valid number";
           "current_price cannot be negative"; "current_price out of range"]).
Proof.
  unfold validateCurrentPrice, push, currentPriceRule, notFiniteNumber.
  destruct (current_price b) as [| | |y| |]; cbn [isNullish numberOf]; try reported.
  destruct (Num.isFinite y) eqn:Fy; cbn [negb andb]; [|reported].
  pose proof (OrderFacts.finite_not_nan y Fy) as Hy.
  rewrite (ge_negb_lt y Num.zero Hy OrderFacts.zero_not_nan),
    (le_negb_gt y MAX_PRICE Hy OrderFacts.MAX_PRICE_not_nan).
  destruct (Num.lt y Num.zero); cbn [negb andb]; [reported|].
  destruct (Num.gt y MAX_PRICE); cbn [negb]; [reported|].
  left. split; reflexivity.
Qed.

Lemma theme_reports (b : CardRequest) :
  (themeRule (theme b) = true /\ validateTheme b [] = []) \/
  (themeRule (theme b) = false /\
   exists m, validateTheme b [] = [m] /\ In m ["theme must be: dark, light, degen"]).
Proof.
  unfold validateTheme, push, themeRule, includesTheme, THEMES.
  destruct (theme b) as [| | | |s|]; cbn [isNullish negb andb existsb];
    try reported; try (left; split; reflexivity).
  rewrite orb_false_r, orb_assoc.
  destruct (jsstring_eqb s (str "dark") || jsstring_eqb s (str "light")
            || jsstring_eqb s (str "degen")); cbn [negb];
    [left; split; reflexivity | reported].
Qed.

Lemma optional_reports (limit : nat) (v : JsVal) (message : string) :
  let reported := if negb (isNullish v) && (notString v || longerThan v limit)
                  then push [] message else [] in
  (optionalTextRule limit v = true /\ reported = []) \/
  (optionalTextRule limit v = false /\ reported = [message]).
Proof.
  unfold optionalTextRule, push.
  destruct v as [| | | |s|]; cbn [isNullish negb andb notString orb longerThan];
    try (right; split; reflexivity); try (left; split; reflexivity).
  destruct (Nat.ltb_spec limit (List.length s)) as [H|H].
  - right. split; [apply Nat.leb_gt; exact H | reflexivity].
  - left. split; [apply Nat.leb_le; exact H | reflexivity].
Qed.


Lemma reports_length (ok : bool) (l messages : list string) :
  reports ok l messages -> List.length l = if ok then 0%nat else 1%nat.
Proof. intros [[-> ->]|(-> & m & -> & _)]; reflexivity. Qed.

Lemma reports_own (ok : bool) (l messages : list string) :
  reports ok l messages -> (ok = false <-> exists m, In m l /\ In m messages).
Proof.
  intros [[-> ->]|(-> & m & -> & Hm)]; split; intro H; try discriminate H.
  - destruct H as (m & [] & _).
  - exists m. split; [now left | exact Hm].
  - reflexivity.
Qed.

Lemma reports_foreign (ok : bool) (l messages : list string) (m : string) :
  reports ok l messages -> In m l -> In m messages.
Proof.
  intros [[_ ->]|(_ & x & -> & Hx)] H; [destruct H|].
  destruct H as [<-|[]]. exact Hx.
Qed.

Lemma all_reports (b : CardRequest) :
  reports (tickerRule (ticker b)) (validateTicker b []) tickerMessages /\
  reports (entryPriceRule (entry_price b)) (validateEntryPrice b []) entryMessages /\
  reports (currentPriceRule (current_price b)) (validateCurrentPrice b []) currentMessages /\
  reports (themeRule (theme b)) (validateTheme b []) themeMessages /\
  reports (optionalTextRule 50 (wallet_tag b)) (validateWalletTag b []) tagMessages /\
  reports (optionalTextRule 100 (timestamp_ b)) (validateTimestamp b []) timestampMessages.
Proof.
  conjs.
  - apply ticker_reports.
  - apply entry_reports.
  - apply current_reports.
  - apply theme_reports.
  - destruct (optional_reports 50 (wallet_tag b) "wallet_tag invalid") as [H|[H1 H2]];
      [left; exact H | right; split; [exact H1|]].
    exists "wallet_tag invalid". split; [exact H2 | now left].
  - destruct (optional_reports 100 (timestamp_ b) "timestamp invalid") as [H|[H1 H2]];
      [left; exact H | right; split; [exact H1|]].
    exists "timestamp invalid". split; [exact H2 | now left].
Qed.

(** Where a message of [validate] comes from. *)
Lemma in_validate (b : CardRequest) (m : string) :
  In m (validate b) <->
  In m (validateTicker b []) \/ In m (validateEntryPrice b []) \/
  In m (validateCurrentPrice b []) \/ In m (validateTheme b []) \/
  In m (validateWalletTag b []) \/ In m (validateTimestamp b []).
Proof. rewrite ValidateFacts.validate_concat, !in_app_iff. tauto. Qed.

(** The message of a field is reported by the check of that field only. *)
Ltac elsewhere :=
  match goal with
  | R : reports _ ?l _, H : In _ ?l |- _ =>
      apply (reports_foreign _ _ _ _ R) in H; simpl in H;
      repeat (destruct H as [H|H]; [discriminate H|]); destruct H
  end.

Lemma message_field (b : CardRequest) (m : string) :
  In m (validate b) ->
  (In m tickerMessages -> In m (validateTicker b [])) /\
  (In m entryMessages -> In m (validateEntryPrice b [])) /\
  (In m currentMessages -> In m (validateCurrentPrice b [])) /\
  (In m themeMessages -> In m (validateTheme b [])) /\
  (In m tagMessages -> In m (validateWalletTag b [])) /\
  (In m timestampMessages -> In m (validateTimestamp b [])).
Proof.
  intro H. apply in_validate in H.
  destruct (all_reports b) as (R1 & R2 & R3 & R4 & R5 & R6).
  conjs; intro Hm; simpl in Hm;
    repeat (destruct Hm as [<-|Hm]); try (destruct Hm);
    destruct H as [H|[H|[H|[H|[H|H]]]]]; try exact H; exfalso;
    clear - H R1 R2 R3 R4 R5 R6;
    first [ apply (reports_foreign _ _ _ _ R1) in H
          | apply (reports_foreign _ _ _ _ R2) in H
          | apply (reports_foreign _ _ _ _ R3) in H
          | apply (reports_foreign _ _ _ _ R4) in H
          | apply (reports_foreign _ _ _ _ R5) in H
          | apply (reports_foreign _ _ _ _ R6) in H ];
    simpl in H; repeat (destruct H as [H|H]; [discriminate H|]); destruct H.
Qed.

(** The rules as booleans are the rules as propositions. *)
Lemma tickerRule_iff (v : JsVal) : tickerRule v = true <-> tickerOk v.
Proof.
  unfold tickerRule, tickerOk. split.
  - destruct v as [| | | |t|]; try discriminate.
    destruct (trim t) as [|c r] eqn:E; [discriminate|].
    intro H. exists t. rewrite E. split; [reflexivity|]. split; [discriminate|].
    now apply Nat.leb_le.
  - intros (t & -> & Ht & Hl). destruct (trim t); [now elim Ht|]. now apply Nat.leb_le.
Qed.

Lemma entryPriceRule_iff (v : JsVal) : entryPriceRule v = true <-> entryPriceOk v.
Proof.
  unfold entryPriceRule, entryPriceOk. split.
  - destruct v as [| | |x| |]; try discriminate.
    rewrite !andb_true_iff. intros [[[A B] C] D]. exists x. repeat split; assumption.
  - intros (x & -> & A & B & C & D). rewrite A, B, C, D. reflexivity.
Qed.

Lemma currentPriceRule_iff (v : JsVal) : currentPriceRule v = true <-> currentPriceOk v.
Proof.
  unfold currentPriceRule, currentPriceOk. split.
  - destruct v as [| | |x| |]; try discriminate.
    rewrite !andb_true_iff. intros [[A B] C]. exists x. repeat split; assumption.
  - intros (x & -> & A & B & C). rewrite A, B, C. reflexivity.
Qed.

Lemma themeRule_iff (v : JsVal) : themeRule v = true <-> themeOk v.
Proof.
  unfold themeRule, themeOk. split.
  - destruct v as [| | | |s|]; try discriminate; try tauto.
    rewrite !orb_true_iff, !AcceptFacts.jsstring_eqb_eq.
    intros [[-> | ->] | ->]; tauto.
  - intros [-> | [-> | [-> | [-> | ->]]]]; reflexivity.
Qed.

Lemma optionalTextRule_iff (limit : nat) (v : JsVal) :
  optionalTextRule limit v = true <-> optionalTextOk limit v.
Proof.
  unfold optionalTextRule, optionalTextOk. split.
  - destruct v as [| | | |s|]; try discriminate; try tauto.
    intro H. right. right. exists s. split; [reflexivity | now apply Nat.leb_le].
  - intros [-> | [-> | (s & -> & H)]]; try reflexivity. now apply Nat.leb_le.
Qed.

End ReportFacts.

(** C6: [validate] collects the errors of all fields: it reports one
    message for each field that breaks its rule and none for the others,
    whatever the other fields are, so that the number of messages is the
    number of failing fields; each message is one of the failing field's
    own.  A request with every field missing gets the three "required"
    messages; a request with six faulty fields gets six messages. *)
Theorem validate_collects_all_errors (b : CardRequest) :
  List.length (validate b) = failingFields b /\
  (tickerRule (ticker b) = false <->
     exists m, In m (validate b) /\ In m tickerMessages) /\
  (entryPriceRule (entry_price b) = false <->
     exists m, In m (validate b) /\ In m entryMessages) /\
  (currentPriceRule (current_price b) = false <->
     exists m, In m (validate b) /\ In m currentMessages) /\
  (themeRule (theme b) = false <-> In "theme must be: dark, light, degen" (validate b)) /\
  (optionalTextRule 50 (wallet_tag b) = false <-> In "wallet_tag invalid" (validate b)) /\
  (optionalTextRule 100 (timestamp_ b) = false <-> In "timestamp invalid" (validate b)) /\
  (isNullish (ticker b) = true -> In "ticker is required" (validate b)) /\
  (isNullish (entry_price b) = true -> In "entry_price is required" (validate b)) /\
  (isNullish (current_price b) = true -> In "current_price is required" (validate b)) /\
  validate emptyRequest
    = ["ticker is required"; "entry_price is required"; "current_price is required"] /\
  validate allWrong
    = ["ticker must be 20 characters or less"; "entry_price must be greater than zero";
       "current_price out of range"; "theme must be: dark, light, degen";
       "wallet_tag invalid"; "timestamp invalid"].
Proof.
  destruct (ReportFacts.all_reports b) as (R1 & R2 & R3 & R4 & R5 & R6).
  assert (Own : forall ok l messages, reports ok l messages ->
            (forall m, In m l -> In m (validate b)) ->
            (forall m, In m (validate b) -> In m messages -> In m l) ->
            (ok = false <-> exists m, In m (validate b) /\ In m messages)).
  { intros ok l messages R Hin Hback.
    rewrite (ReportFacts.reports_own _ _ _ R). split; intros (m & H1 & H2).
    - exists m. split; [apply Hin, H1 | exact H2].
    - exists m. split; [apply Hback; assumption | exact H2]. }
  conjs.
  - rewrite ValidateFacts.validate_concat, !length_app. unfold failingFields.
    rewrite (ReportFacts.reports_length _ _ _ R1), (ReportFacts.reports_length _ _ _ R2),
      (ReportFacts.reports_length _ _ _ R3), (ReportFacts.reports_length _ _ _ R4),
      (ReportFacts.reports_length _ _ _ R5), (ReportFacts.reports_length _ _ _ R6).
    lia.
  - apply (Own _ _ _ R1).
    + intros m H. apply ReportFacts.in_validate. tauto.
    + intros m H. apply (ReportFacts.message_field b m H).
  - apply (Own _ _ _ R2).
    + intros m H. apply ReportFacts.in_validate. tauto.
    + intros m H. apply (ReportFacts.message_field b m H).
  - apply (Own _ _ _ R3).
    + intros m H. apply ReportFacts.in_validate. tauto.
    + intros m H. apply (ReportFacts.message_field b m H).
  - rewrite (Own _ _ _ R4).
    + split; [intros (m & H & [<-|[]]); exact H | intro H; eexists; split; [exact H | now left]].
    + intros m H. apply ReportFacts.in_validate. tauto.
    + intros m H. apply (ReportFacts.message_field b m H).
  - rewrite (Own _ _ _ R5).
    + split; [intros (m & H & [<-|[]]); exact H | intro H; eexists; split; [exact H | now left]].
    + intros m H. apply ReportFacts.in_validate. tauto.
    + intros m H. apply (ReportFacts.message_field b m H).
  - rewrite (Own _ _ _ R6).
    + split; [intros (m & H & [<-|[]]); exact H | intro H; eexists; split; [exact H | now left]].
    + intros m H. apply ReportFacts.in_validate. tauto.
    + intros m H. apply (ReportFacts.message_field b m H).
  - intro H. apply ReportFacts.in_validate. left.
    unfold validateTicker. destruct (ticker b); try discriminate H; now left.
  - intro H. apply ReportFacts.in_validate. right. left.
    unfold validateEntryPrice. rewrite H. now left.
  - intro H. apply ReportFacts.in_validate. right. right. left.
    unfold validateCurrentPrice. rewrite H. now left.
  - reflexivity.
  - vm_compute. reflexivity.
Qed.

(** X1: [validate] reports nothing exactly for the requests whose ticker is
    a string that is not blank and has at most 20 code units, whose entry
    price is a finite number above 0 and within [1e-20, 1e15], whose current
    price is a finite number from 0 to 1e15, whose theme is absent or one of
    dark, light, degen, and whose wallet tag and timestamp are absent or
    strings of at most 50 and 100 code units. *)
Theorem validate_accepts_exactly (b : CardRequest) :
  validate b = [] <->
  tickerOk (ticker b) /\ entryPriceOk (entry_price b) /\
  currentPriceOk (current_price b) /\ themeOk (theme b) /\
  optionalTextOk 50 (wallet_tag b) /\ optionalTextOk 100 (timestamp_ b).
Proof.
  split; [apply AcceptFacts.accepted_fields|].
  rewrite ValidateFacts.validate_concat.
  rewrite <- AcceptFacts.ticker_iff, <- AcceptFacts.entry_iff, <- AcceptFacts.current_iff,
    <- AcceptFacts.theme_iff, <- AcceptFacts.tag_iff, <- AcceptFacts.timestamp_iff.
  intros (-> & -> & -> & -> & -> & ->). reflexivity.
Qed.

Module ExtractFacts.

Lemma getProp_some (v : JsVal) (k : string) :
  isNullish v = false -> exists x, getProp v k = Some x.
Proof. destruct v; simpl; try discriminate; intros _; now eexists. Qed.

Lemma extract_fields (d : JsVal) :
  isNullish d = false ->
  exists t e c th w ts,
    getProp d "ticker" = Some t /\ getProp d "entry_price" = Some e /\
    getProp d "current_price" = Some c /\ getProp d "theme" = Some th /\
    getProp d "wallet_tag" = Some w /\ getProp d "timestamp" = Some ts.
Proof.
  intro H.
  destruct (getProp_some d "ticker" H) as [t Ht].
  destruct (getProp_some d "entry_price" H) as [e He].
  destruct (getProp_some d "current_price" H) as [c Hc].
  destruct (getProp_some d "theme" H) as [th Hth].
  destruct (getProp_some d "wallet_tag" H) as [w Hw].
  destruct (getProp_some d "timestamp" H) as [ts Hts].
  exists t, e, c, th, w, ts. now repeat split.
Qed.

Lemma object_test (v : JsVal) :
  truthy v && (typeof v =? "object")%string = true -> exists fields, v = JObj fields.
Proof.
  destruct v as [| |b|x|s|fields]; simpl; try discriminate.
  - rewrite andb_false_r. discriminate.
  - rewrite andb_false_r. discriminate.
  - rewrite andb_false_r. discriminate.
  - intros _. now exists fields.
Qed.

End ExtractFacts.

(** X2: [extractBody] fails (the TypeError that the handler turns into a 500
    response) exactly when the request body is [undefined] or [null]; any
    other body, object or not, yields the six fields, missing ones being
    [undefined]. *)
Theorem extractBody_fails_iff_nullish (body : JsVal) :
  (extractBody body = None <-> isNullish body = true) /\
  (forall s, extractBody (JStr s) = Some emptyRequest) /\
  (forall x, extractBody (JNum x) = Some emptyRequest) /\
  extractBody (JObj []) = Some emptyRequest.
Proof.
  split; [|repeat split; reflexivity].
  unfold extractBody.
  set (inner := match getProp body "body" with Some v => v | None => JUndefined end).
  destruct (truthy inner && (typeof inner =? "object")%string) eqn:E.
  - destruct (ExtractFacts.object_test inner E) as [fields Hi].
    assert (isNullish body = false) as Hb.
    { destruct body; try reflexivity; subst inner; discriminate Hi. }
    rewrite Hb.
    destruct (ExtractFacts.extract_fields inner) as (t & e & c & th & w & ts & H1 & H2 & H3 & H4 & H5 & H6);
      [now rewrite Hi|].
    rewrite H1, H2, H3, H4, H5, H6. split; discriminate.
  - destruct (isNullish body) eqn:Hb.
    + destruct body; try discriminate Hb; split; reflexivity.
    + destruct (ExtractFacts.extract_fields body Hb)
        as (t & e & c & th & w & ts & H1 & H2 & H3 & H4 & H5 & H6).
      rewrite H1, H2, H3, H4, H5, H6. split; discriminate.
Qed.

(** X3: [extractBody] unwraps exactly one level: when the property [body] of
    the request body is an object, the fields are read from that object and
    nowhere else (its own [body] property is not followed, the outer fields
    are ignored); when it is anything else, they are read from the request
    body itself. *)
Theorem extractBody_unwraps_one_level (fields : list (jsstring * JsVal)) :
  (forall inner, lookupField (str "body") fields = JObj inner ->
     extractBody (JObj fields) = Some (fieldsOf inner)) /\
  ((forall inner, lookupField (str "body") fields <> JObj inner) ->
     extractBody (JObj fields) = Some (fieldsOf fields)).
Proof.
  unfold extractBody. cbn [getProp]. split.
  - intros inner ->. reflexivity.
  - intro H.
    destruct (truthy (lookupField (str "body") fields)
              && (typeof (lookupField (str "body") fields) =? "object")%string) eqn:E.
    + destruct (ExtractFacts.object_test _ E) as [inner Hi]. now elim (H inner).
    + reflexivity.
Qed.

Section PipelineFacts.

Variable toLocaleString : number -> option nat -> string.
Variable toBuffer : list string -> Canvas -> Buffer.

(** X4: what the handler of POST /generate-card answers.  A body that is
    [undefined] or [null] gives the server error; a request with validation
    errors gives all of them and allocates no canvas; a request without
    errors is always rendered, with the metadata computed from the raw
    percentage.  The gain calculator's own error is never returned: the
    validation has excluded it. *)
Theorem generateCard_outcomes (now : jsstring) (reqBody : JsVal) (w : World) :
  (isNullish reqBody = true ->
     generateCard toLocaleString toBuffer now reqBody w = (ServerError, w)) /\
  (forall b, extractBody reqBody = Some b -> validate b <> [] ->
     generateCard toLocaleString toBuffer now reqBody w = (ValidationFailed (validate b), w)) /\
  (forall b, extractBody reqBody = Some b -> validate b = [] ->
     exists x y image,
       entry_price b = JNum x /\ current_price b = JNum y /\
       generateCard toLocaleString toBuffer now reqBody w =
       (Success image
          {| meta_ticker := sanitizeTicker (ticker b);
             gain_percentage := roundPrecision (rawPercentage x y);
             formatted_gain := formatPct toLocaleString (rawPercentage x y);
             is_profit := Num.ge (rawPercentage x y) Num.zero;
             meta_theme := themeOf (theme b) |},
        {| fonts := fonts w; allocated := S (allocated w) |})) /\
  (forall message,
     fst (generateCard toLocaleString toBuffer now reqBody w) <> PnlFailed message).
Proof.
  assert (forall b, extractBody reqBody = Some b -> validate b = [] ->
     exists x y image,
       entry_price b = JNum x /\ current_price b = JNum y /\
       generateCard toLocaleString toBuffer now reqBody w =
       (Success image
          {| meta_ticker := sanitizeTicker (ticker b);
             gain_percentage := roundPrecision (rawPercentage x y);
             formatted_gain := formatPct toLocaleString (rawPercentage x y);
             is_profit := Num.ge (rawPercentage x y) Num.zero;
             meta_theme := themeOf (theme b) |},
        {| fonts := fonts w; allocated := S (allocated w) |})) as Hok.
  { intros b Hb Hv. unfold generateCard. rewrite Hb, Hv.
    destruct (ValidateFacts.validate_nil b Hv)
      as (_ & (x & Ex & _ & Hx & _) & (y & Ey & _ & Hy & _)).
    rewrite Ex, Ey. cbn [numberOf]. rewrite calculatePnL_cases, Hx, Hy.
    rewrite renderCard_buffer.
    exists x, y. eexists. split; [reflexivity|]. split; reflexivity. }
  conjs.
  - intro H. destruct reqBody; try discriminate H; reflexivity.
  - intros b Hb Hv. unfold generateCard. rewrite Hb.
    destruct (validate b); [now elim Hv | reflexivity].
  - exact Hok.
  - intros message.
    destruct (extractBody reqBody) as [b|] eqn:Hb.
    + destruct (validate b) as [|m l] eqn:Hv.
      * destruct (Hok b eq_refl Hv) as (x & y & image & _ & _ & ->). discriminate.
      * unfold generateCard. rewrite Hb, Hv. discriminate.
    + unfold generateCard. rewrite Hb. discriminate.
Qed.

End PipelineFacts.

(* ================================================================== *)
(** ** Further properties: sanitizers *)
(* ================================================================== *)

Module SanitizeMore.

Lemma tickerChar_ascii (c : N) : isTickerChar c = true -> upperCodeUnit c = [c].
Proof.
  intro H.
  assert (c < 128 /\ ((97 <=? c) && (c <=? 122)) = false)%N as [H1 H2].
  { unfold isTickerChar in H.
    destruct (N.leb_spec 65 c), (N.leb_spec c 90), (N.leb_spec 48 c), (N.leb_spec c 57),
      (N.eqb_spec c 36), (N.leb_spec 97 c), (N.leb_spec c 122);
      simpl in H; try discriminate H; split; try reflexivity; lia. }
  rewrite (SanitizeFacts.upperCodeUnit_ascii c H1). unfold asciiUpper. now rewrite H2.
Qed.

Lemma toUpperCase_fixed (s : jsstring) :
  Forall (fun c => isTickerChar c = true) s -> toUpperCase s = s.
Proof.
  induction 1 as [|c s Hc Hs IH]; [reflexivity|].
  unfold toUpperCase in *. simpl. now rewrite (tickerChar_ascii c Hc), IH.
Qed.

Lemma filter_all {A} (p : A -> bool) (l : list A) :
  Forall (fun x => p x = true) l -> filter p l = l.
Proof. induction 1 as [|x l Hx Hl IH]; simpl; [reflexivity | now rewrite Hx, IH]. Qed.

Lemma sanitizeTicker_class (v : JsVal) :
  Forall (fun c => isTickerChar c = true) (sanitizeTicker v) /\
  (List.length (sanitizeTicker v) <= 20)%nat.
Proof.
  destruct v; try (split; [constructor | simpl; lia]).
  unfold sanitizeTicker, slice0.
  split; [apply SanitizeFacts.Forall_firstn, SanitizeFacts.Forall_filter
         | apply firstn_le_length].
Qed.

Lemma length_dropWhile {A} (p : A -> bool) (l : list A) :
  (List.length (dropWhile p l) <= List.length l)%nat.
Proof. induction l as [|x l IH]; simpl; [lia|]. destruct (p x); simpl; lia. Qed.

Lemma length_trim (s : jsstring) : (List.length (trim s) <= List.length s)%nat.
Proof.
  unfold trim. rewrite length_rev.
  etransitivity; [apply length_dropWhile|]. rewrite length_rev. apply length_dropWhile.
Qed.

Lemma length_filter_le {A} (p : A -> bool) (l : list A) :
  (List.length (filter p l) <= List.length l)%nat.
Proof. induction l as [|x l IH]; simpl; [lia|]. destruct (p x); simpl; lia. Qed.

Lemma dropWhile_id {A} (p : A -> bool) (l : list A) :
  (forall c r, l = c :: r -> p c = false) -> dropWhile p l = l.
Proof.
  destruct l as [|x l]; [reflexivity|]. intro H. simpl. now rewrite (H x l eq_refl).
Qed.

Lemma trim_last (s : jsstring) (c : N) (r : jsstring) :
  rev (trim s) = c :: r -> isWhiteSpace c = false.
Proof.
  unfold trim. rewrite rev_involutive. apply SanitizeFacts.dropWhile_head.
Qed.

Lemma trim_trimmed (s : jsstring) : trimmed (trim s).
Proof. split; [apply SanitizeFacts.trim_head | apply trim_last]. Qed.

Lemma trim_of_trimmed (s : jsstring) : trimmed s -> trim s = s.
Proof.
  intros [H1 H2]. unfold trim.
  rewrite (dropWhile_id isWhiteSpace s H1), (dropWhile_id isWhiteSpace (rev s) H2).
  apply rev_involutive.
Qed.

End SanitizeMore.

Module StripFacts.

Lemma ticker_class (c : N) : isTickerChar c = inTickerAlphabet c.
Proof.
  destruct (inTickerAlphabet c) eqn:E.
  - unfold inTickerAlphabet in E. apply existsb_exists in E as (x & Hx & Hc).
    apply N.eqb_eq in Hc. subst x. unfold tickerAlphabet in Hx. cbn [str In] in Hx.
    repeat (destruct Hx as [<-|Hx]; [reflexivity|]). destruct Hx.
  - destruct (isTickerChar c) eqn:T; [|reflexivity].
    rewrite <- E. symmetry. unfold isTickerChar in T.
    assert (H : (65 <= c <= 90 \/ 48 <= c <= 57 \/ c = 36)%N).
    { destruct (N.leb_spec 65 c), (N.leb_spec c 90), (N.leb_spec 48 c),
        (N.leb_spec c 57), (N.eqb_spec c 36); simpl in T; try discriminate T; lia. }
    clear T E.
    assert (D : exists k : nat, (k < 91)%nat /\ c = N.of_nat k).
    { exists (N.to_nat c). split; lia. }
    destruct D as (k & Hk & ->).
    do 91 (destruct k as [|k]; [try (exfalso; lia); try reflexivity|]). lia.
Qed.

Lemma stripped_class (c : N) : isControlOrAngle c = strippedFromText c.
Proof.
  unfold isControlOrAngle, strippedFromText. cbn [str existsb].
  rewrite orb_false_r.
  change (N_of_ascii "<") with 60%N. change (N_of_ascii ">") with 62%N.
  destruct (N.leb_spec c 31), (N.ltb_spec c 32); try lia;
    now rewrite ?orb_assoc.
Qed.

Lemma filter_ext' {A} (p q : A -> bool) (l : list A) :
  (forall x, p x = q x) -> filter p l = filter q l.
Proof. intro H. induction l as [|x l IH]; simpl; [reflexivity|]. now rewrite H, IH. Qed.

(** What [dropWhile] drops satisfies the test. *)
Lemma dropWhile_split {A} (p : A -> bool) (l : list A) :
  exists a, l = (a ++ dropWhile p l)%list /\ Forall (fun x => p x = true) a.
Proof.
  induction l as [|x l (a & E & Ha)]; [exists []; split; [reflexivity|constructor]|].
  simpl. destruct (p x) eqn:Hx.
  - exists (x :: a). split; [simpl; now rewrite <- E | now constructor].
  - exists []. split; [reflexivity | constructor].
Qed.

(** [trim] removes white space from both ends and nothing else. *)
Lemma trim_split (s : jsstring) :
  exists a z, s = (a ++ trim s ++ z)%list /\
              Forall (fun c => isWhiteSpace c = true) a /\
              Forall (fun c => isWhiteSpace c = true) z.
Proof.
  unfold trim.
  destruct (dropWhile_split isWhiteSpace s) as (a & Ea & Ha).
  destruct (dropWhile_split isWhiteSpace (rev (dropWhile isWhiteSpace s))) as (z & Ez & Hz).
  exists a, (rev z). split; [|split; [exact Ha | now apply Forall_rev]].
  rewrite <- rev_app_distr, <- Ez, rev_involutive. exact Ea.
Qed.

End StripFacts.

(** C7: [sanitizeTicker] folds to upper case, keeps the characters of the
    alphabet A-Z, 0-9, $ in their order and cuts at 20; [sanitizeString]
    removes the control characters 0x00-0x1F and 0x7F and the angle
    brackets, then trims white space from both ends, then cuts at
    [maxLength] (so white space can be left at the end by the cut only).
    Neither does anything to a value that is not a string but return the
    empty string. *)
Theorem sanitizers_strip_and_truncate (s : jsstring) (maxLength : nat) :
  sanitizeTicker (JStr s) = firstn 20 (filter inTickerAlphabet (toUpperCase s)) /\
  (Forall (fun c => (c < 128)%N) s ->
     sanitizeTicker (JStr s) = firstn 20 (filter inTickerAlphabet (map asciiUpper s))) /\
  (List.length (sanitizeTicker (JStr s)) <= 20)%nat /\
  Forall (fun c => In c tickerAlphabet) (sanitizeTicker (JStr s)) /\
  sanitizeTicker (JStr (str "<script>")) = str "SCRIPT" /\
  sanitizeTicker (JStr (str "$BTC")) = str "$BTC" /\
  sanitizeTicker (JStr (str "$btc")) = str "$BTC" /\
  sanitizeTicker (JStr (str "btc123")) = str "BTC123" /\
  sanitizeTicker (JStr (str "abcdefghijklmnopqrstuvwxyz")) = str "ABCDEFGHIJKLMNOPQRST" /\
  sanitizeString (JStr s) maxLength
    = firstn maxLength (trim (filter (fun c => negb (strippedFromText c)) s)) /\
  (exists a t z,
     filter (fun c => negb (strippedFromText c)) s = (a ++ t ++ z)%list /\
     Forall (fun c => isWhiteSpace c = true) a /\
     Forall (fun c => isWhiteSpace c = true) z /\
     trimmed t /\
     sanitizeString (JStr s) maxLength = firstn maxLength t) /\
  (List.length (sanitizeString (JStr s) maxLength) <= maxLength)%nat /\
  Forall (fun c => (32 <= c)%N /\ c <> 127%N /\ c <> 60%N /\ c <> 62%N)
         (sanitizeString (JStr s) maxLength) /\
  sanitizeString (JStr ([32; 9]%N ++ str "<b>0x12 ab</b>" ++ [7; 127; 32; 10]%N)%list) 100
    = str "b0x12 ab/b" /\
  sanitizeString (JStr (str "  ab cd  ")) 3 = str "ab " /\
  (forall v, (forall t, v <> JStr t) ->
     sanitizeTicker v = [] /\ sanitizeString v maxLength = []).
Proof.
  assert (Es : sanitizeString (JStr s) maxLength
               = firstn maxLength (trim (filter (fun c => negb (strippedFromText c)) s))).
  { unfold sanitizeString, slice0. f_equal. f_equal.
    apply StripFacts.filter_ext'. intro c. now rewrite StripFacts.stripped_class. }
  assert (Et : sanitizeTicker (JStr s) = firstn 20 (filter inTickerAlphabet (toUpperCase s))).
  { unfold sanitizeTicker, slice0. f_equal.
    apply StripFacts.filter_ext', StripFacts.ticker_class. }
  conjs.
  - exact Et.
  - intro H. rewrite Et. now rewrite SanitizeFacts.toUpperCase_ascii.
  - apply firstn_le_length.
  - rewrite Et. apply SanitizeFacts.Forall_firstn.
    eapply Forall_impl; [|apply SanitizeFacts.Forall_filter].
    intros c Hc. unfold inTickerAlphabet in Hc.
    apply existsb_exists in Hc as (x & Hx & E). apply N.eqb_eq in E. now subst x.
  - reflexivity.
  - reflexivity.
  - reflexivity.
  - reflexivity.
  - reflexivity.
  - exact Es.
  - destruct (StripFacts.trim_split (filter (fun c => negb (strippedFromText c)) s))
      as (a & z & E & Ha & Hz).
    exists a, (trim (filter (fun c => negb (strippedFromText c)) s)), z.
    split; [exact E|]. split; [exact Ha|]. split; [exact Hz|].
    split; [apply SanitizeMore.trim_trimmed | exact Es].
  - apply firstn_le_length.
  - rewrite Es. apply SanitizeFacts.Forall_firstn, SanitizeFacts.Forall_trim.
    eapply Forall_impl; [|apply SanitizeFacts.Forall_filter].
    intros c Hc. apply negb_true_iff in Hc.
    unfold strippedFromText in Hc. cbn [str existsb] in Hc.
    change (N_of_ascii "<") with 60%N in Hc. change (N_of_ascii ">") with 62%N in Hc.
    destruct (N.ltb_spec c 32), (N.eqb_spec c 127), (N.eqb_spec c 60), (N.eqb_spec c 62);
      simpl in Hc; try discriminate Hc. lia.
  - vm_compute. reflexivity.
  - vm_compute. reflexivity.
  - intros v Hv. destruct v as [| | | |t|]; try (split; reflexivity). now elim (Hv t).
Qed.

(** X5: a sanitized ticker is a fixed point: sanitizing it again, or
    upper-casing it as [renderCard] does for the header, changes nothing.
    The card therefore shows exactly the ticker of the response metadata. *)
Theorem sanitizeTicker_idempotent (v : JsVal) :
  sanitizeTicker (JStr (sanitizeTicker v)) = sanitizeTicker v /\
  toUpperCase (sanitizeTicker v) = sanitizeTicker v.
Proof.
  destruct (SanitizeMore.sanitizeTicker_class v) as [Hc Hl].
  pose proof (SanitizeMore.toUpperCase_fixed _ Hc) as Hu.
  split; [|exact Hu].
  unfold sanitizeTicker at 1. unfold slice0.
  rewrite Hu, (SanitizeMore.filter_all _ _ Hc). now apply firstn_all2.
Qed.

(** X6: when the raw string is no longer than [maxLength] (what [validate]
    guarantees for the wallet tag with 50 and the timestamp with 100), the
    truncation of [sanitizeString] cuts nothing: the result is the cleaned
    text, it has no white space at either end, and sanitizing it again
    changes nothing. *)
Theorem sanitizeString_within_limit (s : jsstring) (maxLength : nat) :
  (List.length s <= maxLength)%nat ->
  sanitizeString (JStr s) maxLength = cleaned s /\
  trimmed (sanitizeString (JStr s) maxLength) /\
  sanitizeString (JStr (sanitizeString (JStr s) maxLength)) maxLength
  = sanitizeString (JStr s) maxLength.
Proof.
  intro Hlen.
  assert (List.length (cleaned s) <= maxLength)%nat as Hc.
  { unfold cleaned. etransitivity; [apply SanitizeMore.length_trim|].
    etransitivity; [apply SanitizeMore.length_filter_le | exact Hlen]. }
  assert (sanitizeString (JStr s) maxLength = cleaned s) as E
    by (unfold sanitizeString, slice0; now apply firstn_all2).
  split; [exact E|]. rewrite E.
  split; [apply SanitizeMore.trim_trimmed|].
  unfold sanitizeString, slice0. fold (cleaned (cleaned s)).
  assert (cleaned (cleaned s) = cleaned s) as ->.
  { unfold cleaned at 1.
    rewrite SanitizeMore.filter_all.
    - apply SanitizeMore.trim_of_trimmed, SanitizeMore.trim_trimmed.
    - unfold cleaned. apply SanitizeFacts.Forall_trim, SanitizeFacts.Forall_filter. }
  now apply firstn_all2.
Qed.

Lemma sanitizeString_within_limit_witness :
  sanitizeString (JStr (str "  <b>0x12 ab</b> ")) 50 = str "b0x12 ab/b".
Proof.
  rewrite (proj1 (sanitizeString_within_limit (str "  <b>0x12 ab</b> ") 50
                    ltac:(simpl; lia))).
  reflexivity.
Defined.

(* ================================================================== *)
(** ** Further properties: the other revision of [validate] *)
(* ================================================================== *)

Module VariantFacts.

Lemma variant_concat (b : CardRequest) :
  Variant.validate b =
  (Variant.validateTicker b [] ++ Variant.validateEntryPrice b []
   ++ Variant.validateCurrentPrice b [] ++ Variant.validateTheme b []
   ++ Variant.validateWalletTag b [] ++ Variant.validateTimestamp b [])%list.
Proof.
  unfold Variant.validate, Variant.validateTicker, Variant.validateEntryPrice,
    Variant.validateCurrentPrice, Variant.validateTheme, Variant.validateWalletTag,
    Variant.validateTimestamp, push.
  cbv zeta. ValidateFacts.field_cases; reflexivity.
Qed.

(** The price checks of the two revisions differ in wording only. *)
Lemma entry_agrees (b : CardRequest) :
  Variant.validateEntryPrice b [] = [] <-> validateEntryPrice b [] = [].
Proof.
  unfold Variant.validateEntryPrice, validateEntryPrice, push.
  ValidateFacts.field_cases; split; intro H; try reflexivity; discriminate H.
Qed.

Lemma current_agrees (b : CardRequest) :
  Variant.validateCurrentPrice b [] = [] <-> validateCurrentPrice b [] = [].
Proof.
  unfold Variant.validateCurrentPrice, validateCurrentPrice, push.
  ValidateFacts.field_cases; split; intro H; try reflexivity; discriminate H.
Qed.

Lemma variant_ticker_iff (b : CardRequest) :
  Variant.validateTicker b [] = [] <->
  exists t, ticker b = JStr t /\ trim t <> [] /\ sanitizeTicker (JStr t) <> [].
Proof.
  unfold Variant.validateTicker, push. split.
  - destruct (blank (ticker b)) eqn:Hb; [discriminate|].
    destruct (ValidateFacts.blank_false _ Hb) as (t & -> & Ht).
    destruct (sanitizeTicker (JStr t)) as [|c r] eqn:E; [discriminate|].
    intros _. exists t. rewrite E. repeat split; [exact Ht | discriminate].
  - intros (t & -> & Ht & Hs). rewrite (ValidateFacts.not_blank t Ht).
    destruct (sanitizeTicker (JStr t)); [now elim Hs | reflexivity].
Qed.

End VariantFacts.

(** X7: in the other revision of the routes a ticker that sanitizes to
    nothing is an error: every request that revision accepts has a token
    symbol that is not empty, holds only [[A-Z0-9$]] and has at most 20 code
    units, and its prices pass the same tests as in the main revision. *)
Theorem variant_accepts_only_nonempty_symbols (b : CardRequest) :
  Variant.validate b = [] ->
  sanitizeTicker (ticker b) <> [] /\
  Forall (fun c => isTickerChar c = true) (sanitizeTicker (ticker b)) /\
  (List.length (sanitizeTicker (ticker b)) <= 20)%nat /\
  entryPriceOk (entry_price b) /\ currentPriceOk (current_price b).
Proof.
  rewrite VariantFacts.variant_concat. intro H.
  apply app_eq_nil in H as [Ht H]. apply app_eq_nil in H as [He H].
  apply app_eq_nil in H as [Hc _].
  apply VariantFacts.variant_ticker_iff in Ht as (t & Et & _ & Hs).
  destruct (SanitizeMore.sanitizeTicker_class (ticker b)) as [F L].
  rewrite Et in *.
  split; [exact Hs|]. split; [exact F|]. split; [exact L|].
  split.
  - now apply AcceptFacts.entry_iff, VariantFacts.entry_agrees.
  - now apply AcceptFacts.current_iff, VariantFacts.current_agrees.
Qed.

Lemma variant_accepts_only_nonempty_symbols_witness :
  sanitizeTicker (JStr (str "pepe coin 2.0")) <> [].
Proof.
  apply (variant_accepts_only_nonempty_symbols
           {| ticker := JStr (str "pepe coin 2.0"); entry_price := JNum (Num.ofZ 100);
              current_price := JNum (Num.ofZ 150); theme := JUndefined;
              wallet_tag := JUndefined; timestamp_ := JUndefined |}).
  vm_compute. reflexivity.
Defined.

(** X8: the two revisions compared.  Whatever the main [validate] accepts is
    accepted by the other revision too, provided its ticker does not sanitize
    to nothing; a ticker that does is accepted by the main revision only. *)
Theorem variant_accepts_what_main_accepts (b : CardRequest) :
  validate b = [] ->
  (sanitizeTicker (ticker b) <> [] -> Variant.validate b = []) /\
  (sanitizeTicker (ticker b) = [] ->
   Variant.validate b = ["ticker must contain A-Z, 0-9, or $"]).
Proof.
  intro H.
  apply AcceptFacts.accepted_fields in H as (Ht & He & Hc & Hth & Hw & Hts).
  apply AcceptFacts.entry_iff, VariantFacts.entry_agrees in He.
  apply AcceptFacts.current_iff, VariantFacts.current_agrees in Hc.
  assert (Variant.validateTheme b [] = []) as Hth'.
  { unfold Variant.validateTheme.
    destruct Hth as [->|[->|[->|[->| ->]]]]; reflexivity. }
  assert (forall v limit, optionalTextOk limit v ->
            truthy v && (notString v || longerThan v limit) = false) as Hopt.
  { intros v limit [->|[->|(s & -> & Hl)]]; try reflexivity.
    cbn [notString longerThan orb].
    destruct (Nat.ltb_spec limit (List.length s)); [lia | apply andb_false_r]. }
  assert (Variant.validateWalletTag b [] = []) as Hw'
    by (unfold Variant.validateWalletTag; now rewrite (Hopt _ _ Hw)).
  assert (Variant.validateTimestamp b [] = []) as Hts'
    by (unfold Variant.validateTimestamp; now rewrite (Hopt _ _ Hts)).
  rewrite VariantFacts.variant_concat, He, Hc, Hth', Hw', Hts'.
  destruct Ht as (t & Et & Hne & _).
  unfold Variant.validateTicker, push.
  rewrite Et, (ValidateFacts.not_blank t Hne).
  split; intro Hs.
  - destruct (sanitizeTicker (JStr t)); [now elim Hs | reflexivity].
  - rewrite Hs. reflexivity.
Qed.

Lemma variant_accepts_what_main_accepts_witness :
  Variant.validate {| ticker := JStr (str "!!!"); entry_price := JNum (Num.ofZ 100);
                      current_price := JNum (Num.ofZ 150); theme := JUndefined;
                      wallet_tag := JUndefined; timestamp_ := JUndefined |}
  = ["ticker must contain A-Z, 0-9, or $"].
Proof.
  apply (variant_accepts_what_main_accepts
           {| ticker := JStr (str "!!!"); entry_price := JNum (Num.ofZ 100);
              current_price := JNum (Num.ofZ 150); theme := JUndefined;
              wallet_tag := JUndefined; timestamp_ := JUndefined |});
    vm_compute; reflexivity.
Defined.

(* ================================================================== *)
(** ** Further properties: the drawing *)
(* ================================================================== *)

Module CardFacts.

(** The drawing is fixed by the theme, the profit flag and the presence of
    the two footer texts; the texts themselves are opaque to it. *)
Ltac card_cases tl data theme :=
  unfold cardCalls, drawCard;
  destruct data as [sym ep cp [pg ip fg] wt ts];
  cbn [tokenSymbol entryPrice currentPrice pnl walletTag timestamp
       percentageGain isProfit formattedGain];
  generalize (formatTokenPrice tl ep) (formatTokenPrice tl cp) (toUpperCase sym);
  intros s1 s2 s3;
  destruct theme, ip, wt as [[|c1 t1]|], ts as [[|c2 t2]|].

End CardFacts.

Section DrawingFacts.

Variable toLocaleString : number -> option nat -> string.

(** X9: every text of the card is drawn at full opacity except the
    watermark, the last thing painted, at 0.6; the context is left with
    opacity 1 and no shadow blur, whatever the theme (the decorations of the
    degen theme restore what they change). *)
Theorem text_opacity (data : CardData) (theme : Theme) :
  let ps := paints (Num.ofZ 1) (cardCalls toLocaleString data theme) in
  last ps (Num.ofZ 1, Fill)
    = (Num.lit 6 10, FillText (str "FLEX CARD") (CARD_WIDTH - 60) (CARD_HEIGHT - 70)) /\
  forallb (fun p => implb (isText (snd p)) (SFeqb (fst p) (Num.ofZ 1))) (removelast ps) = true /\
  finalAlpha (Num.ofZ 1) (cardCalls toLocaleString data theme) = Num.ofZ 1 /\
  finalShadowBlur 0 (cardCalls toLocaleString data theme) = 0.
Proof.
  cbv zeta.
  CardFacts.card_cases toLocaleString data theme;
    (split; [|split; [|split]]); vm_compute; reflexivity.
Qed.

(** X10: every coordinate passed to a drawing call of the card lies within
    the 1200 by 630 canvas: the corners of every rectangle, the anchor of
    every text and the points of every path segment, with no negative size
    or radius. *)
Theorem named_points_on_canvas (data : CardData) (theme : Theme) :
  forallb pointsOnCanvas (cardCalls toLocaleString data theme) = true.
Proof.
  CardFacts.card_cases toLocaleString data theme; vm_compute; reflexivity.
Qed.

(** X11: the decorations depend on the theme alone: the border rectangle is
    stroked for the light theme only, the glow (shadow) is used for the
    degen theme only, and the degen theme fills 158 scanlines besides the
    background where the other themes fill the background only. *)
Theorem decorations_by_theme (data : CardData) (theme : Theme) :
  existsb isStrokeRect (cardCalls toLocaleString data theme) = isLight theme /\
  existsb usesShadow (cardCalls toLocaleString data theme) = isDegen theme /\
  List.length (filter isFillRect (cardCalls toLocaleString data theme))
  = (if isDegen theme then 159 else 1)%nat.
Proof.
  CardFacts.card_cases toLocaleString data theme;
    (split; [|split]); vm_compute; reflexivity.
Qed.

Lemma first_call (data : CardData) (theme : Theme) :
  hd_error (cardCalls toLocaleString data theme)
  = Some (SetFillStyle (bg (getColors theme))).
Proof.
  CardFacts.card_cases toLocaleString data theme; vm_compute; reflexivity.
Qed.

(** X12: two themes never give the same drawing. *)
Theorem themes_draw_differently (data : CardData) (theme theme' : Theme) :
  theme <> theme' ->
  cardCalls toLocaleString data theme <> cardCalls toLocaleString data theme'.
Proof.
  intros Hne E. apply (f_equal (fun l => hd_error l)) in E.
  rewrite !first_call in E.
  destruct theme, theme'; try (now elim Hne); clear Hne;
    vm_compute in E; discriminate E.
Qed.

End DrawingFacts.

Lemma themes_draw_differently_witness :
  let data := {| tokenSymbol := str "PEPE"; entryPrice := Num.ofZ 100;
                 currentPrice := Num.ofZ 150;
                 pnl := {| percentageGain := Num.ofZ 50; isProfit := true;
                           formattedGain := "+50.0%" |};
                 walletTag := None; timestamp := None |} in
  cardCalls enUS_toLocaleString data dark <> cardCalls enUS_toLocaleString data degen.
Proof.
  cbv zeta. apply themes_draw_differently. discriminate.
Defined.

(* ================================================================== *)
(** ** The error middleware *)
(* ================================================================== *)

Module ErrorFacts.




End ErrorFacts.

(* ================================================================== *)
(** ** The counting loop and the scanlines *)
(* ================================================================== *)

Module LoopFacts.

Lemma rounds_done (y limit step : Z) :
  1 <= step -> limit <= y -> rounds y limit step = O.
Proof.
  intros Hs Hy. unfold rounds.
  assert (H : (limit - y + step - 1) / step <= 0).
  { destruct (Z.eq_dec (limit - y + step - 1) (-1 + 1 * step + (limit - y))) as [E|E]; [|lia].
    assert (limit - y + step - 1 < step) by lia.
    destruct (Z_lt_le_dec (limit - y + step - 1) 0) as [Hn|Hp].
    - pose proof (Z.div_lt_upper_bound (limit - y + step - 1) step 0). lia.
    - rewrite Z.div_small; lia. }
  lia.
Qed.

Lemma rounds_more (y limit step : Z) :
  1 <= step -> y < limit ->
  rounds y limit step = S (rounds (y + step) limit step).
Proof.
  intros Hs Hy. unfold rounds.
  replace (limit - y + step - 1) with (limit - (y + step) + step - 1 + 1 * step) by lia.
  rewrite Z.div_add by lia.
  assert (0 <= (limit - (y + step) + step - 1) / step).
  { apply Z.div_pos; lia. }
  rewrite Z2Nat.inj_add by lia. simpl. lia.
Qed.

Lemma countUp_In (n : nat) (y step v : Z) :
  In v (countUp n y step) <->
  exists k, 0 <= k < Z.of_nat n /\ v = y + step * k.
Proof.
  revert y. induction n as [|n IH]; intros y.
  - simpl. split; [tauto|]. intros (k & Hk & _). lia.
  - cbn [countUp In]. rewrite IH. split.
    + intros [<-|(k & Hk & ->)].
      * exists 0. split; lia.
      * exists (k + 1). split; lia.
    + intros (k & Hk & ->). destruct (Z.eq_dec k 0) as [->|Hn].
      * left. lia.
      * right. exists (k - 1). split; lia.
Qed.

(** X14 (src/services/cardRenderer.ts, the [for] statement of
    drawDegenEffects).  A counting loop with a step of at least 1, given
    at least [limit - y] rounds, runs its body once for each of
    y, y + step, y + 2 step, ... below the limit, in this order, and for
    nothing else: it is the [forEach] over these values. *)
Theorem forLoop_visits_each_step (fuel : nat) (y limit step : Z)
    (body : Z -> Draw unit) (c : Canvas) :
  1 <= step -> limit - y <= Z.of_nat fuel ->
  forLoop fuel y limit step body c =
    forEach (countUp (rounds y limit step) y step) body c /\
  (forall v, In v (countUp (rounds y limit step) y step) <->
             y <= v < limit /\ (v - y) mod step = 0).
Proof.
  intros Hs Hf. split.
  - revert y c Hf. induction fuel as [|f IH]; intros y c Hf.
    + rewrite rounds_done by lia. reflexivity.
    + cbn [forLoop]. destruct (y <? limit) eqn:Hy.
      * apply Z.ltb_lt in Hy. rewrite rounds_more by lia.
        cbn [countUp forEach]. unfold bind.
        destruct (body y c) as [u c']. apply IH. lia.
      * apply Z.ltb_ge in Hy. rewrite rounds_done by lia. reflexivity.
  - intro v. rewrite countUp_In. unfold rounds. split.
    + intros (k & Hk & ->).
      replace (y + step * k - y) with (k * step) by lia.
      rewrite Z.mod_mul by lia. split; [|reflexivity].
      assert (Hq : k < (limit - y + step - 1) / step) by lia.
      assert (step * ((limit - y + step - 1) / step) <= limit - y + step - 1).
      { apply Z.mul_div_le. lia. }
      nia.
    + intros (Hv & Hm).
      apply Z.mod_divide in Hm; [|lia]. destruct Hm as (k & Hk).
      exists k. split; [|lia].
      assert (0 <= k) by nia.
      assert (k + 1 <= (limit - y + step - 1) / step).
      { apply Z.div_le_lower_bound; nia. }
      lia.
Qed.

Lemma forLoop_visits_each_step_witness :
  forLoop (Z.to_nat CARD_HEIGHT) 0 CARD_HEIGHT 4
      (fun y => ctx (FillRect 0 y CARD_WIDTH 1))
      (createCanvas CARD_WIDTH CARD_HEIGHT) =
    forEach (countUp (rounds 0 CARD_HEIGHT 4) 0 4)
      (fun y => ctx (FillRect 0 y CARD_WIDTH 1))
      (createCanvas CARD_WIDTH CARD_HEIGHT) /\
  (forall v, In v (countUp (rounds 0 CARD_HEIGHT 4) 0 4) <->
             0 <= v < CARD_HEIGHT /\ (v - 0) mod 4 = 0).
Proof.
  apply (forLoop_visits_each_step (Z.to_nat CARD_HEIGHT) 0 CARD_HEIGHT 4).
  - lia.
  - vm_compute. discriminate.
Defined.

End LoopFacts.

Section ScanlineFacts.

Variable toLocaleString : number -> option nat -> string.

Lemma scanlines_of_card (data : CardData) (theme : Theme) :
  scanlines (paints (Num.ofZ 1) (cardCalls toLocaleString data theme)) =
  if isDegen theme
  then map (fun y => (Num.lit 3 100, y)) (countUp (rounds 0 CARD_HEIGHT 4) 0 4)
  else [].
Proof.
  CardFacts.card_cases toLocaleString data theme; vm_compute; reflexivity.
Qed.

(** X15 (src/services/cardRenderer.ts, drawDegenEffects and renderCard).
    The card of the degen theme has a scanline, a rectangle one pixel high
    across the whole width, on exactly the rows 0, 4, 8, ... below the
    card's height, each painted at opacity 0.03; the cards of the other
    themes have none. *)
Theorem scanlines_every_fourth_row (data : CardData) (theme : Theme)
    (a : number) (y : Z) :
  In (a, y) (scanlines (paints (Num.ofZ 1) (cardCalls toLocaleString data theme))) <->
  theme = degen /\ a = Num.lit 3 100 /\ 0 <= y < CARD_HEIGHT /\ y mod 4 = 0.
Proof.
  rewrite scanlines_of_card.
  destruct theme; cbn [isDegen].
  1,2: split; [intros [] | intros [H _]; discriminate H].
  rewrite in_map_iff. split.
  - intros (v & Heq & Hin). injection Heq as <- <-.
    apply LoopFacts.countUp_In in Hin.
    replace (Z.of_nat (rounds 0 CARD_HEIGHT 4)) with 158 in Hin
      by (vm_compute; reflexivity).
    destruct Hin as (k & Hk & ->). unfold CARD_HEIGHT.
    split; [reflexivity|]. split; [reflexivity|]. split; [lia|].
    replace (0 + 4 * k) with (k * 4) by lia. apply Z.mod_mul. lia.
  - intros (_ & -> & Hy & Hm). exists y. split; [reflexivity|].
    apply LoopFacts.countUp_In.
    replace (Z.of_nat (rounds 0 CARD_HEIGHT 4)) with 158 by (vm_compute; reflexivity).
    unfold CARD_HEIGHT in Hy.
    apply Z.mod_divide in Hm; [|lia].
    destruct Hm as (k & ->). exists k. lia.
Qed.

End ScanlineFacts.

(* ================================================================== *)
(** ** The font loader *)
(* ================================================================== *)

Section FontFacts.

Variable join : string -> string -> string.
Variable dirname cwd : string.
Variable existsSync : string -> bool.
Variable registerFont : string -> Font -> bool.


Lemma loadEach_spec (dir : string) (fonts : list Font)
    (result : FontResult) (registered : list string) :
  let ok := fontLoads join existsSync registerFont dir in
  loadEach join existsSync registerFont dir fonts result registered =
  ({| success := success result && forallb ok fonts;
      loaded := (loaded result ++ map file (filter ok fonts))%list;
      failed := (failed result ++
                 map file (filter (fun f => negb (ok f)) fonts))%list |},
   (registered ++ map family (filter ok fonts))%list).
Proof.
  intro ok. revert result registered.
  induction fonts as [|font rest IH]; intros [s l f] registered; cbn [loadEach].
  - cbn. now rewrite andb_true_r, !app_nil_r.
  - cbn [forallb filter].
    assert (Hl : ok font =
                 existsSync (join dir (file font)) &&
                 registerFont (join dir (file font)) font) by reflexivity.
    destruct (existsSync (join dir (file font)));
      [destruct (registerFont (join dir (file font)) font)|];
      cbn [andb] in Hl; rewrite Hl; cbn [negb];
      rewrite IH; cbn [success loaded failed map];
      rewrite <- ?app_assoc, ?andb_false_r, ?andb_true_l; reflexivity.
Qed.

(** X16 (src/utils/fontLoader.ts, loadFonts and findFontsDir).  The loader
    succeeds exactly when the fonts directory exists and every font file is
    there and registers without an exception.  Without the directory it
    reports failure with no file named as failed, and registers nothing.
    With it, the files are split between [loaded] and [failed] in the
    order of the font table, failure is reported exactly when a file is
    named as failed, and one family is registered for each loaded file. *)
Theorem loadFonts_outcome (registered : list string) :
  let dir := findFontsDir join dirname cwd existsSync in
  let ok := fontLoads join existsSync registerFont dir in
  let r := fst (loadFonts join dirname cwd existsSync registerFont registered) in
  let after := snd (loadFonts join dirname cwd existsSync registerFont registered) in
  (success r = true <->
     existsSync dir = true /\ forall font, In font FONTS -> ok font = true) /\
  (existsSync dir = false ->
     success r = false /\ loaded r = [] /\ failed r = [] /\ after = registered) /\
  (existsSync dir = true ->
     loaded r = map file (filter ok FONTS) /\
     failed r = map file (filter (fun f => negb (ok f)) FONTS) /\
     (success r = false <-> failed r <> []) /\
     after = (registered ++ map family (filter ok FONTS))%list) /\
  (List.length (loaded r) + List.length (failed r) <= List.length FONTS)%nat.
Proof.
  intros dir ok r after. subst r after. unfold loadFonts. fold dir.
  destruct (existsSync dir) eqn:Hd; cbn [negb].
  - rewrite loadEach_spec. fold ok. cbn [fst snd success loaded failed andb app].
    split; [|split; [discriminate|split]].
    + rewrite forallb_forall. intuition.
    + intros _. split; [reflexivity|]. split; [reflexivity|]. split; [|reflexivity].
      unfold FONTS. cbn [filter forallb].
      destruct (ok _); cbn; split; intro H; congruence.
    + unfold FONTS. cbn [filter]. destruct (ok _); cbn; lia.
  - cbn [fst snd success loaded failed].
    split; [|split; [|split]].
    + split; [discriminate|]. intros [H _]. discriminate H.
    + intros _. repeat split.
    + discriminate.
    + cbn. lia.
Qed.

End FontFacts.

Section FontDirFacts.

Variable join : string -> string -> string.
Variable dirname cwd : string.
Variable existsSync : string -> bool.

(** X17 (src/utils/fontLoader.ts, findFontsDir).  When [path.join] gives no
    empty path, the directory chosen is the first of the three candidates
    that exists, and the first candidate when none does: it exists exactly
    when one of the three does. *)
Theorem findFontsDir_first_existing :
  (forall a b, join a b <> "") ->
  let p1 := join dirname "../assets/fonts" in
  let p2 := join dirname "../../src/assets/fonts" in
  let p3 := join cwd "src/assets/fonts" in
  let dir := findFontsDir join dirname cwd existsSync in
  (existsSync p1 = true -> dir = p1) /\
  (existsSync p1 = false -> existsSync p2 = true -> dir = p2) /\
  (existsSync p1 = false -> existsSync p2 = false -> existsSync p3 = true ->
     dir = p3) /\
  (existsSync p1 = false -> existsSync p2 = false -> existsSync p3 = false ->
     dir = p1) /\
  (existsSync dir = true <->
     existsSync p1 = true \/ existsSync p2 = true \/ existsSync p3 = true).
Proof.
  intros Hj p1 p2 p3 dir. subst dir. unfold findFontsDir. cbn [List.find nth].
  fold p1 p2 p3.
  assert (H1 : (p1 =? "")%string = false) by (apply String.eqb_neq, Hj).
  assert (H2 : (p2 =? "")%string = false) by (apply String.eqb_neq, Hj).
  assert (H3 : (p3 =? "")%string = false) by (apply String.eqb_neq, Hj).
  destruct (existsSync p1) eqn:E1; [rewrite H1|
    destruct (existsSync p2) eqn:E2; [rewrite H2|
      destruct (existsSync p3) eqn:E3; [rewrite H3|]]];
    rewrite ?E1, ?E2, ?E3;
    repeat split; try congruence; try tauto; intuition congruence.
Qed.

End FontDirFacts.

Lemma findFontsDir_first_existing_witness :
  let join := fun a b => (a ++ "/" ++ b)%string in
  let existsSync := fun p => (p =? "/app/../../src/assets/fonts")%string in
  findFontsDir join "/app" "/srv" existsSync = "/app/../../src/assets/fonts".
Proof.
  intros join existsSync.
  refine (proj1 (proj2 (findFontsDir_first_existing join "/app" "/srv" existsSync _))
            eq_refl eq_refl).
  intros a b. destruct a; discriminate.
Defined.

(* ================================================================== *)
(** ** Rounding keeps the sign *)
(* ================================================================== *)

Module RoundFacts.

Section Rounding.

Variables prec emax : Z.

Lemma shr_1_nonneg (mrs : shr_record) : 0 <= shr_m mrs -> 0 <= shr_m (shr_1 mrs).
Proof.
  destruct mrs as [m r s]. cbn [shr_m]. intro H.
  destruct m as [|[p|p|]|p]; cbn; lia.
Qed.

Lemma iter_shr_1_nonneg (p : positive) (mrs : shr_record) :
  0 <= shr_m mrs -> 0 <= shr_m (iter_pos shr_1 p mrs).
Proof.
  revert mrs. induction p as [p IH|p IH|]; intros mrs H; cbn [iter_pos].
  - apply IH, IH, shr_1_nonneg, H.
  - apply IH, IH, H.
  - apply shr_1_nonneg, H.
Qed.

Lemma shr_fexp_nonneg (m e : Z) (l : location) :
  0 <= m -> 0 <= shr_m (fst (shr_fexp prec emax m e l)).
Proof.
  intro H. unfold shr_fexp, shr.
  assert (H0 : 0 <= shr_m (shr_record_of_loc m l)) by (destruct l as [|[ | | ]]; exact H).
  destruct (fexp prec emax (Zdigits2 m + e) - e); cbn [fst]; try exact H0.
  apply iter_shr_1_nonneg, H0.
Qed.

Lemma round_nearest_even_nonneg (m : Z) (l : location) :
  0 <= m -> 0 <= round_nearest_even m l.
Proof.
  intro H. destruct l as [|[ | | ]]; cbn [round_nearest_even]; try lia.
  destruct (Z.even m); lia.
Qed.

(** Rounding a magnitude gives a zero, a finite number or an infinity of the
    sign it is given, never NaN. *)
Lemma binary_round_aux_sign (sx : bool) (mx ex : Z) (lx : location) :
  0 <= mx -> signBit (binary_round_aux prec emax sx mx ex lx) = Some sx.
Proof.
  intro H. unfold binary_round_aux.
  pose proof (shr_fexp_nonneg mx ex lx H) as H1.
  destruct (shr_fexp prec emax mx ex lx) as [mrs' e']. cbn [fst] in H1.
  pose proof (shr_fexp_nonneg _ e' loc_Exact
                (round_nearest_even_nonneg _ (loc_of_shr_record mrs') H1)) as H2.
  destruct (shr_fexp prec emax (round_nearest_even (shr_m mrs') (loc_of_shr_record mrs'))
              e' loc_Exact) as [mrs'' e''].
  cbn [fst] in H2. destruct (shr_m mrs'') as [|m|m]; [reflexivity| |lia].
  destruct (e'' <=? emax - prec); reflexivity.
Qed.

Lemma binary_round_sign (sx : bool) (mx : positive) (ex : Z) :
  signBit (binary_round prec emax sx mx ex) = Some sx.
Proof.
  unfold binary_round.
  destruct (shl_align mx ex (fexp prec emax (Z.pos (digits2_pos mx) + ex))) as [mz ez].
  apply binary_round_aux_sign. lia.
Qed.

Lemma binary_normalize_sign (m e : Z) (szero : bool) :
  signBit (binary_normalize prec emax m e szero) =
  Some (match m with Z0 => szero | Zpos _ => false | Zneg _ => true end).
Proof.
  destruct m; cbn [binary_normalize]; [reflexivity| |]; apply binary_round_sign.
Qed.

Lemma SFdiv_core_nonneg (m1 m2 : positive) (e1 e2 : Z) :
  0 <= fst (fst (SFdiv_core_binary prec emax (Zpos m1) e1 (Zpos m2) e2)).
Proof.
  unfold SFdiv_core_binary.
  set (s := e1 - e2 - _).
  set (m' := match s with Z0 => Zpos m1 | Zpos _ => Z.shiftl (Zpos m1) s | Zneg _ => 0 end).
  assert (Hm : 0 <= m').
  { subst m'. destruct s; try lia. apply Z.shiftl_nonneg. lia. }
  pose proof (Z_div_mod m' (Zpos m2) eq_refl) as Hd.
  destruct (Z.div_eucl m' (Zpos m2)) as [q r]. cbn [fst]. nia.
Qed.

End Rounding.

(** Multiplying or dividing by a finite number other than zero gives the
    exclusive or of the signs, and NaN only from NaN. *)
Lemma mul_finite_sign (x : number) (sx sy : bool) (my : positive) (ey : Z) :
  signBit x = Some sx ->
  signBit (Num.mul x (S754_finite sy my ey)) = Some (xorb sx sy).
Proof.
  unfold Num.mul.
  destruct x as [s1|s1| |s1 m1 e1]; cbn [signBit SFmul]; intro Hx;
    try discriminate; injection Hx as <-; try reflexivity.
  apply binary_round_aux_sign. lia.
Qed.

Lemma div_finite_sign (x : number) (sx sy : bool) (my : positive) (ey : Z) :
  signBit x = Some sx ->
  signBit (Num.div x (S754_finite sy my ey)) = Some (xorb sx sy).
Proof.
  unfold Num.div.
  destruct x as [s1|s1| |s1 m1 e1]; cbn [signBit SFdiv]; intro Hx;
    try discriminate; injection Hx as <-; try reflexivity.
  pose proof (SFdiv_core_nonneg Num.prec Num.emax m1 my e1 ey) as H.
  destruct (SFdiv_core_binary Num.prec Num.emax (Z.pos m1) e1 (Z.pos my) ey)
    as [[mz ez] lz].
  cbn [fst] in H. apply binary_round_aux_sign, H.
Qed.

Lemma sub_finite_not_nan (x y : number) :
  Num.isFinite x = true -> Num.isFinite y = true ->
  Num.sub x y <> S754_nan.
Proof.
  unfold Num.sub.
  destruct x as [s1|s1| |s1 m1 e1], y as [s2|s2| |s2 m2 e2];
    cbn [Num.isFinite SFsub]; intros Hx Hy; try discriminate.
  - destruct s1, s2; discriminate.
  - intro H. apply (f_equal signBit) in H.
    rewrite binary_normalize_sign in H. discriminate H.
Qed.

End RoundFacts.

(* ================================================================== *)
(** ** Not-a-number in the calculation *)
(* ================================================================== *)

Module NanFacts.

Lemma signBit_some (x : number) : x <> S754_nan -> exists s, signBit x = Some s.
Proof. destruct x as [s|s| |s m e]; intro H; try (now exists s). now destruct H. Qed.

Lemma signBit_not_nan (x : number) (s : bool) : signBit x = Some s -> x <> S754_nan.
Proof. intros H ->. discriminate H. Qed.

Lemma hundred_finite : exists m e, Num.ofZ 100 = S754_finite false m e.
Proof. eexists. eexists. vm_compute. reflexivity. Qed.

(** Past its two guards the percentage is NaN exactly for a NaN or an
    infinite entry price or a NaN current price. *)
Lemma rawPercentage_nan_iff (e c : number) :
  Num.le e Num.zero = false -> Num.lt c Num.zero = false ->
  (rawPercentage e c = S754_nan <->
   e = S754_nan \/ e = S754_infinity false \/ c = S754_nan).
Proof.
  intros He Hc. unfold rawPercentage.
  destruct hundred_finite as (m100 & e100 & ->).
  destruct e as [se|se| |se me ee].
  - destruct se; discriminate He.
  - destruct se; [discriminate He|].
    split; [auto|intros _].
    destruct c as [s|s| |s m x]; try destruct s; reflexivity.
  - split; [auto|intros _]. destruct c; reflexivity.
  - destruct se; [discriminate He|].
    destruct c as [sc|sc| |sc mc ec].
    + split; [|intros [H|[H|H]]; discriminate H].
      intro H. exfalso. revert H.
      destruct (signBit_some (Num.sub (S754_zero sc) (S754_finite false me ee)))
        as [s Hs]; [apply RoundFacts.sub_finite_not_nan; reflexivity|].
      eapply signBit_not_nan, RoundFacts.mul_finite_sign,
        RoundFacts.div_finite_sign, Hs.
    + destruct sc; [discriminate Hc|].
      split; [|intros [H|[H|H]]; discriminate H].
      intro H. exfalso. revert H.
      eapply signBit_not_nan, RoundFacts.mul_finite_sign,
        RoundFacts.div_finite_sign. reflexivity.
    + split; [auto|reflexivity].
    + split; [|intros [H|[H|H]]; discriminate H].
      intro H. exfalso. revert H.
      destruct (signBit_some (Num.sub (S754_finite sc mc ec) (S754_finite false me ee)))
        as [s Hs]; [apply RoundFacts.sub_finite_not_nan; reflexivity|].
      eapply signBit_not_nan, RoundFacts.mul_finite_sign,
        RoundFacts.div_finite_sign, Hs.
Qed.

End NanFacts.

Section NanResult.

Variable toLocaleString : number -> option nat -> string.

(** X18 (src/utils/pnlCalculator.ts, calculatePnL and formatPct).  The two
    guards of calculatePnL let NaN through, and an infinite entry price:
    past them the percentage is NaN exactly when the entry price is NaN or
    +Infinity or the current price is NaN, and the result then carries NaN,
    no profit and the text "NaN%". *)
Theorem calculatePnL_nan (e c : number) :
  Num.le e Num.zero = false -> Num.lt c Num.zero = false ->
  (rawPercentage e c = S754_nan <->
     e = S754_nan \/ e = S754_infinity false \/ c = S754_nan) /\
  (rawPercentage e c = S754_nan ->
     calculatePnL toLocaleString e c =
       Result {| percentageGain := S754_nan; isProfit := false;
                 formattedGain := "NaN%" |}).
Proof.
  intros He Hc. split; [apply NanFacts.rawPercentage_nan_iff; assumption|].
  intro H. rewrite calculatePnL_cases, He, Hc, H. reflexivity.
Qed.

End NanResult.

Lemma calculatePnL_nan_witness :
  calculatePnL enUS_toLocaleString S754_nan (Num.ofZ 5) =
    Result {| percentageGain := S754_nan; isProfit := false;
              formattedGain := "NaN%" |}.
Proof.
  refine (proj2 (calculatePnL_nan enUS_toLocaleString S754_nan (Num.ofZ 5)
                   eq_refl eq_refl) _).
  reflexivity.
Defined.

(* ================================================================== *)
(** ** Rounding keeps the order of magnitude *)
(* ================================================================== *)

Module MagnitudeFacts.

Lemma digits2_lower (m : positive) : 2 ^ (Zpos (digits2_pos m) - 1) <= Zpos m.
Proof.
  induction m as [m IH|m IH|]; cbn [digits2_pos].
  - rewrite Pos2Z.inj_succ. replace (Z.succ (Zpos (digits2_pos m)) - 1)
      with (Z.succ (Zpos (digits2_pos m) - 1)) by lia.
    rewrite Z.pow_succ_r by lia. lia.
  - rewrite Pos2Z.inj_succ. replace (Z.succ (Zpos (digits2_pos m)) - 1)
      with (Z.succ (Zpos (digits2_pos m) - 1)) by lia.
    rewrite Z.pow_succ_r by lia. lia.
  - cbn. lia.
Qed.

Lemma Zdigits2_bounds (m : Z) :
  0 < m -> 0 < Zdigits2 m /\ 2 ^ (Zdigits2 m - 1) <= m < 2 ^ Zdigits2 m.
Proof.
  destruct m as [|p|p]; try lia. intros _. cbn [Zdigits2].
  split; [lia|]. split; [apply digits2_lower | apply NumFacts.digits2_bound].
Qed.

Lemma Zdigits2_ge (m k : Z) : 0 <= k -> 2 ^ k <= m -> k + 1 <= Zdigits2 m.
Proof.
  intros Hk Hm.
  assert (0 < m) by (pose proof (Z.pow_pos_nonneg 2 k); lia).
  destruct (Zdigits2_bounds m) as (Hd & _ & Hu); [assumption|].
  destruct (Z_lt_le_dec k (Zdigits2 m)) as [|Hle]; [lia|].
  pose proof (Z.pow_le_mono_r 2 (Zdigits2 m) k). lia.
Qed.

Lemma Zdigits2_le (m k : Z) : 0 < m -> 0 <= k -> m < 2 ^ k -> Zdigits2 m <= k.
Proof.
  intros Hm Hk Hu.
  destruct (Zdigits2_bounds m) as (Hd & Hl & _); [assumption|].
  destruct (Z_lt_le_dec k (Zdigits2 m)) as [Hlt|]; [|lia].
  pose proof (Z.pow_le_mono_r 2 k (Zdigits2 m - 1)). lia.
Qed.

Lemma Zdigits2_mono (m m' : Z) : 0 < m -> m <= m' -> Zdigits2 m <= Zdigits2 m'.
Proof.
  intros Hm Hle.
  destruct (Zdigits2_bounds m) as (Hd & Hl & _); [assumption|].
  pose proof (Zdigits2_ge m' (Zdigits2 m - 1)). lia.
Qed.

(** Dropping [n] low bits of a number of [d > n] bits leaves [d - n] bits. *)
Lemma Zdigits2_shift (m n : Z) :
  0 < m -> 0 <= n < Zdigits2 m ->
  0 < m / 2 ^ n /\ Zdigits2 (m / 2 ^ n) = Zdigits2 m - n.
Proof.
  intros Hm Hn.
  destruct (Zdigits2_bounds m) as (Hd & Hl & Hu); [assumption|].
  assert (Hp : 0 < 2 ^ n) by (apply Z.pow_pos_nonneg; lia).
  assert (Hlow : 2 ^ (Zdigits2 m - n - 1) <= m / 2 ^ n).
  { apply Z.div_le_lower_bound; [exact Hp|].
    rewrite <- Z.pow_add_r by lia.
    replace (n + (Zdigits2 m - n - 1)) with (Zdigits2 m - 1) by lia. exact Hl. }
  assert (Hup : m / 2 ^ n < 2 ^ (Zdigits2 m - n)).
  { apply Z.div_lt_upper_bound; [exact Hp|].
    rewrite <- Z.pow_add_r by lia.
    replace (n + (Zdigits2 m - n)) with (Zdigits2 m) by lia. exact Hu. }
  assert (Hq : 0 < m / 2 ^ n).
  { pose proof (Z.pow_pos_nonneg 2 (Zdigits2 m - n - 1)). lia. }
  split; [exact Hq|].
  pose proof (Zdigits2_ge (m / 2 ^ n) (Zdigits2 m - n - 1)).
  pose proof (Zdigits2_le (m / 2 ^ n) (Zdigits2 m - n)). lia.
Qed.

Lemma shr_1_div (mrs : shr_record) :
  0 <= shr_m mrs -> shr_m (shr_1 mrs) = shr_m mrs / 2.
Proof.
  destruct mrs as [m r s]. cbn [shr_m]. intro H.
  destruct m as [|[p|p|]|p]; cbn [shr_1 shr_m]; try lia.
  - reflexivity.
  - rewrite Pos2Z.inj_xI. apply (Z.div_unique _ 2 _ 1); lia.
  - rewrite Pos2Z.inj_xO. apply (Z.div_unique _ 2 _ 0); lia.
  - reflexivity.
Qed.

Lemma iter_shr_1_div (p : positive) (mrs : shr_record) :
  0 <= shr_m mrs -> shr_m (iter_pos shr_1 p mrs) = shr_m mrs / 2 ^ Zpos p.
Proof.
  revert mrs. induction p as [p IH|p IH|]; intros mrs H; cbn [iter_pos].
  - assert (Hp : 0 < 2 ^ Zpos p) by (apply Z.pow_pos_nonneg; lia).
    rewrite IH by (apply RoundFacts.iter_shr_1_nonneg, RoundFacts.shr_1_nonneg, H).
    rewrite IH by (apply RoundFacts.shr_1_nonneg, H).
    rewrite shr_1_div by exact H.
    rewrite !Z.div_div by lia.
    replace (Zpos p~1) with (1 + Zpos p + Zpos p) by lia.
    rewrite !Z.pow_add_r by lia. f_equal. lia.
  - assert (Hp : 0 < 2 ^ Zpos p) by (apply Z.pow_pos_nonneg; lia).
    rewrite IH by (apply RoundFacts.iter_shr_1_nonneg, H).
    rewrite IH by exact H.
    rewrite Z.div_div by lia.
    replace (Zpos p~0) with (Zpos p + Zpos p) by lia.
    rewrite Z.pow_add_r by lia. reflexivity.
  - rewrite shr_1_div by exact H. reflexivity.
Qed.

Lemma round_nearest_even_bounds (m : Z) (l : location) :
  m <= round_nearest_even m l <= m + 1.
Proof.
  destruct l as [|[ | | ]]; cbn [round_nearest_even]; try lia.
  destruct (Z.even m); lia.
Qed.

Section Magnitude.

Variables prec emax : Z.
Hypothesis prec_pos : 0 < prec.

(** A magnitude above the smallest subnormal keeps its number of bits
    plus exponent when it is brought to the format's exponent. *)
Lemma shr_fexp_magnitude (m e : Z) (l : location) :
  0 < m -> SpecFloat.emin prec emax < Zdigits2 m + e ->
  0 < shr_m (fst (shr_fexp prec emax m e l)) /\
  Zdigits2 (shr_m (fst (shr_fexp prec emax m e l))) + snd (shr_fexp prec emax m e l)
    = Zdigits2 m + e.
Proof.
  intros Hm He. unfold shr_fexp, shr.
  assert (H0 : shr_m (shr_record_of_loc m l) = m) by (destruct l as [|[ | | ]]; reflexivity).
  assert (Hn : fexp prec emax (Zdigits2 m + e) - e < Zdigits2 m).
  { unfold fexp. lia. }
  destruct (fexp prec emax (Zdigits2 m + e) - e) as [|n|n] eqn:En;
    cbn [fst snd]; rewrite ?H0; try (split; [exact Hm|reflexivity]).
  rewrite iter_shr_1_div by (rewrite H0; lia). rewrite H0.
  destruct (Zdigits2_shift m (Zpos n)) as [Hq Hd]; [exact Hm|lia|].
  split; [exact Hq|]. rewrite Hd. lia.
Qed.

(** Rounding a magnitude above the smallest subnormal gives an infinity or
    a finite number that is not zero, of at least that order of magnitude. *)
Lemma binary_round_aux_magnitude (sx : bool) (mx ex : Z) (lx : location) :
  0 < mx -> SpecFloat.emin prec emax < Zdigits2 mx + ex ->
  binary_round_aux prec emax sx mx ex lx = S754_infinity sx \/
  exists m e, binary_round_aux prec emax sx mx ex lx = S754_finite sx m e /\
              Zdigits2 mx + ex <= Zpos (digits2_pos m) + e.
Proof.
  intros Hm He. unfold binary_round_aux.
  destruct (shr_fexp_magnitude mx ex lx Hm He) as [H1 H2].
  destruct (shr_fexp prec emax mx ex lx) as [mrs' e']. cbn [fst snd] in H1, H2.
  pose proof (round_nearest_even_bounds (shr_m mrs') (loc_of_shr_record mrs')) as Hr.
  set (m1 := round_nearest_even (shr_m mrs') (loc_of_shr_record mrs')) in *.
  assert (Hm1 : 0 < m1) by lia.
  assert (Hd1 : Zdigits2 (shr_m mrs') <= Zdigits2 m1) by (apply Zdigits2_mono; lia).
  destruct (shr_fexp_magnitude m1 e' loc_Exact Hm1) as [H3 H4]; [lia|].
  destruct (shr_fexp prec emax m1 e' loc_Exact) as [mrs'' e'']. cbn [fst snd] in H3, H4.
  destruct (shr_m mrs'') as [|m|m] eqn:Em; try lia.
  destruct (e'' <=? emax - prec); [right|left; reflexivity].
  exists m, e''. split; [reflexivity|]. cbn [Zdigits2] in H4. lia.
Qed.

End Magnitude.

End MagnitudeFacts.

(* ================================================================== *)
(** ** Orders of magnitude through the arithmetic *)
(* ================================================================== *)

Module ArithFacts.

Lemma emin_double : SpecFloat.emin Num.prec Num.emax = -1074.
Proof. reflexivity. Qed.

Lemma shift_left_value (m d : positive) :
  Zpos (Pos.iter xO m d) = Zpos m * 2 ^ Zpos d.
Proof.
  induction d as [|d IH] using Pos.peano_ind.
  - cbn. lia.
  - rewrite Pos.iter_succ, Pos2Z.inj_xO, IH, Pos2Z.inj_succ, Z.pow_succ_r by lia. lia.
Qed.

(** Aligning to a smaller exponent keeps the value. *)
Lemma shl_align_value (m : positive) (e e0 : Z) :
  e0 <= e ->
  Zpos (fst (shl_align m e e0)) = Zpos m * 2 ^ (e - e0) /\
  snd (shl_align m e e0) = e0.
Proof.
  intro H. unfold shl_align.
  destruct (e0 - e) as [|d|d] eqn:Ed; cbn [fst snd]; try lia.
  - replace (e - e0) with 0 by lia. cbn. lia.
  - rewrite shift_left_value. replace (e - e0) with (Zpos d) by lia. lia.
Qed.

Lemma shl_align_ge (m : positive) (e e0 : Z) :
  Zpos (digits2_pos m) + e <=
    Zpos (digits2_pos (fst (shl_align m e e0))) + snd (shl_align m e e0).
Proof.
  unfold shl_align.
  destruct (e0 - e) as [|d|d] eqn:Ed; cbn [fst snd]; try lia.
  pose proof (MagnitudeFacts.digits2_lower m) as Hl.
  pose proof (MagnitudeFacts.Zdigits2_ge (Zpos (Pos.iter xO m d))
                (Zpos (digits2_pos m) - 1 + Zpos d)) as Hg.
  cbn [Zdigits2] in Hg. rewrite shift_left_value in Hg.
  rewrite Z.pow_add_r in Hg by lia.
  assert (0 < 2 ^ Zpos d) by (apply Z.pow_pos_nonneg; lia).
  assert (2 ^ (Zpos (digits2_pos m) - 1) * 2 ^ Zpos d <= Zpos m * 2 ^ Zpos d) by nia.
  lia.
Qed.

Lemma binary_round_reaches (s : bool) (m : positive) (e : Z) :
  -1074 <= e ->
  reaches s (Zpos (digits2_pos m) + e) (binary_round Num.prec Num.emax s m e).
Proof.
  intro He. unfold binary_round.
  pose proof (shl_align_ge m e (fexp Num.prec Num.emax (Zpos (digits2_pos m) + e))) as Hg.
  destruct (shl_align m e (fexp Num.prec Num.emax (Zpos (digits2_pos m) + e)))
    as [mz ez]. cbn [fst snd] in Hg.
  destruct (MagnitudeFacts.binary_round_aux_magnitude Num.prec Num.emax eq_refl
              s (Zpos mz) ez loc_Exact) as [Hi|(mr & er & Hr & Hm)].
  - lia.
  - cbn [Zdigits2]. rewrite emin_double. lia.
  - left. exact Hi.
  - right. exists mr, er. split; [exact Hr|]. cbn [Zdigits2] in Hm. lia.
Qed.

(** The quotient by a finite number: the orders of magnitude subtract. *)
Lemma div_reaches (sx sy : bool) (k : Z) (x : number) (my : positive) (ey : Z) :
  reaches sx k x ->
  -1074 < k - (Zpos (digits2_pos my) + ey) ->
  reaches (xorb sx sy) (k - (Zpos (digits2_pos my) + ey))
    (Num.div x (S754_finite sy my ey)).
Proof.
  intros [->|(mx & ex & -> & Hk)] HM; [left; reflexivity|].
  unfold Num.div. cbn [SFdiv]. unfold SFdiv_core_binary. cbn [Zdigits2].
  set (d1 := Zpos (digits2_pos mx)) in *. set (d2 := Zpos (digits2_pos my)) in *.
  set (e' := Z.min (fexp Num.prec Num.emax (d1 + ex - (d2 + ey))) (ex - ey)).
  assert (He' : e' <= ex - ey /\ e' <= Z.max (d1 + ex - (d2 + ey) - 53) (-1074)).
  { subst e'. unfold fexp, emin, Num.prec, Num.emax. lia. }
  set (s := ex - ey - e').
  set (m' := match s with Z0 => Zpos mx | Zpos _ => Z.shiftl (Zpos mx) s | Zneg _ => 0 end).
  assert (Hm' : m' = Zpos mx * 2 ^ s).
  { assert (Hs : 0 <= s) by (subst s; lia).
    subst m'. destruct s as [|p|p] eqn:Es.
    - rewrite Z.pow_0_r. lia.
    - apply Z.shiftl_mul_pow2. lia.
    - lia. }
  pose proof (Z_div_mod m' (Zpos my) eq_refl) as Hd.
  destruct (Z.div_eucl m' (Zpos my)) as [q r].
  pose proof (MagnitudeFacts.digits2_lower mx) as Hl1. fold d1 in Hl1.
  pose proof (NumFacts.digits2_bound my) as Hu2. fold d2 in Hu2.
  assert (Hj : 0 <= d1 - 1 + s - d2) by (subst s; lia).
  assert (Hq : 2 ^ (d1 - 1 + s - d2) <= q).
  { assert (Hp : 2 ^ (d1 - 1 + s) <= m').
    { rewrite Hm', Z.pow_add_r by (subst d1 s; lia).
      assert (0 < 2 ^ s) by (apply Z.pow_pos_nonneg; subst s; lia). nia. }
    assert (Hlt : Zpos my * 2 ^ (d1 - 1 + s - d2) < 2 ^ (d1 - 1 + s)).
    { replace (d1 - 1 + s) with (d2 + (d1 - 1 + s - d2)) at 2 by lia.
      rewrite Z.pow_add_r by (subst d2; lia).
      assert (0 < 2 ^ (d1 - 1 + s - d2)) by (apply Z.pow_pos_nonneg; lia). nia. }
    destruct (Z_lt_le_dec q (2 ^ (d1 - 1 + s - d2))) as [Hc|]; [|lia].
    exfalso. nia. }
  pose proof (MagnitudeFacts.Zdigits2_ge q (d1 - 1 + s - d2) Hj Hq) as Hdq.
  assert (0 < q) by (pose proof (Z.pow_pos_nonneg 2 (d1 - 1 + s - d2)); lia).
  destruct (MagnitudeFacts.binary_round_aux_magnitude Num.prec Num.emax eq_refl
              (xorb sx sy) q e' (new_location (Zpos my) r))
    as [Hi|(mr & er & Hr & Hm)].
  - lia.
  - rewrite emin_double. subst s. lia.
  - left. exact Hi.
  - right. exists mr, er. split; [exact Hr|]. subst s. lia.
Qed.

(** The product with a finite number: the orders of magnitude add, less
    one. *)
Lemma mul_reaches (sx sy : bool) (k : Z) (x : number) (my : positive) (ey : Z) :
  reaches sx k x ->
  -1074 < k + (Zpos (digits2_pos my) + ey) - 1 ->
  reaches (xorb sx sy) (k + (Zpos (digits2_pos my) + ey) - 1)
    (Num.mul x (S754_finite sy my ey)).
Proof.
  intros [->|(mx & ex & -> & Hk)] HM; [left; reflexivity|].
  unfold Num.mul. cbn [SFmul].
  pose proof (MagnitudeFacts.digits2_lower mx) as Hl1.
  pose proof (MagnitudeFacts.digits2_lower my) as Hl2.
  set (d1 := Zpos (digits2_pos mx)) in *. set (d2 := Zpos (digits2_pos my)) in *.
  assert (Hp : 2 ^ (d1 - 1 + (d2 - 1)) <= Zpos (mx * my)).
  { rewrite Z.pow_add_r by (subst d1 d2; lia). rewrite Pos2Z.inj_mul.
    assert (0 < 2 ^ (d1 - 1)) by (apply Z.pow_pos_nonneg; subst d1; lia).
    assert (0 < 2 ^ (d2 - 1)) by (apply Z.pow_pos_nonneg; subst d2; lia).
    nia. }
  pose proof (MagnitudeFacts.Zdigits2_ge (Zpos (mx * my)) (d1 - 1 + (d2 - 1))) as Hd.
  assert (Hd' : d1 - 1 + (d2 - 1) + 1 <= Zdigits2 (Zpos (mx * my)))
    by (apply Hd; [subst d1 d2; lia|exact Hp]).
  destruct (MagnitudeFacts.binary_round_aux_magnitude Num.prec Num.emax eq_refl
              (xorb sx sy) (Zpos (mx * my)) (ex + ey) loc_Exact)
    as [Hi|(mr & er & Hr & Hm)].
  - lia.
  - rewrite emin_double. lia.
  - left. exact Hi.
  - right. exists mr, er. split; [exact Hr|]. lia.
Qed.

End ArithFacts.

(* ================================================================== *)
(** ** Profit against the order of the two prices *)
(* ================================================================== *)

Module ProfitFacts.

Lemma valid_exponent (s : bool) (m : positive) (e : Z) :
  Num.valid (S754_finite s m e) = true -> -1074 <= e.
Proof.
  unfold Num.valid, valid_binary, bounded, canonical_mantissa, fexp, emin,
    Num.prec, Num.emax.
  intro H. apply andb_true_iff in H as [H1 _]. apply Z.eqb_eq in H1. lia.
Qed.

(** Above the smallest exponent the mantissa has all its 53 bits. *)
Lemma valid_normal (s : bool) (m : positive) (e : Z) :
  Num.valid (S754_finite s m e) = true -> -1074 < e -> 2 ^ 52 <= Zpos m.
Proof.
  unfold Num.valid, valid_binary, bounded, canonical_mantissa, fexp, emin,
    Num.prec, Num.emax.
  intros H He. apply andb_true_iff in H as [H1 _]. apply Z.eqb_eq in H1.
  assert (Hd : Zpos (digits2_pos m) = 53) by lia.
  pose proof (MagnitudeFacts.digits2_lower m) as Hl. rewrite Hd in Hl. exact Hl.
Qed.

Lemma sub_finite_value (mc me : positive) (ec ee : Z) :
  Num.sub (S754_finite false mc ec) (S754_finite false me ee) =
  binary_normalize Num.prec Num.emax
    (Zpos mc * 2 ^ (ec - Z.min ec ee) - Zpos me * 2 ^ (ee - Z.min ec ee))
    (Z.min ec ee) false.
Proof.
  unfold Num.sub. cbn [SFsub cond_Zopp].
  destruct (ArithFacts.shl_align_value mc ec (Z.min ec ee)) as [-> _]; [lia|].
  destruct (ArithFacts.shl_align_value me ee (Z.min ec ee)) as [-> _]; [lia|].
  reflexivity.
Qed.

(** The larger exponent wins: a number with all its bits, scaled by at
    least 2, exceeds any 53-bit mantissa, by at least half the scale. *)
Lemma scaled_exceeds (a b t : Z) :
  2 ^ 52 <= a -> 0 < b < 2 ^ 53 -> 1 <= t ->
  2 ^ (t - 1) <= a * 2 ^ t - b.
Proof.
  intros Ha Hb Ht.
  replace t with (Z.succ (t - 1)) at 2 by lia.
  rewrite Z.pow_succ_r by lia.
  assert (Hp : 0 < 2 ^ (t - 1)) by (apply Z.pow_pos_nonneg; lia).
  change (2 ^ 53) with (2 * 2 ^ 52) in Hb.
  set (P := 2 ^ (t - 1)) in *. set (Q := 2 ^ 52) in *.
  assert (0 < Q) by (subst Q; reflexivity).
  nia.
Qed.

Lemma difference_of_prices (mc me : positive) (ec ee : Z) :
  Num.valid (S754_finite false mc ec) = true ->
  Num.valid (S754_finite false me ee) = true ->
  let D := Zpos mc * 2 ^ (ec - Z.min ec ee) - Zpos me * 2 ^ (ee - Z.min ec ee) in
  (Num.ge (S754_finite false mc ec) (S754_finite false me ee) = true ->
     (mc = me /\ ec = ee /\ D = 0) \/
     (0 < D /\ ee + 1 <= Zdigits2 D + Z.min ec ee)) /\
  (Num.ge (S754_finite false mc ec) (S754_finite false me ee) = false ->
     D < 0 /\ ee <= Zdigits2 (- D) + Z.min ec ee).
Proof.
  intros Vc Ve D.
  pose proof (valid_exponent _ _ _ Vc) as Hec.
  pose proof (valid_exponent _ _ _ Ve) as Hee.
  destruct (NumFacts.valid_finite _ _ _ Vc) as [Hmc _].
  destruct (NumFacts.valid_finite _ _ _ Ve) as [Hme _].
  unfold Num.ge, SFleb, SFcompare.
  destruct (Z.compare_spec ee ec) as [Heq|Hlt|Hgt].
  - subst ec. subst D. rewrite Z.min_id, Z.sub_diag, Z.pow_0_r, !Z.mul_1_r.
    change (Pos.compare_cont Eq me mc) with (Pos.compare me mc).
    destruct (Pos.compare_spec me mc) as [E|E|E]; split; intro H;
      try discriminate H.
    + left. subst mc. repeat split. lia.
    + right. split; [lia|].
      pose proof (MagnitudeFacts.Zdigits2_ge (Zpos mc - Zpos me) 0).
      assert (2 ^ 0 <= Zpos mc - Zpos me) by (rewrite Z.pow_0_r; lia). lia.
    + split; [lia|].
      pose proof (MagnitudeFacts.Zdigits2_ge (- (Zpos mc - Zpos me)) 0).
      assert (2 ^ 0 <= - (Zpos mc - Zpos me)) by (rewrite Z.pow_0_r; lia). lia.
  - split; intro H; [|discriminate H]. right.
    pose proof (valid_normal _ _ _ Vc) as Hn.
    subst D. rewrite (Z.min_r ec ee), Z.sub_diag, Z.pow_0_r, Z.mul_1_r by lia.
    pose proof (scaled_exceeds (Zpos mc) (Zpos me) (ec - ee)) as Hs.
    assert (Hp : 0 < 2 ^ (ec - ee - 1)) by (apply Z.pow_pos_nonneg; lia).
    split; [lia|].
    pose proof (MagnitudeFacts.Zdigits2_ge (Zpos mc * 2 ^ (ec - ee) - Zpos me) 0).
    assert (2 ^ 0 <= Zpos mc * 2 ^ (ec - ee) - Zpos me) by (rewrite Z.pow_0_r; lia).
    lia.
  - split; intro H; [discriminate H|].
    pose proof (valid_normal _ _ _ Ve) as Hn.
    subst D. rewrite (Z.min_l ec ee), Z.sub_diag, Z.pow_0_r, Z.mul_1_r by lia.
    pose proof (scaled_exceeds (Zpos me) (Zpos mc) (ee - ec)) as Hs.
    assert (Hp : 0 < 2 ^ (ee - ec - 1)) by (apply Z.pow_pos_nonneg; lia).
    split; [lia|].
    pose proof (MagnitudeFacts.Zdigits2_ge
                  (- (Zpos mc - Zpos me * 2 ^ (ee - ec))) (ee - ec - 1)). lia.
Qed.

Lemma reaches_weaken (s : bool) (k k' : Z) (x : number) :
  reaches s k x -> k' <= k -> reaches s k' x.
Proof.
  intros [H|(m & e & H & Hk)] Hle; [left; exact H|].
  right. exists m, e. split; [exact H|lia].
Qed.

Lemma reaches_negative (k : Z) (x : number) :
  reaches true k x -> Num.ge x Num.zero = false.
Proof. intros [->|(m & e & -> & _)]; reflexivity. Qed.

Lemma positive_sign (x : number) :
  signBit x = Some false -> Num.ge x Num.zero = true.
Proof. destruct x as [[|]|[|]| |[|] m e]; intro H; try discriminate H; reflexivity. Qed.

Lemma hundred : exists m e,
  Num.ofZ 100 = S754_finite false m e /\ Zpos (digits2_pos m) + e = 7.
Proof. eexists. eexists. split; vm_compute; reflexivity. Qed.

(** The quotient by the entry price, times 100: the order of magnitude of
    the difference, less that of the entry price, plus 6. *)
Lemma percentage_reaches (s : bool) (k : Z) (x : number) (me : positive) (ee : Z) :
  reaches s k x -> ee <= k -> Zpos (digits2_pos me) <= 53 ->
  reaches s (-47)
    (Num.mul (Num.div x (S754_finite false me ee)) (Num.ofZ 100)).
Proof.
  intros Hx Hk Hd. destruct hundred as (m & e & -> & Hh).
  apply (reaches_weaken s
           (k - (Zpos (digits2_pos me) + ee) + (Zpos (digits2_pos m) + e) - 1));
    [|lia].
  replace s with (xorb (xorb s false) false) at 1 by (now destruct s).
  apply ArithFacts.mul_reaches; [|lia].
  apply ArithFacts.div_reaches; [exact Hx|lia].
Qed.

Lemma mantissa_bits (s : bool) (m : positive) (e : Z) :
  Num.valid (S754_finite s m e) = true -> Zpos (digits2_pos m) <= 53.
Proof.
  unfold Num.valid, valid_binary, bounded, canonical_mantissa, fexp, emin,
    Num.prec, Num.emax.
  intro H. apply andb_true_iff in H as [H1 _]. apply Z.eqb_eq in H1. lia.
Qed.

Lemma zero_percentage (me : positive) (ee : Z) :
  Num.mul (Num.div (S754_zero false) (S754_finite false me ee)) (Num.ofZ 100)
  = Num.zero.
Proof. destruct hundred as (m & e & -> & _). reflexivity. Qed.

(** The raw percentage of two prices as the route accepts them: exactly 0
    for equal prices, above 0 and not infinitesimal when the current price
    is the larger, below 0 likewise when it is the smaller. *)
Lemma rawPercentage_cases (e c : number) :
  Num.valid e = true -> Num.valid c = true ->
  Num.isFinite e = true -> Num.isFinite c = true ->
  Num.gt e Num.zero = true -> Num.ge c Num.zero = true ->
  (Num.ge c e = true /\ c = e /\ rawPercentage e c = Num.zero) \/
  (Num.ge c e = true /\ c <> e /\ reaches false (-47) (rawPercentage e c)) \/
  (Num.ge c e = false /\ c <> e /\ reaches true (-47) (rawPercentage e c)).
Proof.
  intros Ve Vc Fe Fc He Hc. unfold rawPercentage.
  destruct e as [se|se| |se me ee]; try discriminate Fe;
    [destruct se; discriminate He|].
  destruct se; [discriminate He|].
  pose proof (mantissa_bits _ _ _ Ve) as Hbits.
  destruct c as [sc|sc| |sc mc ec]; try discriminate Fc.
  - right. right. split; [destruct sc; reflexivity|]. split; [discriminate|].
    apply (percentage_reaches true (Zpos (digits2_pos me) + ee)); [|lia|exact Hbits].
    right. exists me, ee. split; [reflexivity|lia].
  - destruct sc; [discriminate Hc|].
    destruct (difference_of_prices mc me ec ee Vc Ve) as [Hge Hlt].
    pose proof (valid_exponent _ _ _ Vc). pose proof (valid_exponent _ _ _ Ve).
    rewrite sub_finite_value.
    destruct (Num.ge (S754_finite false mc ec) (S754_finite false me ee)).
    + destruct (Hge eq_refl) as [(-> & -> & HD)|(HD & Hmag)].
      * left. split; [reflexivity|]. split; [reflexivity|].
        rewrite HD. apply zero_percentage.
      * right. left. split; [reflexivity|]. split.
        { intro E. injection E as -> ->.
          rewrite Z.min_id, Z.sub_diag in HD. lia. }
        destruct (Zpos mc * 2 ^ (ec - Z.min ec ee) - Zpos me * 2 ^ (ee - Z.min ec ee))
          as [|p|p]; try lia.
        cbn [binary_normalize]. cbn [Zdigits2] in Hmag.
        apply (percentage_reaches false (Zpos (digits2_pos p) + Z.min ec ee));
          [apply ArithFacts.binary_round_reaches; lia|lia|exact Hbits].
    + right. right. split; [reflexivity|].
      destruct (Hlt eq_refl) as [Hneg Hmag]. split.
      { intro E. injection E as -> ->.
        rewrite Z.min_id, Z.sub_diag in Hneg. lia. }
      destruct (Zpos mc * 2 ^ (ec - Z.min ec ee) - Zpos me * 2 ^ (ee - Z.min ec ee))
        as [|p|p]; try lia.
      cbn [binary_normalize]. cbn [Z.opp Zdigits2] in Hmag.
      apply (percentage_reaches true (Zpos (digits2_pos p) + Z.min ec ee));
        [apply ArithFacts.binary_round_reaches; lia|lia|exact Hbits].
Qed.

End ProfitFacts.

Section ProfitOrder.

Variable toLocaleString : number -> option nat -> string.

(** X19 (src/utils/pnlCalculator.ts, calculatePnL).  For prices as the
    route accepts them, finite with the entry above 0 and the current one
    at least 0, rounding never hides the direction of the move: [isProfit]
    holds exactly when the current price is at least the entry price, the
    raw percentage is 0 exactly when the two prices are equal, and it is
    never NaN nor a negative zero.  Equal prices give 0 and "+0.0000%". *)
Theorem profit_follows_price_order (e c : number) :
  Num.valid e = true -> Num.valid c = true ->
  Num.isFinite e = true -> Num.isFinite c = true ->
  Num.gt e Num.zero = true -> Num.ge c Num.zero = true ->
  exists r,
    calculatePnL toLocaleString e c = Result r /\
    isProfit r = Num.ge c e /\
    (rawPercentage e c = Num.zero <-> c = e) /\
    rawPercentage e c <> S754_nan /\
    rawPercentage e c <> Num.negzero /\
    (c = e -> r = {| percentageGain := Num.zero; isProfit := true;
                     formattedGain := "+0.0000%" |}).
Proof.
  intros Ve Vc Fe Fc He Hc. rewrite calculatePnL_cases.
  rewrite (NumFacts.gt_not_le _ _ He), (NumFacts.ge_not_lt _ _ Hc).
  eexists. split; [reflexivity|]. cbn [isProfit].
  destruct (ProfitFacts.rawPercentage_cases e c Ve Vc Fe Fc He Hc)
    as [(Hge & Heq & Hz)|[(Hge & Hne & Hr)|(Hge & Hne & Hr)]].
  - rewrite Hz, Hge. split; [reflexivity|]. split; [tauto|].
    split; [discriminate|]. split; [discriminate|]. intros _. reflexivity.
  - rewrite Hge.
    destruct Hr as [Hr|(m & x & Hr & _)]; rewrite Hr;
      (split; [reflexivity|]); (split; [split; [discriminate|tauto]|]);
      (split; [discriminate|]); (split; [discriminate|tauto]).
  - rewrite Hge.
    destruct Hr as [Hr|(m & x & Hr & _)]; rewrite Hr;
      (split; [reflexivity|]); (split; [split; [discriminate|tauto]|]);
      (split; [discriminate|]); (split; [discriminate|tauto]).
Qed.

End ProfitOrder.

Lemma profit_follows_price_order_witness :
  exists r,
    calculatePnL enUS_toLocaleString (Num.ofZ 10000000) (Num.ofZ 9999999) = Result r /\
    isProfit r = false.
Proof.
  destruct (profit_follows_price_order enUS_toLocaleString
              (Num.ofZ 10000000) (Num.ofZ 9999999)
              eq_refl eq_refl eq_refl eq_refl eq_refl eq_refl)
    as (r & Hr & Hp & _).
  exists r. split; [exact Hr|exact Hp].
Defined.

(* ================================================================== *)
(** ** No overflow: upper bounds through the arithmetic *)
(* ================================================================== *)

Module BoundFacts.

Lemma Zdigits2_nonneg (m : Z) : 0 <= Zdigits2 m.
Proof. destruct m; cbn; lia. Qed.

Lemma Zdigits2_succ (m : Z) : 0 <= m -> Zdigits2 (m + 1) <= Zdigits2 m + 1.
Proof.
  intro H. destruct (Z.eq_dec m 0) as [->|Hn]; [cbn; lia|].
  destruct (MagnitudeFacts.Zdigits2_bounds m) as (Hd & _ & Hu); [lia|].
  apply MagnitudeFacts.Zdigits2_le; [lia|lia|].
  rewrite Z.pow_add_r by lia. change (2 ^ 1) with 2. lia.
Qed.

(** Dropping [n] low bits leaves at most [d - n] bits, or none. *)
Lemma Zdigits2_shift_le (m n : Z) :
  0 <= m -> 0 <= n -> Zdigits2 (m / 2 ^ n) <= Z.max (Zdigits2 m - n) 0.
Proof.
  intros Hm Hn. destruct (Z.eq_dec m 0) as [->|Hne].
  - rewrite Z.div_0_l; [cbn; lia|]. apply Z.pow_nonzero; lia.
  - destruct (Z_lt_le_dec n (Zdigits2 m)) as [Hlt|Hge].
    + destruct (MagnitudeFacts.Zdigits2_shift m n) as [_ ->]; lia.
    + destruct (MagnitudeFacts.Zdigits2_bounds m) as (_ & _ & Hu); [lia|].
      pose proof (Z.pow_le_mono_r 2 (Zdigits2 m) n).
      rewrite Z.div_small by lia. cbn. lia.
Qed.

Section Bounds.

Variables prec emax : Z.
Hypothesis prec_pos : 0 < prec.

Lemma shr_fexp_upper (m e : Z) (l : location) :
  0 <= m ->
  0 <= shr_m (fst (shr_fexp prec emax m e l)) /\
  snd (shr_fexp prec emax m e l) = Z.max e (fexp prec emax (Zdigits2 m + e)) /\
  Zdigits2 (shr_m (fst (shr_fexp prec emax m e l))) + snd (shr_fexp prec emax m e l)
    <= Z.max (Zdigits2 m + e) (snd (shr_fexp prec emax m e l)).
Proof.
  intro Hm. split; [apply RoundFacts.shr_fexp_nonneg, Hm|].
  unfold shr_fexp, shr.
  assert (H0 : shr_m (shr_record_of_loc m l) = m) by (destruct l as [|[ | | ]]; reflexivity).
  destruct (fexp prec emax (Zdigits2 m + e) - e) as [|n|n] eqn:En;
    cbn [fst snd]; rewrite ?H0; try (split; lia).
  rewrite MagnitudeFacts.iter_shr_1_div by (rewrite H0; exact Hm). rewrite H0.
  pose proof (Zdigits2_shift_le m (Zpos n) Hm). 
  pose proof (Zdigits2_nonneg m). split; lia.
Qed.

(** Rounding a magnitude below [2^k], for [k] in the range of the format,
    does not overflow and stays below [2^(k+1)]. *)
Lemma binary_round_aux_within (sx : bool) (mx ex k : Z) (lx : location) :
  0 <= mx -> Zdigits2 mx + ex <= k -> ex < k ->
  SpecFloat.emin prec emax <= k -> k <= emax - prec ->
  within (k + 1) (binary_round_aux prec emax sx mx ex lx).
Proof.
  intros Hm Hk Hex Hmin Hmax. unfold binary_round_aux.
  destruct (shr_fexp_upper mx ex lx Hm) as (H1 & E1 & U1).
  destruct (shr_fexp prec emax mx ex lx) as [mrs' e']. cbn [fst snd] in H1, E1, U1.
  pose proof (MagnitudeFacts.round_nearest_even_bounds
                (shr_m mrs') (loc_of_shr_record mrs')) as Hr.
  set (m1 := round_nearest_even (shr_m mrs') (loc_of_shr_record mrs')) in *.
  assert (Hm1 : 0 <= m1) by lia.
  assert (Hd1 : Zdigits2 m1 <= Zdigits2 (shr_m mrs') + 1).
  { destruct (Z.eq_dec m1 (shr_m mrs')) as [->|]; [lia|].
    replace m1 with (shr_m mrs' + 1) by lia. apply Zdigits2_succ, H1. }
  destruct (shr_fexp_upper m1 e' loc_Exact Hm1) as (H3 & E3 & U3).
  destruct (shr_fexp prec emax m1 e' loc_Exact) as [mrs'' e'']. cbn [fst snd] in H3, E3, U3.
  unfold fexp in E1, E3. fold (SpecFloat.emin prec emax) in E1, E3.
  destruct (shr_m mrs'') as [|m|m] eqn:Em; [exact I| |lia].
  cbn [Zdigits2] in U3.
  assert (He'' : e'' <= emax - prec) by lia.
  apply Z.leb_le in He''. rewrite He''. cbn [within]. lia.
Qed.

End Bounds.

Lemma shl_align_le (m : positive) (e e0 : Z) :
  Zpos (digits2_pos (fst (shl_align m e e0))) + snd (shl_align m e e0)
    <= Zpos (digits2_pos m) + e.
Proof.
  unfold shl_align.
  destruct (e0 - e) as [|d|d] eqn:Ed; cbn [fst snd]; try lia.
  pose proof (NumFacts.digits2_bound m) as Hu.
  pose proof (MagnitudeFacts.Zdigits2_le (Zpos (Pos.iter xO m d))
                (Zpos (digits2_pos m) + Zpos d)) as Hg.
  cbn [Zdigits2] in Hg. rewrite ArithFacts.shift_left_value in Hg.
  rewrite Z.pow_add_r in Hg by lia.
  assert (0 < 2 ^ Zpos d) by (apply Z.pow_pos_nonneg; lia).
  assert (Zpos m * 2 ^ Zpos d < 2 ^ Zpos (digits2_pos m) * 2 ^ Zpos d) by nia.
  lia.
Qed.

Lemma binary_round_within (s : bool) (m : positive) (e k : Z) :
  Zpos (digits2_pos m) + e <= k -> -1074 <= k -> k <= 971 ->
  within (k + 1) (binary_round Num.prec Num.emax s m e).
Proof.
  intros Hk Hmin Hmax. unfold binary_round.
  pose proof (shl_align_le m e (fexp Num.prec Num.emax (Zpos (digits2_pos m) + e))) as Hg.
  destruct (shl_align m e (fexp Num.prec Num.emax (Zpos (digits2_pos m) + e)))
    as [mz ez]. cbn [fst snd] in Hg.
  apply (binary_round_aux_within Num.prec Num.emax eq_refl); cbn [Zdigits2];
    rewrite ?ArithFacts.emin_double; unfold Num.prec, Num.emax; lia.
Qed.

Lemma binary_normalize_within (z e k : Z) (szero : bool) :
  Zdigits2 z + e <= k -> -1074 <= k -> k <= 971 ->
  within (k + 1) (binary_normalize Num.prec Num.emax z e szero).
Proof.
  intros Hk Hmin Hmax.
  destruct z as [|p|p]; cbn [binary_normalize]; [exact I| |];
    apply binary_round_within; cbn [Zdigits2] in Hk; lia.
Qed.

(** The product of two numbers below [2^k] and [2^j] is below [2^(k+j+1)],
    and finite as long as that is in range. *)
Lemma mul_within (k j : Z) (x y : number) :
  within k x -> within j y -> -1074 <= k + j -> k + j <= 971 ->
  within (k + j + 1) (Num.mul x y).
Proof.
  unfold Num.mul.
  destruct x as [sx|sx| |sx mx ex], y as [sy|sy| |sy my ey]; cbn [within SFmul];
    intros Hx Hy Hmin Hmax; try contradiction; try exact I.
  pose proof (NumFacts.digits2_bound mx) as Hu1.
  pose proof (NumFacts.digits2_bound my) as Hu2.
  set (d1 := Zpos (digits2_pos mx)) in *. set (d2 := Zpos (digits2_pos my)) in *.
  assert (Hd : Zdigits2 (Zpos (mx * my)) <= d1 + d2).
  { apply MagnitudeFacts.Zdigits2_le; [lia|subst d1 d2; lia|].
    rewrite Z.pow_add_r by (subst d1 d2; lia). rewrite Pos2Z.inj_mul. nia. }
  apply (binary_round_aux_within Num.prec Num.emax eq_refl);
    rewrite ?ArithFacts.emin_double; unfold Num.prec, Num.emax; subst d1 d2; lia.
Qed.

(** The quotient of a number below [2^k] by a finite one of at least [j]
    bits above the binary point is below [2^(k-j+2)], and finite as long
    as that is in range. *)
Lemma div_within (k j : Z) (x : number) (sy : bool) (my : positive) (ey : Z) :
  within k x -> j <= Zpos (digits2_pos my) + ey ->
  -1074 <= k - j -> k - j + 1 <= 971 ->
  within (k - j + 2) (Num.div x (S754_finite sy my ey)).
Proof.
  unfold Num.div.
  destruct x as [sx|sx| |sx mx ex]; cbn [within SFdiv];
    intros Hx Hy Hmin Hmax; try contradiction; try exact I.
  unfold SFdiv_core_binary. cbn [Zdigits2].
  set (d1 := Zpos (digits2_pos mx)) in *. set (d2 := Zpos (digits2_pos my)) in *.
  set (e' := Z.min (fexp Num.prec Num.emax (d1 + ex - (d2 + ey))) (ex - ey)).
  assert (He' : e' <= ex - ey /\ e' <= Z.max (d1 + ex - (d2 + ey) - 53) (-1074)).
  { subst e'. unfold fexp, emin, Num.prec, Num.emax. lia. }
  set (s := ex - ey - e').
  assert (Hs : 0 <= s) by (subst s; lia).
  set (m' := match s with Z0 => Zpos mx | Zpos _ => Z.shiftl (Zpos mx) s | Zneg _ => 0 end).
  assert (Hm' : m' = Zpos mx * 2 ^ s).
  { subst m'. destruct s as [|p|p] eqn:Es.
    - rewrite Z.pow_0_r. lia.
    - apply Z.shiftl_mul_pow2. lia.
    - lia. }
  pose proof (Z_div_mod m' (Zpos my) eq_refl) as Hd.
  destruct (Z.div_eucl m' (Zpos my)) as [q r].
  pose proof (NumFacts.digits2_bound mx) as Hu1. fold d1 in Hu1.
  pose proof (MagnitudeFacts.digits2_lower my) as Hl2. fold d2 in Hl2.
  assert (Hps : 0 < 2 ^ s) by (apply Z.pow_pos_nonneg; lia).
  assert (Hq0 : 0 <= q) by nia.
  assert (Hqd : Zdigits2 q <= Z.max (d1 + s - d2 + 1) 0).
  { destruct (Z.eq_dec q 0) as [->|Hq]; [cbn; lia|].
    destruct (Z_lt_le_dec (d1 + s - d2 + 1) 0) as [Hneg|Hpos].
    - exfalso.
      assert (m' < Zpos my).
      { rewrite Hm'. eapply Z.lt_le_trans; [|exact Hl2].
        eapply Z.lt_le_trans with (2 ^ d1 * 2 ^ s); [nia|].
        rewrite <- Z.pow_add_r by (subst d1; lia).
        apply Z.pow_le_mono_r; lia. }
      nia.
    - apply Z.le_trans with (d1 + s - d2 + 1); [|lia].
      apply MagnitudeFacts.Zdigits2_le; [lia|lia|].
      assert (Hlt : m' < 2 ^ (d1 + s)).
      { rewrite Hm', Z.pow_add_r by (subst d1; lia). nia. }
      assert (Hsplit : 2 ^ (d1 + s) <= 2 ^ (d2 - 1) * 2 ^ (d1 + s - d2 + 1)).
      { rewrite <- Z.pow_add_r by (subst d2; lia).
        apply Z.pow_le_mono_r; lia. }
      assert (0 < 2 ^ (d1 + s - d2 + 1)) by (apply Z.pow_pos_nonneg; lia).
      destruct (Z_lt_le_dec q (2 ^ (d1 + s - d2 + 1))) as [|Hc]; [assumption|].
      exfalso. nia. }
  replace (k - j + 2) with (k - j + 1 + 1) by lia.
  apply (binary_round_aux_within Num.prec Num.emax eq_refl);
    rewrite ?ArithFacts.emin_double; unfold Num.prec, Num.emax; subst s; lia.
Qed.

End BoundFacts.

(* ================================================================== *)
(** ** The percentage of an accepted request is finite *)
(* ================================================================== *)

Module FiniteFacts.

Lemma within_finite (k : Z) (x : number) : within k x -> Num.isFinite x = true.
Proof. destruct x; cbn; intro H; try contradiction; reflexivity. Qed.

Lemma within_weaken (k k' : Z) (x : number) : within k x -> k <= k' -> within k' x.
Proof. destruct x; cbn [within]; intros H Hle; try exact H. lia. Qed.

Lemma within_abs (k : Z) (x : number) : within k x -> within k (Math.abs x).
Proof. destruct x; cbn; intro H; exact H. Qed.

Lemma Zdigits2_abs_le (z k : Z) : 0 <= k -> Z.abs z < 2 ^ k -> Zdigits2 z <= k.
Proof.
  intros Hk H. destruct z as [|p|p]; [cbn; lia| |].
  - apply MagnitudeFacts.Zdigits2_le; lia.
  - change (Zdigits2 (Zneg p)) with (Zdigits2 (Zpos p)).
    apply MagnitudeFacts.Zdigits2_le; lia.
Qed.

Lemma aligned_below (m : positive) (e ez k : Z) :
  ez <= e -> Zpos (digits2_pos m) + e <= k ->
  0 < Zpos m * 2 ^ (e - ez) < 2 ^ (k - ez).
Proof.
  intros He Hk.
  pose proof (NumFacts.digits2_bound m) as Hu.
  assert (Hp : 0 < 2 ^ (e - ez)) by (apply Z.pow_pos_nonneg; lia).
  split; [nia|].
  apply Z.lt_le_trans with (2 ^ Zpos (digits2_pos m) * 2 ^ (e - ez)); [nia|].
  rewrite <- Z.pow_add_r by lia. apply Z.pow_le_mono_r; lia.
Qed.

(** The difference of two prices below [2^k] is below [2^(k+1)]. *)
Lemma sub_within (k : Z) (c : number) (me : positive) (ee : Z) :
  within k c -> within k (S754_finite false me ee) ->
  Num.ge c Num.zero = true -> -1074 <= k -> k <= 971 ->
  within (k + 1) (Num.sub c (S754_finite false me ee)).
Proof.
  destruct c as [sc|sc| |sc mc ec]; cbn [within]; intros Hc He Hge Hmin Hmax;
    try contradiction.
  - unfold Num.sub. cbn [SFsub within]. lia.
  - destruct sc; [discriminate Hge|].
    rewrite ProfitFacts.sub_finite_value.
    apply BoundFacts.binary_normalize_within; [|lia|lia].
    pose proof (aligned_below mc ec (Z.min ec ee) k) as Ha.
    pose proof (aligned_below me ee (Z.min ec ee) k) as Hb.
    pose proof (Zdigits2_abs_le
                  (Zpos mc * 2 ^ (ec - Z.min ec ee) - Zpos me * 2 ^ (ee - Z.min ec ee))
                  (k - Z.min ec ee)) as Hd.
    assert (0 <= k - Z.min ec ee) by lia.
    lia.
Qed.

(** [Math.round] adds at most one bit above the binary point, and at most
    one more when the integer is made a number again. *)
Lemma round_within (k : Z) (x : number) :
  within k x -> 0 <= k -> k <= 969 -> within (k + 2) (Math.round x).
Proof.
  destruct x as [s|s| |s m e]; cbn [within Math.round]; intros Hx Hk Hmax;
    try contradiction; try exact I.
  destruct (Z.leb_spec 0 e) as [He|He]; [cbn [within]; lia|].
  unfold Num.nearestTiesUp, Num.numer, Num.denom.
  rewrite (Z.max_r e 0), (Z.max_l (- e) 0), Z.pow_0_r, Z.mul_1_r by lia.
  set (q := 2 ^ (- e)).
  assert (Hq : 2 <= q).
  { subst q. change 2 with (2 ^ 1) at 1. apply Z.pow_le_mono_r; lia. }
  set (p := if s then - Zpos m else Zpos m).
  set (r := (2 * p + q) / (2 * q)).
  assert (Hr : Z.abs r * q <= Zpos m + q).
  { pose proof (Z.mul_div_le (2 * p + q) (2 * q)) as H1.
    pose proof (Z.mul_succ_div_gt (2 * p + q) (2 * q)) as H2.
    fold r in H1, H2. subst p. destruct s; nia. }
  destruct (Z.eqb_spec r 0) as [_|Hr0]; [exact I|].
  unfold Num.ofZ.
  replace (k + 2) with (k + 1 + 1) by lia.
  apply BoundFacts.binary_normalize_within; [|lia|lia].
  rewrite Z.add_0_r.
  apply Zdigits2_abs_le; [lia|].
  pose proof (NumFacts.digits2_bound m) as Hu.
  destruct (Z_lt_le_dec (Zpos (digits2_pos m) + e) 0) as [Hneg|Hpos].
  - assert (Zpos m < q).
    { eapply Z.lt_le_trans; [exact Hu|]. subst q. apply Z.pow_le_mono_r; lia. }
    assert (Z.abs r <= 1) by nia.
    assert (2 ^ 1 <= 2 ^ (k + 1)) by (apply Z.pow_le_mono_r; lia).
    change (2 ^ 1) with 2 in *. lia.
  - assert (Hm : Zpos m < 2 ^ (Zpos (digits2_pos m) + e) * q).
    { subst q. rewrite <- Z.pow_add_r by lia.
      replace (Zpos (digits2_pos m) + e + - e) with (Zpos (digits2_pos m)) by lia.
      exact Hu. }
    assert (Z.abs r <= 2 ^ (Zpos (digits2_pos m) + e)) by nia.
    assert (2 ^ (Zpos (digits2_pos m) + e) <= 2 ^ k) by (apply Z.pow_le_mono_r; lia).
    rewrite Z.pow_add_r by lia. change (2 ^ 1) with 2.
    assert (0 < 2 ^ k) by (apply Z.pow_pos_nonneg; lia). lia.
Qed.

Lemma constants :
  (exists m e, c100 = S754_finite false m e /\ Zpos (digits2_pos m) + e = 7) /\
  (exists m e, c10000 = S754_finite false m e /\ Zpos (digits2_pos m) + e = 14).
Proof. split; eexists; eexists; split; vm_compute; reflexivity. Qed.

(** [roundPrecision] keeps a number below [2^k] finite. *)
Lemma roundPrecision_finite (k : Z) (v : number) :
  within k v -> 0 <= k -> k <= 900 -> Num.isFinite (roundPrecision v) = true.
Proof.
  intros Hv Hk Hmax. unfold roundPrecision.
  destruct constants as ((m1 & e1 & -> & H1) & (m2 & e2 & -> & H2)).
  destruct (Num.ge (Math.abs v) c1000).
  - apply (within_finite (k + 2)), round_within; [exact Hv|lia|lia].
  - destruct (Num.ge (Math.abs v) (Num.ofZ 1)).
    + apply (within_finite (k + 7 + 1 + 2 - 7 + 2)).
      apply BoundFacts.div_within; [|lia|lia|lia].
      apply round_within; [|lia|lia].
      apply BoundFacts.mul_within; [exact Hv|cbn [within]; lia|lia|lia].
    + apply (within_finite (k + 14 + 1 + 2 - 14 + 2)).
      apply BoundFacts.div_within; [|lia|lia|lia].
      apply round_within; [|lia|lia].
      apply BoundFacts.mul_within; [exact Hv|cbn [within]; lia|lia|lia].
Qed.

Lemma limits :
  (exists m e, MIN_PRICE = S754_finite false m e /\
               Zpos (digits2_pos m) = 53 /\ e = -119) /\
  (exists m e, MAX_PRICE = S754_finite false m e /\ e = -3).
Proof.
  split; eexists; eexists; (split; [vm_compute; reflexivity|]);
    try split; vm_compute; reflexivity.
Qed.

Lemma not_lt_finite_inv (m mc : positive) (e ec : Z) :
  Num.lt (S754_finite false m e) (S754_finite false mc ec) = false ->
  ec < e \/ (e = ec /\ Zpos mc <= Zpos m).
Proof.
  unfold Num.lt, SFltb, SFcompare.
  destruct (Z.compare_spec e ec) as [He|He|He]; try discriminate; [|lia].
  change (Pos.compare_cont Eq m mc) with (Pos.compare m mc).
  destruct (Pos.compare_spec m mc); try discriminate; lia.
Qed.

Lemma not_gt_finite_inv (m mc : positive) (e ec : Z) :
  Num.gt (S754_finite false m e) (S754_finite false mc ec) = false ->
  e <= ec.
Proof.
  unfold Num.gt, SFltb, SFcompare.
  destruct (Z.compare_spec ec e) as [He|He|He]; try discriminate; lia.
Qed.

(** An entry price that [validate] lets through lies between [2^-67] and
    [2^50]; a current price is a zero or below [2^50]. *)
Lemma entry_range (x : number) :
  Num.valid x = true -> Num.isFinite x = true ->
  Num.le x Num.zero = false ->
  Num.lt x MIN_PRICE = false -> Num.gt x MAX_PRICE = false ->
  exists m e, x = S754_finite false m e /\ -66 <= Zpos (digits2_pos m) + e <= 50.
Proof.
  intros Hv Hf H0 Hmin Hmax.
  destruct limits as ((mn & en & En & Hdn & Hen) & (mx & ex & Ex & Hex)).
  rewrite En in Hmin. rewrite Ex in Hmax.
  destruct x as [s|s| |s m e]; try discriminate Hf; [destruct s; discriminate H0|].
  destruct s; [discriminate H0|].
  exists m, e. split; [reflexivity|].
  pose proof (ProfitFacts.mantissa_bits _ _ _ Hv) as Hb.
  apply not_gt_finite_inv in Hmax.
  split; [|lia].
  destruct (not_lt_finite_inv _ _ _ _ Hmin) as [Hlt|[Heq Hm]].
  - pose proof (ProfitFacts.valid_normal _ _ _ Hv) as Hn.
    pose proof (MagnitudeFacts.Zdigits2_ge (Zpos m) 52). cbn [Zdigits2] in *. lia.
  - pose proof (MagnitudeFacts.Zdigits2_mono (Zpos mn) (Zpos m)).
    cbn [Zdigits2] in *. lia.
Qed.

Lemma current_range (y : number) :
  Num.valid y = true -> Num.isFinite y = true ->
  Num.lt y Num.zero = false -> Num.gt y MAX_PRICE = false ->
  within 50 y /\ Num.ge y Num.zero = true.
Proof.
  intros Hv Hf H0 Hmax.
  destruct limits as (_ & (mx & ex & Ex & Hex)). rewrite Ex in Hmax.
  destruct y as [s|s| |s m e]; try discriminate Hf.
  - split; [exact I|destruct s; reflexivity].
  - destruct s; [discriminate H0|]. split; [|reflexivity].
    pose proof (ProfitFacts.mantissa_bits _ _ _ Hv) as Hb.
    apply not_gt_finite_inv in Hmax. cbn [within]. lia.
Qed.

(** The raw percentage of an accepted request is below [2^127]. *)
Lemma rawPercentage_within (x y : number) (m : positive) (e : Z) :
  x = S754_finite false m e -> -66 <= Zpos (digits2_pos m) + e <= 50 ->
  within 50 y -> Num.ge y Num.zero = true ->
  within 127 (rawPercentage x y).
Proof.
  intros -> Hx Hy Hge. unfold rawPercentage.
  destruct ProfitFacts.hundred as (mh & eh & -> & Hh).
  replace 127 with (50 + 1 - -66 + 2 + 7 + 1) by reflexivity.
  apply BoundFacts.mul_within; [|cbn [within]; lia|lia|lia].
  apply BoundFacts.div_within; [|lia|lia|lia].
  apply sub_within; [exact Hy|cbn [within]; lia|exact Hge|lia|lia].
Qed.

End FiniteFacts.

(* ================================================================== *)
(** ** The metadata of an accepted request *)
(* ================================================================== *)

Section AcceptedRequest.

Variable toLocaleString : number -> option nat -> string.
Variable toBuffer : list string -> Canvas -> Buffer.

(** X20 (src/routes/cardRoutes.ts, the handler of POST /generate-card, with
    validate, calculatePnL and roundPrecision).  For a request that
    [validate] accepts, the limits on the two prices keep the whole
    calculation in range: the response is a success whose [is_profit] says
    exactly whether the current price is at least the entry price, and
    whose [gain_percentage] is a finite number, the raw percentage being
    below 2^127 in magnitude. *)
Theorem accepted_request_metadata (now : jsstring) (reqBody : JsVal) (w : World)
    (b : CardRequest) (x y : number) :
  extractBody reqBody = Some b -> validate b = [] ->
  entry_price b = JNum x -> current_price b = JNum y ->
  Num.valid x = true -> Num.valid y = true ->
  exists image meta w',
    generateCard toLocaleString toBuffer now reqBody w = (Success image meta, w') /\
    is_profit meta = Num.ge y x /\
    Num.isFinite (gain_percentage meta) = true /\
    gain_percentage meta = roundPrecision (rawPercentage x y) /\
    within 127 (rawPercentage x y).
Proof.
  intros Hb Hv Ex Ey Vx Vy.
  destruct (ValidateFacts.validate_nil b Hv)
    as (_ & (x' & Ex' & Fx & Hx0 & Hxmin & Hxmax) & (y' & Ey' & Fy & Hy0 & Hymax)).
  rewrite Ex in Ex'. injection Ex' as <-. rewrite Ey in Ey'. injection Ey' as <-.
  destruct (FiniteFacts.entry_range x Vx Fx Hx0 Hxmin Hxmax) as (m & e & Hxe & Hrange).
  destruct (FiniteFacts.current_range y Vy Fy Hy0 Hymax) as [Hyw Hyge].
  pose proof (FiniteFacts.rawPercentage_within x y m e Hxe Hrange Hyw Hyge) as Hw.
  unfold generateCard. rewrite Hb, Hv, Ex, Ey. cbn [numberOf].
  rewrite calculatePnL_cases, Hx0, Hy0, renderCard_buffer.
  eexists. eexists. eexists. split; [reflexivity|].
  cbn [is_profit gain_percentage percentageGain isProfit].
  split; [|split; [|split; [reflexivity|exact Hw]]].
  - assert (Hgt : Num.gt x Num.zero = true) by (rewrite Hxe; reflexivity).
    destruct (ProfitFacts.rawPercentage_cases x y Vx Vy Fx Fy Hgt Hyge)
      as [(Hge & _ & Hz)|[(Hge & _ & Hr)|(Hge & _ & Hr)]]; rewrite Hge.
    + rewrite Hz. reflexivity.
    + destruct Hr as [->|(m' & e' & -> & _)]; reflexivity.
    + destruct Hr as [->|(m' & e' & -> & _)]; reflexivity.
  - apply (FiniteFacts.roundPrecision_finite 127); [exact Hw|lia|lia].
Qed.

End AcceptedRequest.

Lemma accepted_request_metadata_witness :
  exists image meta w',
    generateCard enUS_toLocaleString blankBackend (str "Jan 1, 2025")
      (JObj [(str "ticker", JStr (str "SOL"));
             (str "entry_price", JNum (Num.ofZ 100));
             (str "current_price", JNum (Num.ofZ 150))]) freshWorld
      = (Success image meta, w') /\
    is_profit meta = Num.ge (Num.ofZ 150) (Num.ofZ 100) /\
    Num.isFinite (gain_percentage meta) = true /\
    gain_percentage meta = roundPrecision (rawPercentage (Num.ofZ 100) (Num.ofZ 150)) /\
    within 127 (rawPercentage (Num.ofZ 100) (Num.ofZ 150)).
Proof.
  refine (accepted_request_metadata enUS_toLocaleString blankBackend (str "Jan 1, 2025")
            (JObj [(str "ticker", JStr (str "SOL"));
                   (str "entry_price", JNum (Num.ofZ 100));
                   (str "current_price", JNum (Num.ofZ 150))]) freshWorld
            {| ticker := JStr (str "SOL"); entry_price := JNum (Num.ofZ 100);
               current_price := JNum (Num.ofZ 150); theme := JUndefined;
               wallet_tag := JUndefined; timestamp_ := JUndefined |}
            (Num.ofZ 100) (Num.ofZ 150) _ _ eq_refl eq_refl _ _);
    vm_compute; reflexivity.
Defined.
